(** * pymindaffectBCI: the dataset-analysis orchestration of
      [mindaffectBCI/decoder/analyse_datasets.py]

    A shallow embedding of [analyse_dataset], of the growing-window fold
    generation of [analyse_train_test], of [dataset_GridSearchCV] and of the
    result collection of [concurrent_datasets_GridSearchCV], followed by the
    properties established about them.

    Conventions.
    - A Python call that may raise is a computation in [result]; a call whose
      order relative to other calls matters is a computation in [traced],
      which also records the calls made to collaborators.
    - Collaborators that live outside this file of the repository
      (the model classes of [model_fitting], [block_permute],
      [decodingCurveSupervised], [preprocess], the dataset loader) and
      scikit-learn are fields of an interface record or Section variables.
    - A numpy array is modelled along the axis the code indexes: a list of
      trials.
    - A Python [int] is an integer of [Z]; a Python [float] is an IEEE 754
      binary64 number, with the arithmetic of the Standard Library's
      [SpecFloat]. *)

From Stdlib Require Import ZArith Floats.SpecFloat.
From stdpp Require Import gmap strings list fin_maps.
From Stdlib Require Import Lia.

Local Open Scope string_scope.
Local Open Scope list_scope.
Local Open Scope Z_scope.

(** ** Exceptions and the two monads *)

(** The exception classes the modelled code can raise; [OtherError] carries
    the class name of anything raised by a collaborator. *)
Inductive exn : Type :=
  | TypeError
  | NameError
  | UnboundLocalError
  | NotImplementedError
  | ValueError
  | IndexError
  | KeyError
  | OtherError (cls : string).

Definition exn_name (e : exn) : string :=
  match e with
  | TypeError => "TypeError"
  | NameError => "NameError"
  | UnboundLocalError => "UnboundLocalError"
  | NotImplementedError => "NotImplementedError"
  | ValueError => "ValueError"
  | IndexError => "IndexError"
  | KeyError => "KeyError"
  | OtherError cls => cls
  end.

Inductive result (A : Type) : Type :=
  | Ok (a : A)
  | Raise (e : exn).
Arguments Ok {A} a.
Arguments Raise {A} e.

(** Sequencing in [result]: the first failure aborts. *)
Definition rbind {A B} (r : result A) (k : A -> result B) : result B :=
  match r with
  | Ok a => k a
  | Raise e => Raise e
  end.

Notation "x <- m ;; k" := (rbind m (fun x => k))
  (at level 100, m at next level, right associativity, only parsing).

Definition is_ok {A} (r : result A) : bool :=
  match r with Ok _ => true | Raise _ => false end.

(** [raises r name]: the computation fails with an exception of class [name]. *)
Definition raises {A} (r : result A) (name : string) : Prop :=
  exists e, r = Raise e /\ exn_name e = name.

(** A computation that logs the collaborator calls it makes, in order, and
    then either returns or raises.  The log survives a raise. *)
Definition traced (E A : Type) : Type := list E * result A.

Definition tbind {E A B} (m : traced E A) (k : A -> traced E B) : traced E B :=
  match m with
  | (l, Ok a) => let '(l', r) := k a in (l ++ l', r)
  | (l, Raise e) => (l, Raise e)
  end.

Notation "x <~ m ;; k" := (tbind m (fun x => k))
  (at level 100, m at next level, right associativity, only parsing).

(** A pure, possibly raising step inside a traced computation. *)
Definition lift {E A} (r : result A) : traced E A := ([], r).

(** A collaborator call: logged, then its outcome. *)
Definition call {E A} (ev : E) (r : result A) : traced E A := ([ev], r).

(** [try: m  except: h] with a bare [except]. *)
Definition try_except {E A} (m : traced E A) (h : exn -> traced E A) : traced E A :=
  match m with
  | (l, Ok a) => (l, Ok a)
  | (l, Raise e) => let '(l', r) := h e in (l ++ l', r)
  end.

(** ** Python and numpy indexing *)

(** [range(start, stop, step)] as a list; a zero step raises [ValueError]. *)
Definition py_range (start stop step : Z) : result (list Z) :=
  if step =? 0 then Raise ValueError
  else if 0 <? step
       then Ok ((fun i => start + i * step) <$> seqZ 0 ((stop - start + step - 1) `div` step))
       else Ok ((fun i => start + i * step) <$> seqZ 0 ((start - stop - step - 1) `div` (- step))).

(** A slice object with the default step: [slice(start, stop)]; [None] bounds
    are [None]. *)
Record pyslice : Type := Slice { sl_start : option Z; sl_stop : option Z }.

(** [slice.indices(n)] for the default step: negative bounds count from the
    end, and both bounds are clipped to [0, n]. *)
Definition clip_bound (n b : Z) : Z :=
  if b <? 0 then Z.max (b + n) 0 else Z.min b n.

Definition slice_bounds (n : Z) (s : pyslice) : Z * Z :=
  (from_option (clip_bound n) 0 (sl_start s), from_option (clip_bound n) n (sl_stop s)).

(** [a[s]] along the first axis. *)
Definition apply_slice {A} (l : list A) (s : pyslice) : list A :=
  let '(lo, hi) := slice_bounds (Z.of_nat (length l)) s in
  take (Z.to_nat (hi - lo)) (drop (Z.to_nat lo) l).

(** [np.arange(n)] *)
Definition arange (n : nat) : list Z := seqZ 0 (Z.of_nat n).

(** ** Growing-window folds: [analyse_train_test], lines 248-255 and 269-270 *)

(** One entry of [splits]: a one-element tuple holding the (train, test)
    pair of slices. *)
Definition split_spec : Type := list (pyslice * pyslice).

(** The [isinstance(splits,int)] branch: [splitsize] is the integer given,
    [maxsize = X.shape[0]]. *)
Definition growing_splits (splitsize : Z) (maxsize : nat) : result (list split_spec) :=
  tstis <- py_range splitsize (Z.of_nat maxsize) splitsize;;
  Ok ((fun tsti => [(Slice None (Some tsti), Slice (Some tsti) None)]) <$> tstis).

(** [trnIdx = np.arange(X.shape[0])[cv[0][0]]] and
    [tstIdx = np.arange(X.shape[0])[cv[0][1]]]; [cv[0]] on an empty tuple
    raises [IndexError]. *)
Definition fold_indices (n : nat) (cv : split_spec) : result (list Z * list Z) :=
  match cv with
  | [] => Raise IndexError
  | (trn, tst) :: _ => Ok (apply_slice (arange n) trn, apply_slice (arange n) tst)
  end.

(** [[f(x) for x in l]] where [f] may raise: the first failure aborts. *)
Fixpoint for_each {A B} (f : A -> result B) (l : list A) : result (list B) :=
  match l with
  | [] => Ok []
  | x :: l' => y <- f x;; ys <- for_each f l';; Ok (y :: ys)
  end.


(** The index sets of the generated folds, as the loop of line 267 computes
    them for its labels. *)
Definition growing_folds (splitsize : Z) (n : nat) : result (list (list Z * list Z)) :=
  splits <- growing_splits splitsize n;;
  for_each (fold_indices n) splits.

(** ** numpy indexing along the trial axis *)

(** What [test_idx] may be: a list of integers or a slice. *)
Inductive index_arg : Type :=
  | IdxList (l : list Z)
  | IdxSlice (s : pyslice).

(** An integer index on an axis of length [n]: negative indices count from
    the end, anything outside [-n, n) raises [IndexError]. *)
Definition norm_index (n : nat) (i : Z) : result nat :=
  if (0 <=? i) && (i <? Z.of_nat n) then Ok (Z.to_nat i)
  else if (- Z.of_nat n <=? i) && (i <? 0) then Ok (Z.to_nat (i + Z.of_nat n))
  else Raise IndexError.

(** The positions an index argument denotes on an axis of length [n], in the
    order the argument lists them. *)
Definition positions (n : nat) (idx : index_arg) : result (list nat) :=
  match idx with
  | IdxList l => for_each (norm_index n) l
  | IdxSlice s => Ok (Z.to_nat <$> apply_slice (arange n) s)
  end.

(** [a[idx, ...]]: the selected trials, in the order of [idx]. *)
Definition take_index {A} (a : list A) (idx : index_arg) : result (list A) :=
  ks <- positions (length a) idx;;
  for_each (fun k => match a !! k with Some x => Ok x | None => Raise IndexError end) ks.

(** [m[idx] = True] on a boolean vector. *)
Definition set_true (m : list bool) (idx : index_arg) : result (list bool) :=
  ks <- positions (length m) idx;;
  Ok (foldl (fun m k => <[k:=true]> m) m ks).

(** The entries of [a] at the [True] positions of [mask], in axis order. *)
Fixpoint select {A} (mask : list bool) (a : list A) : list A :=
  match mask, a with
  | b :: mask', x :: a' => if b then x :: select mask' a' else select mask' a'
  | _, _ => []
  end.

(** [a[mask, ...]]: the mask must be as long as the axis. *)
Definition mask_select {A} (a : list A) (mask : list bool) : result (list A) :=
  if (length mask =? length a)%nat then Ok (select mask a) else Raise IndexError.

(** Number of [True] entries. *)
Definition count_true (mask : list bool) : nat := length (filter (fun b => b = true) mask).

(** Write the values [v], in order, at the [True] positions of [mask]. *)
Fixpoint scatter {A} (mask : list bool) (a v : list A) : list A :=
  match mask, a with
  | b :: mask', x :: a' =>
      if b then
        match v with
        | y :: v' => y :: scatter mask' a' v'
        | [] => x :: scatter mask' a' []
        end
      else x :: scatter mask' a' v
  | _, _ => a
  end.

(** Broadcasting [v] to [m] trials: [v] has [m] trials already, or a single
    trial that is repeated; any other trial count raises [ValueError]. *)
Definition broadcast_trials {A} (m : nat) (v : list A) : result (list A) :=
  if (length v =? m)%nat then Ok v
  else match v with
       | [y] => Ok (replicate m y)
       | _ => Raise ValueError
       end.

(** [a[..., mask, :, :] = v]: the mask must be as long as the axis and [v]
    is broadcast to the number of [True] positions. *)
Definition mask_assign {A} (a : list A) (mask : list bool) (v : list A) : result (list A) :=
  if negb (length mask =? length a)%nat then Raise IndexError
  else v' <- broadcast_trials (count_true mask) v;;
       Ok (scatter mask a v').

(** ** Stimulus tensors *)

(** [Y]: trial x sample x output. *)
Abbreviation Ytrial := (list (list Z)) (only parsing).
Abbreviation Ytensor := (list (list (list Z))) (only parsing).

(** [Y] has shape [(T, S, nY)]. *)
Definition has_shape (Y : Ytensor) (T S nY : nat) : Prop :=
  length Y = T /\
  Forall (fun trial => length trial = S /\ Forall (fun row => length row = nY) trial) Y.

(** Pairwise combination of two axes that must have the same length. *)
Fixpoint zip_same {A} (f : A -> A -> result A) (l1 l2 : list A) : result (list A) :=
  match l1, l2 with
  | [], [] => Ok []
  | x :: l1', y :: l2' => z <- f x y;; zs <- zip_same f l1' l2';; Ok (z :: zs)
  | _, _ => Raise ValueError
  end.

(** [np.concatenate((Y, Y_virt), -1)]: the other two axes must agree. *)
Definition concatenate_last (Y Yv : Ytensor) : result Ytensor :=
  zip_same (zip_same (fun row rowv => Ok (row ++ rowv))) Y Yv.

(** ** Values of the keyword arguments *)

(** ** Python numbers *)

(** A number is an [int], of any size, or a [float]: a double, which
    [SpecFloat] gives as a sign, a mantissa and a binary exponent, or as a
    zero, an infinity or NaN.  (A numpy [float64] computes the same; the
    fixed-width integers of numpy are not modelled.) *)
Inductive pynum : Type :=
  | PInt (z : Z)
  | PFloat (f : spec_float).

Definition OverflowError : exn := OtherError "OverflowError".
Definition ZeroDivisionError : exn := OtherError "ZeroDivisionError".

(** The double nearest to the integer [z], ties to even; an infinity when
    [z] is beyond the doubles. *)
Definition f64_of_Z (z : Z) : spec_float := binary_normalize 53 1024 z 0 false.

(** The double that a literal denotes: the one nearest to [n/d], for [n] and
    [d] below [2^53]; [0.29] is [f64_ratio 29 100]. *)
Definition f64_ratio (n d : Z) : spec_float := SFdiv 53 1024 (f64_of_Z n) (f64_of_Z d).

(** An [int] operand of a [float] operation is converted; one too large
    for a double raises. *)
Definition float_of_int (z : Z) : result spec_float :=
  match f64_of_Z z with
  | S754_infinity _ => Raise OverflowError
  | f => Ok f
  end.

Definition as_float (x : pynum) : result spec_float :=
  match x with
  | PInt z => float_of_int z
  | PFloat f => Ok f
  end.

(** [x * y]: exact on two ints, else the product of the doubles, rounded. *)
Definition py_mul (x y : pynum) : result pynum :=
  match x, y with
  | PInt a, PInt b => Ok (PInt (a * b))
  | _, _ => a <- as_float x;; b <- as_float y;; Ok (PFloat (SFmul 53 1024 a b))
  end.

(** An integer as an unrounded operand of [SFdiv]. *)
Definition exact_operand (z : Z) : spec_float :=
  match z with
  | Z0 => S754_zero false
  | Zpos p => S754_finite false p 0
  | Zneg p => S754_finite true p 0
  end.

(** [x / y]: always a float.  The quotient of two ints is rounded once,
    from the exact quotient, and raises when it is beyond the doubles;
    otherwise the two doubles are divided. *)
Definition py_truediv (x y : pynum) : result spec_float :=
  match x, y with
  | PInt a, PInt b =>
      if b =? 0 then Raise ZeroDivisionError
      else if a =? 0 then Ok (S754_zero (b <? 0))
      else match SFdiv 53 1024 (exact_operand a) (exact_operand b) with
           | S754_infinity _ => Raise OverflowError
           | q => Ok q
           end
  | _, _ =>
      a <- as_float x;;
      b <- as_float y;;
      match b with
      | S754_zero _ => Raise ZeroDivisionError
      | _ => Ok (SFdiv 53 1024 a b)
      end
  end.

(** [int(x)]: a float is truncated towards zero; NaN and the infinities
    raise. *)
Definition py_int (x : pynum) : result Z :=
  match x with
  | PInt z => Ok z
  | PFloat S754_nan => Raise ValueError
  | PFloat (S754_infinity _) => Raise OverflowError
  | PFloat (S754_zero _) => Ok 0
  | PFloat (S754_finite s m e) =>
      let v := Z.shiftl (Zpos m) e in Ok (if s then - v else v)
  end.

(** [int(x*y/1000)] *)
Definition int_per_1000 (x y : pynum) : result Z :=
  p <- py_mul x y;;
  q <- py_truediv p (PInt 1000);;
  py_int (PFloat q).

(** A value as found in [coords] or given for [fs]. *)
Inductive pyval : Type :=
  | VNone
  | VNum (x : pynum)
  | VStr (s : string).

(** Arithmetic on a value that must be a number. *)
Definition as_number (v : pyval) : result pynum :=
  match v with
  | VNum x => Ok x
  | _ => Raise TypeError
  end.

(** [int(ms*fs/1000)], lines 75-76. *)
Definition ms_to_samples (ms : pynum) (fs : pyval) : result Z :=
  f <- as_number fs;;
  int_per_1000 ms f.

(** Lines 70-74: with [coords] the rate is [coords[1]['fs']], whatever [fs]
    was given; the [print] of the first branch reads every axis name. *)
Definition sample_rate (coords : option (list (gmap string pyval))) (fs : pyval) : result pyval :=
  match coords with
  | Some cs =>
      ax <- match cs !! 1%nat with Some ax => Ok ax | None => Raise IndexError end;;
      fs' <- match ax !! "fs" with Some v => Ok v | None => Raise KeyError end;;
      _ <- for_each (fun c : gmap string pyval =>
                       match c !! "name" with Some v => Ok v | None => Raise KeyError end) cs;;
      Ok fs'
  | None => Ok fs
  end.

(** The [cv] argument: a flag, a fold count, or explicit folds. *)
Inductive cv_arg : Type :=
  | CvBool (b : bool)
  | CvInt (k : Z)
  | CvSplits (folds : split_spec).

(** [if cv:] *)
Definition truthy (cv : cv_arg) : bool :=
  match cv with
  | CvBool b => b
  | CvInt k => negb (k =? 0)
  | CvSplits folds => negb (bool_decide (folds = []))
  end.

(** ** The collaborators of [analyse_dataset] *)

(** The scikit-learn estimators built at lines 92-98; [C] is the type of the
    regularisation strength. *)
Inductive sk_estimator (C : Type) : Type :=
  | Ridge (alpha : Z) (fit_intercept : bool)
  | LogisticRegression (c : C) (fit_intercept : bool)
  | LinearSVR (c : C)
  | LinearSVC (c : C).
Arguments Ridge {C} alpha fit_intercept.
Arguments LogisticRegression {C} c fit_intercept.
Arguments LinearSVR {C} c.
Arguments LinearSVC {C} c.

(** A score tensor, as a list along its trial axis (axis -3). *)
Abbreviation tensor F := (list F) (only parsing).

(** What [analyse_dataset] imports: the model classes of [model_fitting]
    with the methods called on them, scikit-learn's [GridSearchCV],
    [block_permute] and [decodingCurveSupervised].  An object of a model
    class is a value of [Clsfr]; a method that changes the object returns the
    changed object. *)
Record Collaborators : Type := {
  XTrial : Type;    (* one trial of X *)
  FyTrial : Type;   (* the block of a score tensor at one trial *)
  Clsfr : Type;     (* a BaseSequence2Sequence object *)
  Kwargs : Type;    (* the extra keyword arguments, **kwargs *)
  CReg : Type;      (* the float C *)
  Grid : Type;      (* tuned_parameters: lists of values per parameter *)
  Params : Type;    (* one parameter combination *)
  Score : Type;
  Curve : Type;
  Hyper : Type;     (* the decoding hyper-parameters read off the object *)
  (* C = .1/np.sqrt(np.mean(X.ravel()**2)), lines 78-80 *)
  regC : list XTrial -> CReg;
  (* the zero block of np.zeros(tmp, dtype=Fy.dtype), line 163 *)
  Fy0 : FyTrial;
  (* constructors: tau, offset, [rank,] evtlabs, center, **kwargs *)
  MultiCCA : Z -> Z -> Z -> option (list string) -> bool -> Kwargs -> result Clsfr;
  BwdLinearRegression : Z -> Z -> option (list string) -> bool -> Kwargs -> result Clsfr;
  FwdLinearRegression : Z -> Z -> option (list string) -> bool -> Kwargs -> result Clsfr;
  (* tau, offset, evtlabs, clsfr=, labelizeY=, **kwargs; None: not passed *)
  LinearSklearn : Z -> Z -> option (list string) -> option (sk_estimator CReg) ->
                  option bool -> Kwargs -> result Clsfr;
  (* isinstance(clsfr, MultiCCA) *)
  is_MultiCCA : Clsfr -> bool;
  (* methods *)
  fit : Clsfr -> list XTrial -> Ytensor -> result Clsfr;
  (* predict(X, Y[, dedup0=...]) *)
  predict : Clsfr -> list XTrial -> Ytensor -> option bool -> result (tensor FyTrial);
  (* cv_fit(X, Y, cv=, [ranks=,] retrain_on_all=): the object and the dict
     of score tensors it returns *)
  cv_fit : Clsfr -> list XTrial -> Ytensor -> cv_arg -> option (list Z) -> bool ->
           result (Clsfr * gmap string (tensor FyTrial));
  set_params : Clsfr -> Params -> result Clsfr;
  audc_score : Clsfr -> tensor FyTrial -> result Score;
  (* minDecisLen, bwdAccumulate, (sigma0_, priorweight), softmaxscale_,
     startup_correction, line 175 *)
  decoding_hyper : Clsfr -> result Hyper;
  decodingCurveSupervised : tensor FyTrial -> Hyper -> result Curve;
  (* GridSearchCV(clsfr, grid).fit(X, Y) works on clones of clsfr and leaves
     best_params_ *)
  GridSearchCV_fit : Clsfr -> Grid -> list XTrial -> Ytensor -> result Params;
  (* block_permute(Y, n_virt_out, axis=-1) *)
  block_permute : Ytensor -> Z -> result Ytensor
}.

(** The [model] argument. *)
Inductive model_arg (E : Collaborators) : Type :=
  | ModelNone
  | ModelStr (token : string)
  | ModelInstance (m : Clsfr E)     (* isinstance(model, BaseSequence2Sequence) *)
  | ModelOther.                     (* any other object *)
Arguments ModelNone {E}.
Arguments ModelStr {E} token.
Arguments ModelInstance {E} m.
Arguments ModelOther {E}.

(** The keyword arguments of [analyse_dataset]. *)
Record options (E : Collaborators) : Type := {
  model : model_arg E;
  test_idx : option index_arg;
  cv : cv_arg;
  n_virt_out : option Z;
  tau_ms : pynum;
  fs : pyval;
  rank : Z;
  evtlabs : option (list string);
  offset_ms : pynum;
  center : bool;
  tuned_parameters : option (Grid E);
  ranks : option (list Z);
  retrain_on_all : bool;
  kwargs : Kwargs E
}.
Arguments model {E} o.
Arguments test_idx {E} o.
Arguments cv {E} o.
Arguments n_virt_out {E} o.
Arguments tau_ms {E} o.
Arguments fs {E} o.
Arguments rank {E} o.
Arguments evtlabs {E} o.
Arguments offset_ms {E} o.
Arguments center {E} o.
Arguments tuned_parameters {E} o.
Arguments ranks {E} o.
Arguments retrain_on_all {E} o.
Arguments kwargs {E} o.

(** The defaults of the signature, line 40-44. *)
Definition default_options (E : Collaborators) (kw : Kwargs E) : options E := {|
  model := ModelStr "cca";
  test_idx := None;
  cv := CvBool true;
  n_virt_out := None;
  tau_ms := PInt 300;
  fs := VNone;
  rank := 1;
  evtlabs := None;
  offset_ms := PInt 0;
  center := true;
  tuned_parameters := None;
  ranks := None;
  retrain_on_all := true;
  kwargs := kw
|}.

(** The calls [analyse_dataset] makes on its collaborators. *)
Inductive event (E : Collaborators) : Type :=
  | GridSearchFit (c : Clsfr E) (grid : Grid E) (X : list (XTrial E)) (Y : Ytensor)
  | SetParams (c : Clsfr E) (p : Params E)
  | CvFit (c : Clsfr E) (X : list (XTrial E)) (Y : Ytensor) (cv : cv_arg)
          (ranks : option (list Z)) (retrain_on_all : bool)
  | Fit (c : Clsfr E) (X : list (XTrial E)) (Y : Ytensor)
  | Predict (c : Clsfr E) (X : list (XTrial E)) (Y : Ytensor) (dedup0 : option bool)
  | AudcScore (c : Clsfr E) (rawFy : tensor (FyTrial E))
  | DecodingCurve (rawFy : tensor (FyTrial E)) (h : Hyper E).
Arguments GridSearchFit {E} c grid X Y.
Arguments SetParams {E} c p.
Arguments CvFit {E} c X Y cv ranks retrain_on_all.
Arguments Fit {E} c X Y.
Arguments Predict {E} c X Y dedup0.
Arguments AudcScore {E} c rawFy.
Arguments DecodingCurve {E} rawFy h.

(** ** [analyse_dataset], lines 40-177 *)

(** The names the module binds.  The import block binds [Ridge],
    [LogisticRegression], [LinearSVR], [LinearSVC] and [GridSearchCV] (it is
    taken to have succeeded) but no import binds [sklearn] itself. *)
Definition module_globals : list string :=
  ["np"; "get_dataset"; "BaseSequence2Sequence"; "MultiCCA"; "FwdLinearRegression";
   "BwdLinearRegression"; "LinearSklearn"; "Ridge"; "LogisticRegression"; "LinearSVR";
   "LinearSVC"; "GridSearchCV"; "updateSummaryStatistics"; "plot_erp";
   "plot_summary_statistics"; "plot_factoredmodel"; "factored2full"; "plot_Fe";
   "decodingCurveSupervised"; "print_decoding_curve"; "plot_decoding_curve";
   "flatten_decoding_curves"; "plot_Fy"; "preprocess"; "plot_grand_average_spectrum";
   "block_permute"; "plt"; "gc"; "re"; "traceback"].

(** Reading a global name. *)
Definition load_global (name : string) : result unit :=
  if bool_decide (name ∈ module_globals) then Ok tt else Raise NameError.

(** Line 99: [isinstance(model,sklearn.linear_model) or
    isinstance(model,sklearn.svm)].  The name [sklearn] is read first; were it
    bound, [isinstance] with a module as its second argument would raise
    [TypeError]. *)
Definition isinstance_sklearn : result bool :=
  _ <- load_global "sklearn";;
  Raise TypeError.

(** Lines 70-76: [tau] and [offset] in samples. *)
Definition window_samples {E} (coords : option (list (gmap string pyval))) (o : options E)
  : result (Z * Z) :=
  fs <- sample_rate coords (fs o);;
  tau <- ms_to_samples (tau_ms o) fs;;
  offset <- ms_to_samples (offset_ms o) fs;;
  Ok (tau, offset).

Section AnalyseDataset.
Context (E : Collaborators).

(** Lines 83-104: the classifier for the [model] argument. *)
Definition make_clsfr (m : model_arg E) (tau offset : Z) (o : options E) (C : CReg E)
  : result (Clsfr E) :=
  let linear clsfr labelizeY :=
    LinearSklearn E tau offset (evtlabs o) clsfr labelizeY (kwargs o) in
  let by_token (is_token : string -> bool) : result (Clsfr E) :=
    if is_token "bwd" then
      BwdLinearRegression E tau offset (evtlabs o) (center o) (kwargs o)
    else if is_token "fwd" then
      FwdLinearRegression E tau offset (evtlabs o) (center o) (kwargs o)
    else if is_token "ridge" then
      linear (Some (Ridge 0 (center o))) None
    else if is_token "lr" then
      linear (Some (LogisticRegression C (center o))) (Some true)
    else if is_token "svr" then
      linear (Some (LinearSVR C)) None
    else if is_token "svc" then
      linear (Some (LinearSVC C)) (Some true)
    else
      b <- isinstance_sklearn;;
      if b : bool then Raise TypeError (* line 100, never reached *)
      else if is_token "linearsklearn" then linear None None
      else Raise NotImplementedError in
  match m with
  | ModelInstance c => Ok c
  | ModelNone => MultiCCA E tau offset (rank o) (evtlabs o) (center o) (kwargs o)
  | ModelStr s =>
      if String.eqb s "cca"
      then MultiCCA E tau offset (rank o) (evtlabs o) (center o) (kwargs o)
      else by_token (String.eqb s)
  | ModelOther => by_token (fun _ => false)
  end.

(** Lines 107-110: the virtual outputs are appended after the given ones. *)
Definition add_virtual_outputs (n_virt : option Z) (Y : Ytensor) : result Ytensor :=
  match n_virt with
  | None => Ok Y
  | Some n =>
      Y_virt <- block_permute E Y n;;
      concatenate_last Y Y_virt
  end.

(** Lines 113-122.  Without [test_idx] all trials train and no mask is
    made; otherwise the result carries [(train_ind, test_ind)]. *)
Definition train_test_split (X : list (XTrial E)) (Y : Ytensor) (tst : option index_arg)
  : result (list (XTrial E) * Ytensor * option (list bool * list bool)) :=
  match tst with
  | None => Ok (X, Y, None)
  | Some idx =>
      test_ind <- set_true (replicate (length X) false) idx;;
      let train_ind := negb <$> test_ind in
      X_train <- mask_select X train_ind;;
      Y_train <- mask_select Y train_ind;;
      Ok (X_train, Y_train, Some (train_ind, test_ind))
  end.

Definition fitted : Type :=
  Clsfr E * tensor (FyTrial E) * gmap string (tensor (FyTrial E)).

(** Lines 125-153: the fit; returns the classifier, [Fy] and [res]. *)
Definition fit_model (clsfr : Clsfr E) (X : list (XTrial E)) (Y : Ytensor)
    (X_train : list (XTrial E)) (Y_train : Ytensor) (o : options E)
  : traced (event E) fitted :=
  if truthy (cv o) then
    clsfr <~ match tuned_parameters o with
             | Some grid =>
                 best_params <~ call (GridSearchFit clsfr grid X_train Y_train)
                                     (GridSearchCV_fit E clsfr grid X_train Y_train);;
                 call (SetParams clsfr best_params) (set_params E clsfr best_params)
             | None => lift (Ok clsfr)
             end;;
    let ranks_arg :=
      match ranks o with
      | Some rs => if is_MultiCCA E clsfr then Some rs else None
      | None => None
      end in
    fitres <~ call (CvFit clsfr X_train Y_train (cv o) ranks_arg (retrain_on_all o))
                   (cv_fit E clsfr X_train Y_train (cv o) ranks_arg (retrain_on_all o));;
    let '(clsfr, res) := fitres in
    Fy <~ lift (match res !! "estimator" with Some t => Ok t | None => Raise KeyError end);;
    lift (Ok (clsfr, Fy, res))
  else
    clsfr <~ call (Fit clsfr X_train Y_train) (fit E clsfr X_train Y_train);;
    Fy <~ call (Predict clsfr X Y (Some true)) (predict E clsfr X Y (Some true));;
    lift (Ok (clsfr, Fy, {[ "estimator" := Fy ]})).

(** Lines 158-167: predict on the held-out trials and build the tensor
    over all trials. *)
Definition splice_test (clsfr : Clsfr E) (X : list (XTrial E)) (Y : Ytensor)
    (idx : index_arg) (train_ind test_ind : list bool) (rawFy : tensor (FyTrial E))
  : traced (event E) (tensor (FyTrial E)) :=
  X_test <~ lift (take_index X idx);;
  Y_test <~ lift (take_index Y idx);;
  Fy_test <~ call (Predict clsfr X_test Y_test None) (predict E clsfr X_test Y_test None);;
  let allFy := replicate (length X) (Fy0 E) in
  allFy <~ lift (mask_assign allFy train_ind rawFy);;
  lift (mask_assign allFy test_ind Fy_test).

Definition analysis : Type :=
  Score E * Curve E * tensor (FyTrial E) * Clsfr E * gmap string (tensor (FyTrial E)).

(** Lines 155-177: the raw scores of the fitted model, with the held-out
    predictions when there is a test set, then the score and the decoding
    curve.  [Y] is the stimulus tensor with its virtual outputs. *)
Definition score_model (X : list (XTrial E)) (Y : Ytensor) (o : options E)
    (masks : option (list bool * list bool)) (fitres : fitted)
  : traced (event E) analysis :=
  let '(clsfr, Fy, res) := fitres in
  (* use the raw scores in computing the decoding curve *)
  let rawFy := default Fy (res !! "rawestimator") in
  spliced <~ match test_idx o, masks with
             | Some idx, Some (train_ind, test_ind) =>
                 allFy <~ splice_test clsfr X Y idx train_ind test_ind rawFy;;
                 lift (Ok (allFy, <["rawestimator" := allFy]> res))
             | _, _ => lift (Ok (rawFy, res))
             end;;
  let '(rawFy, res) := spliced in
  (* assess model performance *)
  score <~ call (AudcScore clsfr rawFy) (audc_score E clsfr rawFy);;
  (* compute decoding curve *)
  h <~ lift (decoding_hyper E clsfr);;
  dc <~ call (DecodingCurve rawFy h) (decodingCurveSupervised E rawFy h);;
  lift (Ok (score, dc, Fy, clsfr, res)).

(** Lines 78-177: the analysis once the window is known. *)
Definition analyse_window (X : list (XTrial E)) (Y : Ytensor) (o : options E)
    (tau offset : Z)
  : traced (event E) analysis :=
  let C := regC E X in
  (* create the model if not provided *)
  clsfr <~ lift (make_clsfr (model o) tau offset o C);;
  (* add virtual outputs if wanted *)
  Y <~ lift (add_virtual_outputs (n_virt_out o) Y);;
  (* do train/test split *)
  split <~ lift (train_test_split X Y (test_idx o));;
  let '(X_train, Y_train, masks) := split in
  (* fit the model *)
  fitres <~ fit_model clsfr X Y X_train Y_train o;;
  score_model X Y o masks fitres.

Definition analyse_dataset (X : list (XTrial E)) (Y : Ytensor)
    (coords : option (list (gmap string pyval))) (o : options E)
  : traced (event E) analysis :=
  (* extract dataset info *)
  window <~ lift (window_samples coords o);;
  let '(tau, offset) := window in
  analyse_window X Y o tau offset.
End AnalyseDataset.

(** ** A small instance of the collaborators

    Trials are numbered; the score block an object predicts for trial [x] is
    [1000 + x], the cross-validated score block of a training trial [x] is
    [2000 + x], so that the origin of every block of a score tensor can be
    read off.  Used to run the embedding on concrete inputs. *)
Record toy_clsfr : Type := ToyClsfr {
  tc_class : string;
  tc_params : list Z;
  tc_trained_on : list Z
}.

Definition toy_new (cls : string) (params : list Z) : result toy_clsfr :=
  Ok (ToyClsfr cls params []).

Definition toy : Collaborators := {|
  XTrial := Z;
  FyTrial := Z;
  Clsfr := toy_clsfr;
  Kwargs := unit;
  CReg := unit;
  Grid := list (list Z);
  Params := list Z;
  Score := Z;
  Curve := list Z;
  Hyper := unit;
  regC := fun _ => tt;
  Fy0 := 0;
  MultiCCA := fun tau offset rank _ _ _ => toy_new "MultiCCA" [tau; offset; rank];
  BwdLinearRegression := fun tau offset _ _ _ => toy_new "BwdLinearRegression" [tau; offset];
  FwdLinearRegression := fun tau offset _ _ _ => toy_new "FwdLinearRegression" [tau; offset];
  LinearSklearn := fun tau offset _ _ _ _ => toy_new "LinearSklearn" [tau; offset];
  is_MultiCCA := fun c => String.eqb (tc_class c) "MultiCCA";
  fit := fun c X _ => Ok (ToyClsfr (tc_class c) (tc_params c) X);
  predict := fun _ X _ _ => Ok (Z.add 1000 <$> X);
  cv_fit := fun c X _ _ _ _ =>
    Ok (ToyClsfr (tc_class c) (tc_params c) X, {[ "estimator" := Z.add 2000 <$> X ]});
  set_params := fun c p => Ok (ToyClsfr (tc_class c) p (tc_trained_on c));
  audc_score := fun _ rawFy => Ok (Z.of_nat (length rawFy));
  decoding_hyper := fun _ => Ok tt;
  decodingCurveSupervised := fun rawFy _ => Ok rawFy;
  GridSearchCV_fit := fun _ grid _ _ =>
    match grid with
    | [] => Raise ValueError
    | p :: _ => Ok p
    end;
  block_permute := fun Y n => Ok (map (map (fun row => replicate (Z.to_nat n) (hd 0 row))) Y)
|}.

(** Three trials of two samples and one output each. *)
Definition toy_X : list Z := [0; 1; 2].
Definition toy_Y : Ytensor := [[[1]; [0]]; [[0]; [1]]; [[1]; [1]]].

(** Variations of one keyword argument. *)
Definition with_fs {E} (v : pyval) (o : options E) : options E :=
  {| model := model o; test_idx := test_idx o; cv := cv o; n_virt_out := n_virt_out o;
     tau_ms := tau_ms o; fs := v; rank := rank o; evtlabs := evtlabs o;
     offset_ms := offset_ms o; center := center o; tuned_parameters := tuned_parameters o;
     ranks := ranks o; retrain_on_all := retrain_on_all o; kwargs := kwargs o |}.

Definition with_test_idx {E} (idx : option index_arg) (o : options E) : options E :=
  {| model := model o; test_idx := idx; cv := cv o; n_virt_out := n_virt_out o;
     tau_ms := tau_ms o; fs := fs o; rank := rank o; evtlabs := evtlabs o;
     offset_ms := offset_ms o; center := center o; tuned_parameters := tuned_parameters o;
     ranks := ranks o; retrain_on_all := retrain_on_all o; kwargs := kwargs o |}.

Definition with_cv {E} (c : cv_arg) (o : options E) : options E :=
  {| model := model o; test_idx := test_idx o; cv := c; n_virt_out := n_virt_out o;
     tau_ms := tau_ms o; fs := fs o; rank := rank o; evtlabs := evtlabs o;
     offset_ms := offset_ms o; center := center o; tuned_parameters := tuned_parameters o;
     ranks := ranks o; retrain_on_all := retrain_on_all o; kwargs := kwargs o |}.

Definition with_model {E} (m : model_arg E) (o : options E) : options E :=
  {| model := m; test_idx := test_idx o; cv := cv o; n_virt_out := n_virt_out o;
     tau_ms := tau_ms o; fs := fs o; rank := rank o; evtlabs := evtlabs o;
     offset_ms := offset_ms o; center := center o; tuned_parameters := tuned_parameters o;
     ranks := ranks o; retrain_on_all := retrain_on_all o; kwargs := kwargs o |}.


(** Options for the toy instance: the defaults, with a sample rate. *)
Definition toy_options : options toy := with_fs (VNum (PInt 100)) (default_options toy tt).

(** The same with a window of 0.29 ms at 100000 Hz. *)
Definition short_window_options : options toy :=
  {| model := model toy_options; test_idx := None; cv := cv toy_options;
     n_virt_out := None; tau_ms := PFloat (f64_ratio 29 100);
     fs := VNum (PInt 100000); rank := 1; evtlabs := None; offset_ms := PInt 0;
     center := true; tuned_parameters := None; ranks := None; retrain_on_all := true;
     kwargs := tt |}.

(** What a run returned, for reading single components of the result. *)
Definition returned {E A} (m : traced E A) : result A := snd m.
Definition calls {E A} (m : traced E A) : list E := fst m.

Definition Fy_of {E} (a : analysis E) : tensor (FyTrial E) := snd (fst (fst a)).
Definition res_of {E} (a : analysis E) : gmap string (tensor (FyTrial E)) := snd a.
Definition clsfr_of {E} (a : analysis E) : Clsfr E := snd (fst a).

(** The contract of [cv_fit] that the shapes of [analyse_dataset] rely on: the
    cross-validated estimator has one block per trial it was given. *)
Definition cv_fit_covers_input (E : Collaborators) : Prop :=
  forall c X Y cv rk rt c' res t,
    cv_fit E c X Y cv rk rt = Ok (c', res) ->
    res !! "estimator" = Some t ->
    length t = length X.

(** The calls that configure or fit the classifier. *)
Definition is_fit_call {E} (ev : event E) : bool :=
  match ev with
  | GridSearchFit _ _ _ _ | SetParams _ _ | CvFit _ _ _ _ _ _ | Fit _ _ _ => true
  | _ => false
  end.

(** ** [dataset_GridSearchCV], lines 915-975 *)

(** [k[n:]] *)
Fixpoint string_drop (n : nat) (s : string) : string :=
  match n, s with
  | O, _ => s
  | S n', String _ s' => string_drop n' s'
  | S _, EmptyString => EmptyString
  end.

(** What [dataset_GridSearchCV] calls: the dataset loader, [preprocess] and
    [analyse_dataset].  [Val] is the type of the values held in the argument
    dictionaries; the loader and [preprocess] are taken to be functions of
    their arguments that leave them unchanged. *)
Record Pipeline : Type := {
  Val : Type;
  Val_eq_dec : EqDecision Val;
  Data : Type;        (* the triple (X, Y, coords) *)
  GScore : Type;
  GCurve : Type;
  (* loader(filename, **loader_args) *)
  loader : string -> gmap string Val -> result Data;
  (* lines 951-959: the copies of oX, oY and ocoords, and then
     preprocess(oX, oY, ocoords, test_idx=..., **preprocess_args_f) *)
  preprocess : Data -> option Val -> gmap string Val -> result Data;
  (* analyse_dataset(X, Y, coords, model_f, **kw) for the keyword arguments
     [kw], of which the score and the decoding curve are kept *)
  analyse_kw : Data -> Val -> gmap string Val -> result (GScore * GCurve)
}.
#[export] Existing Instance Val_eq_dec.

(** [f(..., **a, **b)]: the keyword arguments the call passes.  A keyword
    that both dicts hold raises TypeError, before [f] is entered. *)
Definition call_keywords {V} (a b : gmap string V) : result (gmap string V) :=
  if bool_decide (map_Forall (fun k _ => b !! k = None) a)
  then Ok (a ∪ b) else Raise TypeError.

(** Line 960:
    [analyse_dataset(X, Y, coords, model_f, **clsfr_args_f, **kwargs_f)] *)
Definition analyse (P : Pipeline) (d : Data P) (model_f : Val P)
    (clsfr_args_f kwargs_f : gmap string (Val P)) : result (GScore P * GCurve P) :=
  kw <- call_keywords clsfr_args_f kwargs_f;;
  analyse_kw P d model_f kw.

(** The calls [dataset_GridSearchCV] makes, with the index of the grid
    configuration they are made for. *)
Inductive grid_event (P : Pipeline) : Type :=
  | Load (ci : nat) (filename : string) (args : gmap string (Val P))
  | Preprocess (ci : nat) (d : Data P) (test_idx : option (Val P))
               (args : gmap string (Val P))
  | Analyse (ci : nat) (d : Data P) (model : Val P)
            (clsfr_args kwargs : gmap string (Val P)).
Arguments Load {P} ci filename args.
Arguments Preprocess {P} ci d test_idx args.
Arguments Analyse {P} ci d model clsfr_args kwargs.

(** One dict of [res]: the results of one grid configuration. *)
Record entry (P : Pipeline) : Type := Entry {
  config : list (string * Val P);
  e_loader_args : gmap string (Val P);
  e_clsfr_args : gmap string (Val P);
  filenames : list string;
  scores : list (GScore P);
  decoding_curves : list (GCurve P)
}.
Arguments Entry {P} config e_loader_args e_clsfr_args filenames scores decoding_curves.
Arguments config {P} e.
Arguments e_loader_args {P} e.
Arguments e_clsfr_args {P} e.
Arguments filenames {P} e.
Arguments scores {P} e.
Arguments decoding_curves {P} e.

(** The argument sets of one configuration, lines 921-925. *)
Record overrides (P : Pipeline) : Type := Overrides {
  clsfr_args_f : gmap string (Val P);
  kwargs_f : gmap string (Val P);
  loader_args_f : gmap string (Val P);
  preprocess_args_f : gmap string (Val P);
  model_f : Val P
}.
Arguments Overrides {P} clsfr_args_f kwargs_f loader_args_f preprocess_args_f model_f.
Arguments clsfr_args_f {P} o.
Arguments kwargs_f {P} o.
Arguments loader_args_f {P} o.
Arguments preprocess_args_f {P} o.
Arguments model_f {P} o.

(** Lines 926-939: one item [k, v] of the configuration. *)
Definition override1 {P} (ov : overrides P) (kv : string * Val P) : overrides P :=
  let '(k, v) := kv in
  let strip (p : string) := string_drop (String.length p + 1) k in
  if String.prefix "clsfr_args" k then
    Overrides (<[strip "clsfr_args" := v]> (clsfr_args_f ov)) (kwargs_f ov)
              (loader_args_f ov) (preprocess_args_f ov) (model_f ov)
  else if String.prefix "loader_args" k then
    Overrides (clsfr_args_f ov) (kwargs_f ov)
              (<[strip "loader_args" := v]> (loader_args_f ov)) (preprocess_args_f ov)
              (model_f ov)
  else if String.prefix "preprocess_args" k then
    Overrides (clsfr_args_f ov) (kwargs_f ov) (loader_args_f ov)
              (<[strip "preprocess_args" := v]> (preprocess_args_f ov)) (model_f ov)
  else if String.prefix "model" k then
    Overrides (clsfr_args_f ov) (kwargs_f ov) (loader_args_f ov) (preprocess_args_f ov) v
  else
    Overrides (clsfr_args_f ov) (<[k := v]> (kwargs_f ov)) (loader_args_f ov)
              (preprocess_args_f ov) (model_f ov).

(** The outcome of the (re)load at lines 943-948. *)
Inductive reload (D : Type) : Type :=
  | Loaded (d : D)     (* the loader returned *)
  | Kept               (* no reload: the variables keep what they hold *)
  | Skipped.           (* the loader raised: [continue] *)
Arguments Loaded {D} d.
Arguments Kept {D}.
Arguments Skipped {D}.

Section DatasetGridSearchCV.
Context (P : Pipeline).
(** The arguments of the call; [grid] is what
    [ParameterGrid(tuned_parameters)] enumerates, each configuration as
    the list of its items. *)
Context (filename : string)
        (loader_args : gmap string (Val P))
        (model : Val P)
        (clsfr_args preprocess_args kwargs : gmap string (Val P)).

Definition base_overrides : overrides P :=
  Overrides clsfr_args kwargs loader_args preprocess_args model.

Definition apply_config (fit_config : list (string * Val P)) : overrides P :=
  foldl override1 base_overrides fit_config.

(** Line 943: is the dataset (re)loaded for configuration [ci]? *)
Definition reload_wanted (ci : nat) (ov : overrides P) : bool :=
  (ci =? 0)%nat || negb (bool_decide (loader_args_f ov = loader_args)).

(** Lines 964-974: record the result of configuration [ci]. *)
Definition store (res : list (option (entry P))) (ci : nat)
    (fit_config : list (string * Val P)) (ov : overrides P)
    (score : GScore P) (dc : GCurve P) : list (option (entry P)) :=
  let res := if (length res <=? ci)%nat
             then res ++ replicate (ci + 1 - length res) None
             else res in
  match res !! ci with
  | Some (Some e) =>
      <[ci := Some (Entry (config e) (e_loader_args e) (e_clsfr_args e)
                          (filenames e ++ [filename]) (scores e ++ [score])
                          (decoding_curves e ++ [dc]))]> res
  | _ =>
      <[ci := Some (Entry fit_config loader_args (clsfr_args_f ov)
                          [filename] [score] [dc])]> res
  end.

(** The state carried round the loop: [res] and the loaded
    [(oX, oY, ocoords)], unbound until a load succeeds. *)
Definition grid_state : Type := list (option (entry P)) * option (Data P).

(** Lines 950-974: preprocess and analyse the loaded data [d] under the
    configuration, and record the result. *)
Definition analyse_config (ci : nat) (fit_config : list (string * Val P))
    (ov : overrides P) (res : list (option (entry P))) (d : Data P)
  : traced (grid_event P) (list (option (entry P))) :=
  let tst := kwargs !! "test_idx" in
  X <~ call (Preprocess ci d tst (preprocess_args_f ov))
            (preprocess P d tst (preprocess_args_f ov));;
  sc <~ call (Analyse ci X (model_f ov) (clsfr_args_f ov) (kwargs_f ov))
             (analyse P X (model_f ov) (clsfr_args_f ov) (kwargs_f ov));;
  let '(score, decoding_curve) := sc in
  lift (Ok (store res ci fit_config ov score decoding_curve)).

(** One pass of the loop body, lines 920-974. *)
Definition grid_step (ci : nat) (fit_config : list (string * Val P)) (st : grid_state)
  : traced (grid_event P) grid_state :=
  let '(res, loaded) := st in
  (* override parameters with those from fit_config *)
  let ov := apply_config fit_config in
  (* (re)-load the dataset with the given config *)
  rl <~ (if reload_wanted ci ov then
           try_except
             (d <~ call (Load ci filename loader_args) (loader P filename loader_args);;
              lift (Ok (Loaded d)))
             (fun _ => lift (Ok Skipped))
         else lift (Ok Kept));;
  match rl with
  | Skipped => lift (Ok (res, loaded))
  | _ =>
      let loaded := match rl with Loaded d => Some d | _ => loaded end in
      (* X = oX.copy() *)
      d <~ lift (match loaded with Some d => Ok d | None => Raise UnboundLocalError end);;
      res <~ analyse_config ci fit_config ov res d;;
      lift (Ok (res, loaded))
  end.

(** [for ci, fit_config in enumerate(grid)], from index [ci] on. *)
Fixpoint grid_loop (ci : nat) (grid : list (list (string * Val P))) (st : grid_state)
  : traced (grid_event P) grid_state :=
  match grid with
  | [] => lift (Ok st)
  | fit_config :: grid' =>
      st' <~ grid_step ci fit_config st;;
      grid_loop (S ci) grid' st'
  end.

Definition dataset_GridSearchCV (res : list (option (entry P)))
    (grid : list (list (string * Val P)))
  : traced (grid_event P) (list (option (entry P))) :=
  st <~ grid_loop 0 grid (res, None);;
  lift (Ok (fst st)).
End DatasetGridSearchCV.

(** What the variables [oX, oY, ocoords] hold, when bound, came from the
    loader called with the base arguments. *)
Definition loaded_ok (P : Pipeline) (filename : string) (loader_args : gmap string (Val P))
    (loaded : option (Data P)) : Prop :=
  forall d, loaded = Some d -> loader P filename loader_args = Ok d.

(** The outcome of the call an event records. *)
Definition event_raised {P} (ev : grid_event P) (e : exn) : Prop :=
  match ev with
  | Load _ fn args => loader P fn args = Raise e
  | Preprocess _ d tst args => preprocess P d tst args = Raise e
  | Analyse _ d m cf kf => analyse P d m cf kf = Raise e
  end.

Definition is_load {P} (ev : grid_event P) : bool :=
  match ev with Load _ _ _ => true | _ => false end.

Definition event_config {P} (ev : grid_event P) : nat :=
  match ev with
  | Load ci _ _ | Preprocess ci _ _ _ | Analyse ci _ _ _ _ => ci
  end.

(** A key of a configuration that addresses the loader. *)
Definition is_loader_key (k : string) : bool :=
  negb (String.prefix "clsfr_args" k) && String.prefix "loader_args" k.

(** The items of a configuration that do not address the loader. *)
Definition non_loader_items {V} (fit_config : list (string * V)) : list (string * V) :=
  filter (fun kv => is_loader_key (fst kv) = false) fit_config.

(** A small pipeline: values are integers, the loaded data is the value of
    the loader argument [fs_out] (and [-1] for the file corrupt.txt),
    [preprocess] appends the value of its argument [whiten], and the analysis
    fails when its keyword [bad] is 1 or the data starts with [-1]. *)
Definition toy_pipeline : Pipeline := {|
  Val := Z;
  Val_eq_dec := _;
  Data := list Z;
  GScore := Z;
  GCurve := Z;
  loader := fun fn args =>
    if String.eqb fn "missing.txt" then Raise (OtherError "FileNotFoundError")
    else if String.eqb fn "corrupt.txt" then Ok [-1]
    else Ok [default 0 (args !! "fs_out")];
  preprocess := fun d _ args => Ok (d ++ [default 0 (args !! "whiten")]);
  analyse_kw := fun d _ kw =>
    if bool_decide (kw !! "bad" = Some 1) || bool_decide (head d = Some (-1))
    then Raise (OtherError "LinAlgError")
    else Ok (foldr Z.add 0 d, 0)
|}.

Definition toy_grid_search (fn : string) (grid : list (list (string * Z)))
  : traced (grid_event toy_pipeline) (list (option (entry toy_pipeline))) :=
  dataset_GridSearchCV toy_pipeline fn {[ "fs_out" := 100 ]} 0 ∅ ∅ ∅ [] grid.

(** What a call recorded for configuration [ci], with argument sets [ov], is
    expected to be: the loader is called on the file with the base
    arguments, [preprocess] on what that loader call returns, and the
    analysis on what [preprocess] returns. *)
Definition event_expected {P} (filename : string) (loader_args : gmap string (Val P))
    (tst : option (Val P)) (ov : overrides P) (ci : nat) (ev : grid_event P) : Prop :=
  event_config ev = ci /\
  match ev with
  | Load _ fn args => fn = filename /\ args = loader_args
  | Preprocess _ d t a =>
      loader P filename loader_args = Ok d /\ t = tst /\ a = preprocess_args_f ov
  | Analyse _ X m cf kf =>
      (exists d, loader P filename loader_args = Ok d /\
                 preprocess P d tst (preprocess_args_f ov) = Ok X) /\
      m = model_f ov /\ cf = clsfr_args_f ov /\ kf = kwargs_f ov
  end.

(** Two argument sets that agree on everything but the loader arguments. *)
Definition same_but_loader {P} (ov1 ov2 : overrides P) : Prop :=
  clsfr_args_f ov1 = clsfr_args_f ov2 /\
  kwargs_f ov1 = kwargs_f ov2 /\
  preprocess_args_f ov1 = preprocess_args_f ov2 /\
  model_f ov1 = model_f ov2.

(** ** [concurrent_datasets_GridSearchCV], lines 1030-1065 *)

Section Collect.
Context {P : Pipeline}.

(** Lines 1051-1053 for one configuration: the three lists of [res[ci]]
    are extended by those of [res_ci]; a [None] on either side cannot be
    subscripted. *)
Definition extend_entry (acc new : option (entry P)) : result (option (entry P)) :=
  match acc, new with
  | Some a, Some b =>
      Ok (Some (Entry (config a) (e_loader_args a) (e_clsfr_args a)
                      (filenames a ++ filenames b) (scores a ++ scores b)
                      (decoding_curves a ++ decoding_curves b)))
  | _, _ => Raise TypeError
  end.

(** Lines 1050-1053: [for ci, res_ci in enumerate(res_fi)]; [res[ci]]
    raises [IndexError] past the end of [res]. *)
Fixpoint merge_results (res res_fi : list (option (entry P)))
  : result (list (option (entry P))) :=
  match res_fi with
  | [] => Ok res
  | res_ci :: res_fi' =>
      match res with
      | [] => Raise IndexError
      | r :: res' =>
          m <- extend_entry r res_ci;;
          rest <- merge_results res' res_fi';;
          Ok (m :: rest)
      end
  end.

(** Lines 906-912, as far as it can fail on the shape of [res]: it reads
    [res[0]['filenames']] and then every [ri['config']].  Two things are
    taken to succeed and are not modelled: [print_decoding_curves] on the
    curves of each entry (line 911), and the opening and writing of the file
    the drivers dump the summary to. *)
Definition print_hyperparam_summary (res : list (option (entry P))) : result unit :=
  match res with
  | [] => Raise IndexError
  | None :: _ => Raise TypeError
  | Some _ :: _ =>
      _ <- for_each (fun ri : option (entry P) =>
                       match ri with Some _ => Ok tt | None => Raise TypeError end) res;;
      Ok tt
  end.

(** Lines 1046-1058: the futures in the order in which they complete;
    [future.result()] returns what the worker returned or raises what it
    raised. *)
Fixpoint collect (futures : list (result (list (option (entry P)))))
    (res : list (option (entry P))) : result (list (option (entry P))) :=
  match futures with
  | [] => Ok res
  | future :: futures' =>
      res_fi <- future;;
      (* merge into the set of all results *)
      res <- match res with
             | [] => Ok res_fi
             | _ :: _ => merge_results res res_fi
             end;;
      (* dump to file *)
      _ <- print_hyperparam_summary res;;
      collect futures' res
  end.

(** Lines 1044-1065. *)
Definition collect_results (futures : list (result (list (option (entry P)))))
  : result (list (option (entry P))) :=
  res <- collect futures [];;
  _ <- print_hyperparam_summary res;;
  Ok res.
End Collect.

(** The whole function: one job per file, each running
    [dataset_GridSearchCV] on an empty [res]; [completed] lists the files in
    the order in which their jobs complete. *)
Definition concurrent_datasets_GridSearchCV (P : Pipeline) (completed : list string)
    (loader_args : gmap string (Val P)) (model : Val P)
    (clsfr_args preprocess_args kwargs : gmap string (Val P))
    (grid : list (list (string * Val P))) : result (list (option (entry P))) :=
  collect_results
    ((fun fn => returned (dataset_GridSearchCV P fn loader_args model clsfr_args
                            preprocess_args kwargs [] grid)) <$> completed).

(** Concatenation of the lists of two result dicts of one configuration. *)
Definition cat_entry {P} (a b : entry P) : entry P :=
  Entry (config a) (e_loader_args a) (e_clsfr_args a)
        (filenames a ++ filenames b) (scores a ++ scores b)
        (decoding_curves a ++ decoding_curves b).

Definition toy_concurrent (completed : list string) (grid : list (list (string * Z)))
  : result (list (option (entry toy_pipeline))) :=
  concurrent_datasets_GridSearchCV toy_pipeline completed {[ "fs_out" := 100 ]} 0 ∅ ∅ ∅ grid.

(** Positions listed in strictly increasing order. *)
Definition increasing (ks : list nat) : Prop :=
  forall i j a b, (i < j)%nat -> ks !! i = Some a -> ks !! j = Some b -> (a < b)%nat.

(** * The other drivers of [analyse_datasets.py] *)

(** ** Loops and small Python operations *)

(** [for x in l: s = body(s, x)] where the body calls collaborators: the
    first failure ends the loop. *)
Fixpoint tfoldl {E A S} (body : S -> A -> traced E S) (l : list A) (s : S) : traced E S :=
  match l with
  | [] => lift (Ok s)
  | x :: l' => s' <~ body s x;; tfoldl body l' s'
  end.

(** [sum(l)/len(l)], as far as it can fail on the length of [l]. *)
Definition mean_defined {A} (l : list A) : result unit :=
  match l with
  | [] => Raise ZeroDivisionError
  | _ :: _ => Ok tt
  end.

(** [l[i]] on a list or a one-dimensional array. *)
Definition py_item {A} (l : list A) (i : Z) : result A :=
  k <- norm_index (length l) i;;
  match l !! k with Some x => Ok x | None => Raise IndexError end.

(** [coords[1]['fs'] if coords is not None else fs], lines 246 and 342. *)
Definition coords_fs (coords : option (list (gmap string pyval))) (fs : pyval) : result pyval :=
  match coords with
  | Some cs =>
      ax <- match cs !! 1%nat with Some ax => Ok ax | None => Raise IndexError end;;
      match ax !! "fs" with Some v => Ok v | None => Raise KeyError end
  | None => Ok fs
  end.

Definition with_retrain_on_all {E} (b : bool) (o : options E) : options E :=
  {| model := model o; test_idx := test_idx o; cv := cv o; n_virt_out := n_virt_out o;
     tau_ms := tau_ms o; fs := fs o; rank := rank o; evtlabs := evtlabs o;
     offset_ms := offset_ms o; center := center o; tuned_parameters := tuned_parameters o;
     ranks := ranks o; retrain_on_all := b; kwargs := kwargs o |}.

(** ** More about [analyse_dataset] *)

(** The contract of [predict] that the shapes of [analyse_dataset] rely on:
    one score block per trial it is given. *)
Definition predict_covers_input (E : Collaborators) : Prop :=
  forall c X Y dedup0 Fy, predict E c X Y dedup0 = Ok Fy -> length Fy = length X.

(** The contract of [fit] that the third component of the result relies
    on: there is nothing to fit without a training trial. *)
Definition fit_needs_trials (E : Collaborators) : Prop :=
  forall c Y, is_ok (fit E c [] Y) = false.

(** The collaborators [E], with a [fit] that refuses an empty training
    set. *)
Definition refusing_empty_fit (E : Collaborators) : Collaborators := {|
  XTrial := XTrial E;
  FyTrial := FyTrial E;
  Clsfr := Clsfr E;
  Kwargs := Kwargs E;
  CReg := CReg E;
  Grid := Grid E;
  Params := Params E;
  Score := Score E;
  Curve := Curve E;
  Hyper := Hyper E;
  regC := regC E;
  Fy0 := Fy0 E;
  MultiCCA := MultiCCA E;
  BwdLinearRegression := BwdLinearRegression E;
  FwdLinearRegression := FwdLinearRegression E;
  LinearSklearn := LinearSklearn E;
  is_MultiCCA := is_MultiCCA E;
  fit := fun c X Y => match X with [] => Raise ValueError | _ :: _ => fit E c X Y end;
  predict := predict E;
  cv_fit := cv_fit E;
  set_params := set_params E;
  audc_score := audc_score E;
  decoding_hyper := decoding_hyper E;
  decodingCurveSupervised := decodingCurveSupervised E;
  GridSearchCV_fit := GridSearchCV_fit E;
  block_permute := block_permute E
|}.

(** The data a call that fits or tunes the classifier is given. *)
Definition fit_data {E} (ev : event E) : option (list (XTrial E) * Ytensor) :=
  match ev with
  | GridSearchFit _ _ X Y | CvFit _ X Y _ _ _ | Fit _ X Y => Some (X, Y)
  | _ => None
  end.

(** The calls of a run that configure or fit the classifier, in order. *)
Definition fit_calls {E A} (m : traced (event E) A) : list (event E) :=
  List.filter is_fit_call (calls m).

(** The object such a call is made on. *)
Definition fitted_object {E} (ev : event E) : option (Clsfr E) :=
  match ev with
  | GridSearchFit c _ _ _ | SetParams c _ | CvFit c _ _ _ _ _ | Fit c _ _ => Some c
  | _ => None
  end.

(** The model arguments whose classifier holds the regularisation strength
    [C], which lines 78-80 compute from [X]: lines 94, 96 and 98. *)
Definition uses_C {E} (m : model_arg E) : bool :=
  match m with
  | ModelStr s => String.eqb s "lr" || String.eqb s "svr" || String.eqb s "svc"
  | _ => false
  end.

(** ** More about [dataset_GridSearchCV] *)

(** A key of a configuration that none of the four prefixes of lines
    927-936 claims: its item goes to [kwargs_f]. *)
Definition is_plain_key (k : string) : bool :=
  negb (String.prefix "clsfr_args" k || String.prefix "loader_args" k ||
        String.prefix "preprocess_args" k || String.prefix "model" k).

(** [k[len("clsfr_args")+1:]], line 928: the keyword of an item whose key
    starts with clsfr_args. *)
Definition clsfr_key (k : string) : string := string_drop 11 k.



Section FileResults.
Context (P : Pipeline).
Context (filename : string)
        (loader_args : gmap string (Val P))
        (model : Val P)
        (clsfr_args preprocess_args kwargs : gmap string (Val P)).

(** What lines 958-960 compute for the data [d] under one configuration. *)
Definition config_result (d : Data P) (fit_config : list (string * Val P))
  : result (GScore P * GCurve P) :=
  let ov := apply_config P loader_args model clsfr_args preprocess_args kwargs fit_config in
  X <- preprocess P d (kwargs !! "test_idx") (preprocess_args_f ov);;
  analyse P X (model_f ov) (clsfr_args_f ov) (kwargs_f ov).

(** The dict of lines 968-970. *)
Definition new_entry (fit_config : list (string * Val P)) (sc : GScore P * GCurve P)
  : entry P :=
  let ov := apply_config P loader_args model clsfr_args preprocess_args kwargs fit_config in
  Entry fit_config loader_args (clsfr_args_f ov) [filename] [fst sc] [snd sc].

(** What the loop of lines 919-974 records in [res] when the
    configurations from index [ci] on give the results [scs]. *)
Fixpoint store_all (res : list (option (entry P))) (ci : nat)
    (grid : list (list (string * Val P))) (scs : list (GScore P * GCurve P))
  : list (option (entry P)) :=
  match grid, scs with
  | fit_config :: grid', sc :: scs' =>
      store_all
        (store P filename loader_args res ci fit_config
           (apply_config P loader_args model clsfr_args preprocess_args kwargs fit_config)
           (fst sc) (snd sc))
        (S ci) grid' scs'
  | _, _ => res
  end.

(** The dict of configuration [fit_config] once the files [fns] have been
    analysed: it names the configuration and its arguments, lists the files,
    and holds for each file, in the same order, the score and the decoding
    curve of that file under the configuration. *)
Definition entry_for (fns : list string) (fit_config : list (string * Val P)) (e : entry P)
  : Prop :=
  config e = fit_config /\
  e_loader_args e = loader_args /\
  e_clsfr_args e
  = clsfr_args_f (apply_config P loader_args model clsfr_args preprocess_args kwargs
                    fit_config) /\
  filenames e = fns /\
  exists scs,
    scores e = fst <$> scs /\ decoding_curves e = snd <$> scs /\
    Forall2 (fun fn sc => exists d, loader P fn loader_args = Ok d /\
                                    config_result d fit_config = Ok sc) fns scs.

(** The files the loader succeeds on. *)
Definition loadable (fns : list string) : list string :=
  filter (fun fn => is_ok (loader P fn loader_args) = true) fns.
End FileResults.

(** ** [datasets_GridSearchCV], lines 977-1011 *)

Section DatasetsGridSearchCV.
Context (P : Pipeline).
(** [loader] and [filenames] are what [get_dataset] returns; [grid] is what
    [ParameterGrid(tuned_parameters)] enumerates. *)
Context (loader_args : gmap string (Val P))
        (model : Val P)
        (clsfr_args preprocess_args kwargs : gmap string (Val P))
        (grid : list (list (string * Val P))).

(** Lines 1000-1004: the grid for one file, on the results so far, and the
    summary written after it. *)
Definition search_file (res : list (option (entry P))) (filename : string)
  : traced (grid_event P) (list (option (entry P))) :=
  res <~ dataset_GridSearchCV P filename loader_args model clsfr_args preprocess_args
           kwargs res grid;;
  _ <~ lift (print_hyperparam_summary res);;
  lift (Ok res).

Definition datasets_GridSearchCV (filenames : list string)
  : traced (grid_event P) (list (option (entry P))) :=
  res <~ tfoldl search_file filenames [];;
  _ <~ lift (print_hyperparam_summary res);;
  lift (Ok res).
End DatasetsGridSearchCV.

Definition toy_sequential (filenames : list string) (grid : list (list (string * Z)))
  : traced (grid_event toy_pipeline) (list (option (entry toy_pipeline))) :=
  datasets_GridSearchCV toy_pipeline {[ "fs_out" := 100 ]} 0 ∅ ∅ ∅ grid filenames.

(** ** [analyse_datasets], lines 180-224 *)

(** The calls [analyse_datasets] makes for its files. *)
Inductive file_event (P : Pipeline) : Type :=
  | LoadFile (filename : string) (args : gmap string (Val P))
  | PreprocessFile (d : Data P) (args : gmap string (Val P))
  | AnalyseFile (d : Data P) (model : Val P) (tuned : option (Val P))
                (clsfr_args kwargs : gmap string (Val P)).
Arguments LoadFile {P} filename args.
Arguments PreprocessFile {P} d args.
Arguments AnalyseFile {P} d model tuned clsfr_args kwargs.

(** The file an event was recorded for cannot be read off the data; a load
    names it. *)
Definition loaded_file {P} (ev : file_event P) : option string :=
  match ev with LoadFile fn _ => Some fn | _ => None end.

Section AnalyseDatasets.
Context (P : Pipeline).
(** [preprocess(X, Y, coords, **preprocess_args)], here called without
    [test_idx];
    [analyse_dataset(X, Y, coords, model, tuned_parameters=tuned_parameters,
    **clsfr_args, **kwargs)], of which the score and the decoding curve are
    kept;
    [Y.shape[-1] if Y.ndim<=3 else Y.shape[-2]];
    and lines 217-223: the averaged decoding curve printed, plotted and
    saved. *)
Context (preprocess_xy : Data P -> gmap string (Val P) -> result (Data P))
        (analyse_tuned : Data P -> Val P -> option (Val P) ->
                         gmap string (Val P) -> gmap string (Val P) ->
                         result (GScore P * GCurve P))
        (n_outputs : Data P -> Z)
        (summary : list (GScore P) -> list Z -> list (GCurve P) -> result unit).
(** The arguments; [None] for [loader_args] and [clsfr_args] stands for the
    empty dict (lines 194-195). *)
Context (model : Val P)
        (loader_args preprocess_args clsfr_args : option (gmap string (Val P)))
        (tuned_parameters : option (Val P))
        (kwargs : gmap string (Val P)).

(** [scores], [decoding_curves] and [nout]. *)
Definition file_results : Type := list (GScore P) * list (GCurve P) * list Z.

(** Lines 204-210: one pass of the loop. *)
Definition analyse_file (acc : file_results) (fi : string)
  : traced (file_event P) file_results :=
  let '(scores, decoding_curves, nout) := acc in
  let loader_args := default ∅ loader_args in
  let clsfr_args := default ∅ clsfr_args in
  d <~ call (LoadFile fi loader_args) (loader P fi loader_args);;
  d <~ match preprocess_args with
       | Some pa => call (PreprocessFile d pa) (preprocess_xy d pa)
       | None => lift (Ok d)
       end;;
  sc <~ call (AnalyseFile d model tuned_parameters clsfr_args kwargs)
             (analyse_tuned d model tuned_parameters clsfr_args kwargs);;
  let '(score, decoding_curve) := sc in
  lift (Ok (scores ++ [score], decoding_curves ++ [decoding_curve], nout ++ [n_outputs d])).

Definition analyse_datasets (filenames : list string)
  : traced (file_event P) (list string * list (GScore P) * list (GCurve P)) :=
  acc <~ tfoldl analyse_file filenames ([], [], []);;
  let '(scores, decoding_curves, nout) := acc in
  (* avescore=sum(scores)/len(scores); avenout=sum(nout)/len(nout) *)
  _ <~ lift (mean_defined scores);;
  _ <~ lift (mean_defined nout);;
  _ <~ lift (summary scores nout decoding_curves);;
  lift (Ok (filenames, scores, decoding_curves)).

(** What the three calls for one file give when none of them raises. *)
Definition file_outcome (fi : string) : result (GScore P * GCurve P) :=
  let loader_args := default ∅ loader_args in
  let clsfr_args := default ∅ clsfr_args in
  d <- loader P fi loader_args;;
  d <- match preprocess_args with
       | Some pa => preprocess_xy d pa
       | None => Ok d
       end;;
  analyse_tuned d model tuned_parameters clsfr_args kwargs.
End AnalyseDatasets.

Definition toy_analyse_datasets (preprocess_args : option (gmap string Z))
    (filenames : list string)
  : traced (file_event toy_pipeline) (list string * list Z * list Z) :=
  analyse_datasets toy_pipeline
    (fun d args => preprocess toy_pipeline d None args)
    (fun d m _ cf kw => analyse toy_pipeline d m cf kw)
    (fun d => Z.of_nat (length d))
    (fun _ _ _ => Ok tt)
    0 (Some {[ "fs_out" := 100 ]}) preprocess_args None None ∅ filenames.

(** ** [analyse_train_test], lines 234-314 *)

(** The [splits] argument: a step size or the folds themselves. *)
Inductive splits_arg : Type :=
  | SplitSize (splitsize : Z)               (* isinstance(splits,int) *)
  | SplitList (splits : list split_spec).

(** Lines 269-271: the index arrays of a fold and what its label shows of
    them: the sizes and the first and last index of each. *)
Definition fold_label (n : nat) (cv : split_spec) : result (nat * (Z * Z) * nat * (Z * Z)) :=
  idx <- fold_indices n cv;;
  let '(trnIdx, tstIdx) := idx in
  trn0 <- py_item trnIdx 0;;
  trn1 <- py_item trnIdx (-1);;
  tst0 <- py_item tstIdx 0;;
  tst1 <- py_item tstIdx (-1);;
  Ok (length trnIdx, (trn0, trn1), length tstIdx, (tst0, tst1)).

(** Line 275, [score, decoding_curve, Fy, clsfr = analyse_dataset(...)]:
    the tuple [analyse_dataset] returns has five components, which four
    targets cannot take. *)
Definition unpack4 {E} (t : analysis E)
  : result (Score E * Curve E * tensor (FyTrial E) * Clsfr E) :=
  let '(_, _, _, _, _) := t in Raise ValueError.

Section AnalyseTrainTest.
Context (E : Collaborators) (PArgs : Type).
Local Abbreviation coords_t := (option (list (gmap string pyval))) (only parsing).
(** What a completed fold leaves: its label, score, decoding curve and
    classifier. *)
Local Abbreviation fold_t :=
  (nat * (Z * Z) * nat * (Z * Z) * Score E * Curve E * Clsfr E)%type (only parsing).
(** [preprocess(X, Y, coords, **preprocess_args)]; lines 282-300, the plots
    of the models of the folds; lines 303-314, the averaged decoding
    curve. *)
Context (preprocess_xy : list (XTrial E) -> Ytensor -> coords_t -> PArgs ->
                         result (list (XTrial E) * Ytensor * coords_t))
        (plot_models : pyval -> list fold_t -> result unit)
        (summary : list fold_t -> result unit).

(** Lines 269-279: one fold.  [o] holds [model] and the keywords given in
    [clsfr_args] and [kwargs]; [cv] and [retrain_on_all] are set by the
    call. *)
Definition fold_run (X : list (XTrial E)) (Y : Ytensor) (coords : coords_t)
    (o : options E) (cv : split_spec) : traced (event E) fold_t :=
  lab <~ lift (fold_label (length X) cv);;
  a <~ analyse_dataset E X Y coords (with_retrain_on_all false (with_cv (CvSplits cv) o));;
  r <~ lift (unpack4 a);;
  let '(score, decoding_curve, _, clsfr) := r in
  lift (Ok (lab, score, decoding_curve, clsfr)).

Definition analyse_train_test (X : list (XTrial E)) (Y : Ytensor) (coords : coords_t)
    (splits : splits_arg) (fs : pyval) (preprocess_args : option PArgs) (o : options E)
  : traced (event E) unit :=
  fs <~ lift (coords_fs coords fs);;
  splits <~ lift (match splits with
                  | SplitSize splitsize => growing_splits splitsize (length X)
                  | SplitList splits => Ok splits
                  end);;
  pre <~ lift (match preprocess_args with
               | Some pa => preprocess_xy X Y coords pa
               | None => Ok (X, Y, coords)
               end);;
  let '(X, Y, coords) := pre in
  (* run the train/test splits *)
  folds <~ tfoldl (fun folds cv =>
                     r <~ fold_run X Y coords o cv;; lift (Ok (folds ++ [r])))
                  splits [];;
  (* plot the model for each folding *)
  _ <~ lift (plot_models fs folds);;
  (* avescore=sum(scores)/len(scores) *)
  _ <~ lift (mean_defined folds);;
  lift (summary folds).
End AnalyseTrainTest.

Definition toy_train_test (splits : splits_arg)
  : traced (event toy) unit :=
  analyse_train_test toy unit (fun X Y coords _ => Ok (X, Y, coords))
    (fun _ _ => Ok tt) (fun _ => Ok tt)
    toy_X toy_Y None splits (VNum (PInt 100)) None toy_options.

(** ** [debug_test_dataset], lines 316-397 *)

(** A value of a keyword argument of [debug_test_dataset] or of its
    [clsfr_args]: a scalar or a tuple of event labels. *)
Inductive argval : Type :=
  | AVal (v : pyval)
  | ALabels (l : list string).

Definition is_None (v : argval) : bool :=
  match v with AVal VNone => true | _ => false end.

(** Lines 344-351:
    [if key in clsfr_args and clsfr_args[key] is not None: x = clsfr_args[key]] *)
Definition from_clsfr_args (clsfr_args : gmap string argval) (key : string) (direct : argval)
  : argval :=
  match clsfr_args !! key with
  | Some v => if is_None v then direct else v
  | None => direct
  end.

(** The variables [tau_ms], [offset_ms], [evtlabs], [rank] and the dict
    [clsfr_args] after line 361. *)
Record resolved : Type := Resolved {
  r_tau_ms : argval;
  r_offset_ms : argval;
  r_evtlabs : argval;
  r_rank : argval;
  r_clsfr_args : gmap string argval
}.

(** Lines 343-361.  [clsfr_args] is the dict the parameter is bound to, or
    [None]; the dict is updated in place. *)
Definition resolve_args (clsfr_args : option (gmap string argval))
    (tau_ms offset_ms evtlabs rank fs : argval) : resolved :=
  let ca := default ∅ clsfr_args in
  let tau_ms := from_clsfr_args ca "tau_ms" tau_ms in
  let offset_ms := from_clsfr_args ca "offset_ms" offset_ms in
  let evtlabs := from_clsfr_args ca "evtlabs" evtlabs in
  let rank := from_clsfr_args ca "rank" rank in
  let evtlabs := if is_None evtlabs then ALabels ["re"; "fe"] else evtlabs in
  Resolved tau_ms offset_ms evtlabs rank
    (<["rank" := rank]> (<["offset_ms" := offset_ms]> (<["fs" := fs]>
       (<["tau_ms" := tau_ms]> (<["evtlabs" := evtlabs]> ca))))).

(** What the parameter [clsfr_args] is bound to: the dict object of the
    default [clsfr_args=dict()], which all calls share, [None], or a dict of
    the caller. *)
Inductive dict_arg : Type :=
  | DictDefault
  | DictNone
  | DictGiven (d : gmap string argval).

Definition arg_number (v : argval) : result pynum :=
  match v with
  | AVal w => as_number w
  | ALabels _ => Raise TypeError
  end.

(** Lines 367-368: [tau = int(fs*tau_ms/1000)] and
    [offset = int(offset_ms*fs/1000)]. *)
Definition debug_window (fs : pyval) (tau_ms offset_ms : argval) : result (Z * Z) :=
  f <- as_number fs;;
  t <- arg_number tau_ms;;
  tau <- int_per_1000 f t;;
  off <- arg_number offset_ms;;
  offset <- int_per_1000 off f;;
  Ok (tau, offset).

(** The functions the module defines. *)
Definition module_functions : list string :=
  ["analyse_dataset"; "analyse_datasets"; "print_decoding_curves"; "plot_decoding_curves";
   "analyse_train_test"; "debug_test_dataset"; "plot_trial_summary"; "plot_stimseq";
   "plot_stim_encoding"; "debug_test_single_dataset"; "run_analysis"; "analyse_single";
   "print_hyperparam_summary"; "dataset_GridSearchCV"; "datasets_GridSearchCV";
   "concurrent_datasets_GridSearchCV"].

(** The names [debug_test_dataset] binds itself: its parameters, the
    variables it assigns and the names its own imports bind. *)
Definition debug_test_dataset_locals : list string :=
  ["X"; "Y"; "coords"; "label"; "tau_ms"; "fs"; "offset_ms"; "evtlabs"; "rank"; "model";
   "preprocess_args"; "clsfr_args"; "plotnormFy"; "triggerPlot"; "kwargs";
   "tau"; "offset"; "times"; "ch_names"; "ch_pos"; "getPosInfo"; "cnames"; "xy"; "xyz";
   "iseeg"; "stim2event"; "updateSummaryStatistics"; "plot_erp"; "plot_summary_statistics";
   "idOutliers"; "plt"; "Yevt"; "Cxx"; "Cxy"; "Cyy"; "score"; "res"; "Fy"; "clsfr"; "cvres";
   "Fe"; "rawFy"; "Py"; "Yerr"; "Perr"].

(** Reading a name that is neither local, nor defined or imported by the
    module (and is no builtin). *)
Definition load_name (locals : list string) (name : string) : result unit :=
  if bool_decide (name ∈ locals ++ module_functions ++ module_globals)
  then Ok tt else Raise NameError.

Section DebugTestDataset.
Context (XY PArgs R : Type).
Local Abbreviation coords_t := (option (list (gmap string pyval))) (only parsing).
(** [preprocess(X, Y, coords, **preprocess_args)]; lines 381-395, the
    channel names and positions read off [coords] and the imports of lines
    393-395, either of which may raise; and the lines after 397, which plot,
    call [analyse_dataset] and return. *)
Context (preprocess_xy : XY -> coords_t -> PArgs -> result (XY * coords_t))
        (channel_info : coords_t -> result unit)
        (rest : XY -> coords_t -> resolved -> Z * Z -> result R).

(** Lines 367-397, once the arguments are resolved. *)
Definition debug_plots (xy : XY) (coords : coords_t) (fs : pyval)
    (preprocess_args : option PArgs) (args : resolved) : result R :=
  window <- debug_window fs (r_tau_ms args) (r_offset_ms args);;
  _ <- match coords with
       | Some cs =>
           for_each (fun c : gmap string pyval =>
                       match c !! "name" with Some v => Ok v | None => Raise KeyError end) cs
       | None => Ok []
       end;;
  pre <- match preprocess_args with
         | Some pa => preprocess_xy xy coords pa
         | None => Ok (xy, coords)
         end;;
  let '(xy, coords) := pre in
  _ <- channel_info coords;;
  (* plot_trial(X_TSd[0:1,...],Y_TSy[0:1,...],fs=fs,ch_names=ch_names) *)
  _ <- load_name debug_test_dataset_locals "plot_trial";;
  _ <- load_name debug_test_dataset_locals "X_TSd";;
  _ <- load_name debug_test_dataset_locals "Y_TSy";;
  rest xy coords args window.

(** One call.  [shared] is the dict object of the default of [clsfr_args]
    as earlier calls left it; the result carries that object as this call
    leaves it. *)
Definition debug_test_dataset (shared : gmap string argval)
    (xy : XY) (coords : coords_t)
    (tau_ms offset_ms evtlabs rank : argval) (fs : pyval)
    (preprocess_args : option PArgs) (clsfr_args : dict_arg)
  : gmap string argval * result R :=
  match coords_fs coords fs with
  | Raise e => (shared, Raise e)
  | Ok fs =>
      let args := resolve_args match clsfr_args with
                               | DictDefault => Some shared
                               | DictNone => None
                               | DictGiven d => Some d
                               end
                               tau_ms offset_ms evtlabs rank (AVal fs) in
      (match clsfr_args with DictDefault => r_clsfr_args args | _ => shared end,
       debug_plots xy coords fs preprocess_args args)
  end.
End DebugTestDataset.

(** The defaults of the signature of [debug_test_dataset] for a call on
    data without [coords], sampled at 100 Hz. *)
Definition toy_debug (shared : gmap string argval) (tau_ms : argval)
  : gmap string argval * result unit :=
  debug_test_dataset unit unit unit
    (fun xy coords _ => Ok (xy, coords)) (fun _ => Ok tt) (fun _ _ _ _ => Ok tt)
    shared tt None tau_ms (AVal (VNum (PInt 0))) (AVal VNone) (AVal (VNum (PInt 1)))
    (VNum (PInt 100))
    None DictDefault.

(** An index argument that names its positions in trial order: any slice,
    and a list of indices whose positions increase strictly. *)
Definition in_trial_order (n : nat) (idx : index_arg) : Prop :=
  forall ks, positions n idx = Ok ks -> increasing ks.

(** ** [debug_test_single_dataset], lines 702-718 *)

Section DebugTestSingleDataset.
Context (XY PArgs R LArgs : Type).
Local Abbreviation coords_t := (option (list (gmap string pyval))) (only parsing).
(** [l, fs] are what [get_dataset] returns: the loader, called as
    [l(fs[0], **loader_args)], and the file names; [re_search pattern f] is
    [re.search(filename, f)] as a truth value.  The other three are the
    collaborators of [debug_test_dataset]. *)
Context (l : string -> LArgs -> result (XY * coords_t))
        (re_search : string -> string -> result bool)
        (preprocess_xy : XY -> coords_t -> PArgs -> result (XY * coords_t))
        (channel_info : coords_t -> result unit)
        (rest : XY -> coords_t -> resolved -> Z * Z -> result R).

(** [[f for f in fs if re.search(filename, f)]] *)
Fixpoint matching (filename : string) (fs : list string) : result (list string) :=
  match fs with
  | [] => Ok []
  | f :: fs' =>
      b <- re_search filename f;;
      rest <- matching filename fs';;
      Ok (if b : bool then f :: rest else rest)
  end.

(** The call; the result carries the files loaded and the shared default
    dict of [debug_test_dataset] as the call leaves it. *)
Definition debug_test_single_dataset (shared : gmap string argval)
    (fs : list string) (filename : option string) (loader_args : LArgs)
    (tau_ms offset_ms evtlabs rank : argval) (fs_arg : pyval)
    (preprocess_args : option PArgs) (clsfr_args : dict_arg)
  : list string * gmap string argval * result R :=
  match (match filename with
         | Some pattern => matching pattern fs
         | None => Ok fs
         end) with
  | Raise e => ([], shared, Raise e)
  | Ok fs =>
      match py_item fs 0 with
      | Raise e => ([], shared, Raise e)
      | Ok f =>
          match l f loader_args with
          | Raise e => ([f], shared, Raise e)
          | Ok (xy, coords) =>
              let '(shared, r) :=
                debug_test_dataset XY PArgs R preprocess_xy channel_info rest
                  shared xy coords tau_ms offset_ms evtlabs rank fs_arg
                  preprocess_args clsfr_args in
              ([f], shared, r)
          end
      end
  end.
End DebugTestSingleDataset.

(** ** The panel grid of [plot_trial_summary], lines 570-579 and 656 *)

(** [w = int(np.ceil(np.sqrt(nTrl)*1.8))], the arithmetic idealised as exact:
    the least integer [w] with [w >= 1.8 * sqrt(nTrl)], that is with
    [(5*w)^2 >= 81*nTrl]. *)
Definition grid_cols (nTrl : Z) : Z := (Z.sqrt_up (81 * nTrl) + 4) `div` 5.

(** [h = int(np.ceil(nTrl/w))] for [nTrl >= 0] and [w >= 0]; both are Python
    integers, so that a zero [w] raises. *)
Definition grid_rows (nTrl w : Z) : result Z :=
  if w =? 0 then Raise ZeroDivisionError else Ok ((nTrl + w - 1) `div` w).

(** The inner loop over [wi] for row [hi], from trial [ti] on: the panels
    drawn, as [(ti, hi, wi)], and [ti] after the row; [break] leaves the row
    when the trials are used up. *)
Fixpoint panel_row (nTrl hi : Z) (wis : list Z) (ti : Z) : list (Z * Z * Z) * Z :=
  match wis with
  | [] => ([], ti)
  | wi :: wis' =>
      if nTrl <=? ti then ([], ti)
      else let '(panels, ti') := panel_row nTrl hi wis' (ti + 1) in
           ((ti, hi, wi) :: panels, ti')
  end.

(** The outer loop over [hi]. *)
Fixpoint panel_rows (nTrl : Z) (his wis : list Z) (ti : Z) : list (Z * Z * Z) :=
  match his with
  | [] => []
  | hi :: his' =>
      let '(panels, ti') := panel_row nTrl hi wis ti in
      panels ++ panel_rows nTrl his' wis ti'
  end.

(** The panels [plot_trial_summary] draws for [nTrl] trials. *)
Definition trial_panels (nTrl : Z) : result (list (Z * Z * Z)) :=
  let w := grid_cols nTrl in
  h <- grid_rows nTrl w;;
  his <- py_range 0 h 1;;
  wis <- py_range 0 w 1;;
  Ok (panel_rows nTrl his wis 0).
(** * Properties *)

(** ** Growing-window folds *)

Example growing_folds_7_3 :
  growing_folds 3 7 = Ok [([0;1;2], [3;4;5;6]); ([0;1;2;3;4;5], [6])].
Proof. vm_compute. reflexivity. Qed.

Example growing_folds_step_ge_n : growing_folds 5 5 = Ok [].
Proof. vm_compute. reflexivity. Qed.

Lemma py_range_pos (a b step : Z) :
  0 < step ->
  py_range a b step = Ok ((fun i => a + i * step) <$> seqZ 0 ((b - a + step - 1) `div` step)).
Proof.
  intros Hs. unfold py_range.
  destruct (Z.eqb_spec step 0) as [->|_]; [lia|].
  destruct (Z.ltb_spec 0 step); [reflexivity | lia].
Qed.

Lemma arange_split (n : nat) (t : Z) :
  0 <= t <= Z.of_nat n ->
  arange n = seqZ 0 t ++ seqZ t (Z.of_nat n - t).
Proof.
  intros Ht. unfold arange.
  replace (Z.of_nat n) with (t + (Z.of_nat n - t)) at 1 by lia.
  rewrite seqZ_app by lia. reflexivity.
Qed.

Lemma apply_slice_prefix (n : nat) (t : Z) :
  0 <= t <= Z.of_nat n ->
  apply_slice (arange n) (Slice None (Some t)) = seqZ 0 t.
Proof.
  intros Ht. unfold apply_slice, slice_bounds, clip_bound; simpl.
  destruct (Z.ltb_spec t 0); [lia|].
  assert (Hlen : length (arange n) = n) by (unfold arange; rewrite length_seqZ; lia).
  rewrite Hlen, Z.min_l, Z.sub_0_r, drop_0 by lia.
  rewrite (arange_split n t Ht).
  apply take_app_length'. rewrite length_seqZ. reflexivity.
Qed.

Lemma apply_slice_suffix (n : nat) (t : Z) :
  0 <= t <= Z.of_nat n ->
  apply_slice (arange n) (Slice (Some t) None) = seqZ t (Z.of_nat n - t).
Proof.
  intros Ht. unfold apply_slice, slice_bounds, clip_bound; simpl.
  destruct (Z.ltb_spec t 0); [lia|].
  assert (Hlen : length (arange n) = n) by (unfold arange; rewrite length_seqZ; lia).
  rewrite Hlen, Z.min_l by lia.
  rewrite (arange_split n t Ht).
  rewrite drop_app_length' by (rewrite length_seqZ; reflexivity).
  apply take_ge. rewrite length_seqZ. lia.
Qed.

Lemma for_each_fmap_ok {A B C} (f : B -> result C) (g : A -> B) (h : A -> C) (l : list A) :
  (forall x, x ∈ l -> f (g x) = Ok (h x)) ->
  for_each f (g <$> l) = Ok (h <$> l).
Proof.
  induction l as [|x l IH]; intros Hl; [reflexivity|].
  rewrite !fmap_cons. cbn [for_each].
  rewrite Hl by left. cbn [rbind].
  rewrite IH by (intros y Hy; apply Hl; right; exact Hy).
  reflexivity.
Qed.

(** The folds in terms of the offset [tsti = step + i*step] that the loop
    variable takes. *)
Lemma growing_folds_by_offset (n : nat) (step : Z) :
  0 < step ->
  growing_folds step n =
  Ok ((fun i => (seqZ 0 (step + i * step),
                 seqZ (step + i * step) (Z.of_nat n - (step + i * step))))
        <$> seqZ 0 ((Z.of_nat n - 1) `div` step)).
Proof.
  intros Hs. unfold growing_folds, growing_splits.
  rewrite py_range_pos by lia. simpl.
  replace (Z.of_nat n - step + step - 1) with (Z.of_nat n - 1) by lia.
  set (K := (Z.of_nat n - 1) `div` step).
  rewrite <- list_fmap_compose.
  apply for_each_fmap_ok.
  intros i Hi. apply elem_of_seqZ in Hi. simpl.
  assert (HK : K * step <= Z.of_nat n - 1).
  { unfold K. rewrite Z.mul_comm. apply Z.mul_div_le. lia. }
  assert (Hb : 0 <= step + i * step <= Z.of_nat n) by nia.
  rewrite apply_slice_prefix, apply_slice_suffix by exact Hb.
  reflexivity.
Qed.

(** C2. For every [nTrials] and every integer [step] with
    [0 < step < nTrials], the growing-window generation returns exactly the
    folds numbered [k = 1, 2, ...] while [k*step < nTrials]; fold [k] trains
    on the trials [0 .. k*step - 1] and tests on [k*step .. nTrials - 1]; in
    each fold train and test indices are disjoint, and the train sizes
    strictly increase along the list of folds. *)
Theorem growing_folds_spec (nTrials : nat) (step : Z) :
  0 < step < Z.of_nat nTrials ->
  let K := (Z.of_nat nTrials - 1) `div` step in
  exists folds,
    growing_folds step nTrials = Ok folds /\
    folds = (fun k => (seqZ 0 (k * step), seqZ (k * step) (Z.of_nat nTrials - k * step)))
              <$> seqZ 1 K /\
    (forall k, 1 <= k -> (k <= K <-> k * step < Z.of_nat nTrials)) /\
    (forall trn tst, (trn, tst) ∈ folds -> forall i, i ∈ trn -> i ∉ tst) /\
    (forall i j f g, (i < j)%nat -> folds !! i = Some f -> folds !! j = Some g ->
                     (length (fst f) < length (fst g))%nat).
Proof.
  intros Hs K.
  assert (Heq :
    (fun i => (seqZ 0 (step + i * step),
               seqZ (step + i * step) (Z.of_nat nTrials - (step + i * step))))
      <$> seqZ 0 K
    = (fun k => (seqZ 0 (k * step), seqZ (k * step) (Z.of_nat nTrials - k * step)))
      <$> seqZ 1 K).
  { replace (seqZ 1 K) with (Z.add 1 <$> seqZ 0 K) by (rewrite fmap_add_seqZ; reflexivity).
    rewrite <- list_fmap_compose. apply list_fmap_ext.
    intros _ i _. simpl. replace ((1 + i) * step) with (step + i * step) by lia.
    reflexivity. }
  eexists. split.
  { rewrite growing_folds_by_offset by lia. fold K. rewrite Heq. reflexivity. }
  split; [reflexivity|].
  assert (HK : forall k, k <= K <-> k * step < Z.of_nat nTrials).
  { intros k. unfold K. split; intros Hk.
    - assert (K * step <= Z.of_nat nTrials - 1)
        by (unfold K; rewrite Z.mul_comm; apply Z.mul_div_le; lia).
      unfold K in *. nia.
    - apply Z.div_le_lower_bound; lia. }
  split; [intros k _; apply HK|].
  split.
  - intros trn tst Hin i Hi Hi'.
    apply list_elem_of_fmap in Hin as (k & Hk & _).
    inversion Hk; subst trn tst.
    apply elem_of_seqZ in Hi, Hi'. lia.
  - intros i j f g Hij Hf Hg.
    rewrite list_lookup_fmap in Hf, Hg.
    destruct (seqZ 1 K !! i) as [ki|] eqn:Hi; [|discriminate].
    destruct (seqZ 1 K !! j) as [kj|] eqn:Hj; [|discriminate].
    apply lookup_seqZ in Hi as [-> Hi], Hj as [-> Hj].
    simpl in Hf, Hg. inversion Hf; inversion Hg; subst f g; simpl.
    rewrite !length_seqZ. nia.
Qed.

Lemma growing_folds_spec_witness :
  exists folds, growing_folds 3 7 = Ok folds /\ length folds = 2%nat.
Proof.
  destruct (growing_folds_spec 7 3 ltac:(lia)) as (folds & Hf & Hfolds & _).
  exists folds. split; [exact Hf|].
  rewrite Hfolds. reflexivity.
Defined.

(** ** Reasoning about traced computations *)

Lemma tbind_inv {E A B} (m : traced E A) (k : A -> traced E B) log r :
  tbind m k = (log, r) ->
  (exists e, m = (log, Raise e) /\ r = Raise e) \/
  (exists l1 a l2, m = (l1, Ok a) /\ k a = (l2, r) /\ log = l1 ++ l2).
Proof.
  destruct m as [l1 [a|e]]; simpl.
  - destruct (k a) as [l2 r'] eqn:Hk. intros [= <- <-]. right. eauto 6.
  - intros [= <- <-]. left. eauto.
Qed.

Lemma tbind_ok_inv {E A B} (m : traced E A) (k : A -> traced E B) log b :
  tbind m k = (log, Ok b) ->
  exists l1 a l2, m = (l1, Ok a) /\ k a = (l2, Ok b) /\ log = l1 ++ l2.
Proof.
  intros H. apply tbind_inv in H as [(e & _ & He)|H]; [discriminate | exact H].
Qed.

Lemma lift_inv {E A} (r : result A) (l : list E) r' :
  lift r = (l, r') -> l = [] /\ r' = r.
Proof. unfold lift. intros [= <- <-]. auto. Qed.

Lemma call_inv {E A} (ev : E) (r : result A) (l : list E) r' :
  call ev r = (l, r') -> l = [ev] /\ r' = r.
Proof. unfold call. intros [= <- <-]. auto. Qed.

Lemma rbind_ok_inv {A B} (r : result A) (k : A -> result B) b :
  rbind r k = Ok b -> exists a, r = Ok a /\ k a = Ok b.
Proof. destruct r as [a|e]; simpl; [eauto | discriminate]. Qed.

(** ** Model selection, lines 83-104 *)

Lemma rbind_raise_inv {A B} (r : result A) (k : A -> result B) e :
  rbind r k = Raise e -> r = Raise e \/ exists a, r = Ok a /\ k a = Raise e.
Proof. destruct r as [a|e']; simpl; [eauto | intros [= ->]; auto]. Qed.

Lemma for_each_raise_inv {A B} (f : A -> result B) (l : list A) e :
  for_each f l = Raise e -> exists x, x ∈ l /\ f x = Raise e.
Proof.
  induction l as [|x l IH]; simpl; [discriminate|].
  intros H. apply rbind_raise_inv in H as [H|(y & Hy & H)].
  - exists x. split; [left | exact H].
  - apply rbind_raise_inv in H as [H|(ys & _ & H)]; [|discriminate].
    destruct (IH H) as (z & Hz & Hfz). exists z. split; [right; exact Hz | exact Hfz].
Qed.

Lemma tbind_lift_ok {E A B} (a : A) (k : A -> traced E B) :
  tbind (lift (Ok a)) k = k a.
Proof. unfold lift; simpl. destruct (k a). reflexivity. Qed.

Lemma isinstance_sklearn_raises : isinstance_sklearn = Raise NameError.
Proof. reflexivity. Qed.

Lemma make_clsfr_unlisted E (s : string) tau offset (o : options E) C :
  s ∉ ["cca"; "bwd"; "fwd"; "ridge"; "lr"; "svr"; "svc"] ->
  make_clsfr E (ModelStr s) tau offset o C = Raise NameError.
Proof.
  intros Hs. unfold make_clsfr.
  repeat match goal with
  | |- context [String.eqb s ?t] =>
      destruct (String.eqb_spec s t) as [->|_];
      [exfalso; apply Hs; repeat (first [left; fail | right]); left |]
  end.
  reflexivity.
Qed.

(** The tokens the dispatch of lines 83-98 serves, and a pre-built
    instance. *)
Lemma make_clsfr_tokens E tau offset (o : options E) C :
  let linear clsfr labelizeY :=
    LinearSklearn E tau offset (evtlabs o) clsfr labelizeY (kwargs o) in
  make_clsfr E (ModelStr "cca") tau offset o C
    = MultiCCA E tau offset (rank o) (evtlabs o) (center o) (kwargs o) /\
  make_clsfr E ModelNone tau offset o C
    = MultiCCA E tau offset (rank o) (evtlabs o) (center o) (kwargs o) /\
  make_clsfr E (ModelStr "bwd") tau offset o C
    = BwdLinearRegression E tau offset (evtlabs o) (center o) (kwargs o) /\
  make_clsfr E (ModelStr "fwd") tau offset o C
    = FwdLinearRegression E tau offset (evtlabs o) (center o) (kwargs o) /\
  make_clsfr E (ModelStr "ridge") tau offset o C
    = linear (Some (Ridge 0 (center o))) None /\
  make_clsfr E (ModelStr "lr") tau offset o C
    = linear (Some (LogisticRegression C (center o))) (Some true) /\
  make_clsfr E (ModelStr "svr") tau offset o C = linear (Some (LinearSVR C)) None /\
  make_clsfr E (ModelStr "svc") tau offset o C = linear (Some (LinearSVC C)) (Some true) /\
  (forall c, make_clsfr E (ModelInstance c) tau offset o C = Ok c).
Proof. cbv zeta. repeat split. Qed.

(** C3: the code misses what it attempts.  Lines 101-104 mean to build a
    LinearSklearn object for the token linearsklearn and to raise
    NotImplementedError (as the docstring says) for a token it does not
    know, but the test of line 99 before them reads the name [sklearn], which
    no import binds: for every token other than cca, bwd, fwd, ridge, lr,
    svr and svc the call stops there with a NameError, before any
    collaborator is called. *)
Theorem unlisted_token_raises_NameError E X Y coords (o : options E) s tau offset :
  model o = ModelStr s ->
  s ∉ ["cca"; "bwd"; "fwd"; "ridge"; "lr"; "svr"; "svc"] ->
  window_samples coords o = Ok (tau, offset) ->
  analyse_dataset E X Y coords o = ([], Raise NameError).
Proof.
  intros Hm Hs Hw. unfold analyse_dataset. rewrite Hw, tbind_lift_ok.
  unfold analyse_window. rewrite Hm, (make_clsfr_unlisted E s tau offset o _ Hs).
  reflexivity.
Qed.

Lemma unlisted_token_raises_NameError_witness :
  analyse_dataset toy toy_X toy_Y None (with_model (ModelStr "linearsklearn") toy_options)
  = ([], Raise NameError) /\
  analyse_dataset toy toy_X toy_Y None (with_model (ModelStr "nosuchmodel") toy_options)
  = ([], Raise NameError).
Proof.
  split.
  - apply (unlisted_token_raises_NameError toy toy_X toy_Y None
             (with_model (ModelStr "linearsklearn") toy_options) "linearsklearn" 30 0).
    + reflexivity.
    + rewrite !elem_of_cons, elem_of_nil. intros Hin.
      repeat destruct Hin as [Hin|Hin]; try discriminate Hin. exact Hin.
    + reflexivity.
  - apply (unlisted_token_raises_NameError toy toy_X toy_Y None
             (with_model (ModelStr "nosuchmodel") toy_options) "nosuchmodel" 30 0).
    + reflexivity.
    + rewrite !elem_of_cons, elem_of_nil. intros Hin.
      repeat destruct Hin as [Hin|Hin]; try discriminate Hin. exact Hin.
    + reflexivity.
Defined.

(** ** Sample rate and window, lines 70-76 *)

Lemma analyse_dataset_window E X Y coords (o : options E) tau offset :
  window_samples coords o = Ok (tau, offset) ->
  analyse_dataset E X Y coords o = analyse_window E X Y o tau offset.
Proof.
  intros Hw. unfold analyse_dataset. rewrite Hw, tbind_lift_ok. reflexivity.
Qed.

(** The arithmetic of lines 75-76 on two values: 300 ms at 100 Hz are 30
    samples; 0.29 ms at 100000 Hz are 28 samples, the product of the doubles
    being just below 29000. *)
Example int_per_1000_ints : int_per_1000 (PInt 300) (PInt 100) = Ok 30.
Proof. reflexivity. Qed.

Example int_per_1000_rounds :
  int_per_1000 (PFloat (f64_ratio 29 100)) (PInt 100000) = Ok 28.
Proof. reflexivity. Qed.

(** C4, as the code has it.  With [coords] None and no sample rate given the
    call fails, before any collaborator is called, with the TypeError of the
    arithmetic on the missing rate.  With a rate [f], given as [fs] when
    [coords] is None, or found at [coords[1]['fs']] (which overrides [fs])
    when [coords] is given and each of its dicts has the 'name' that line 72
    prints, the analysis runs with [tau = int(tau_ms*f/1000)] and
    [offset = int(offset_ms*f/1000)], in the arithmetic of Python, whenever
    the two conversions succeed. *)
Theorem sample_rate_window E X Y (o : options E) :
  (fs o = VNone -> analyse_dataset E X Y None o = ([], Raise TypeError)) /\
  (forall f tau offset,
     fs o = VNum f ->
     int_per_1000 (tau_ms o) f = Ok tau ->
     int_per_1000 (offset_ms o) f = Ok offset ->
     analyse_dataset E X Y None o = analyse_window E X Y o tau offset) /\
  (forall cs ax f tau offset,
     cs !! 1%nat = Some ax -> ax !! "fs" = Some (VNum f) ->
     (forall c, c ∈ cs -> is_Some (c !! "name")) ->
     int_per_1000 (tau_ms o) f = Ok tau ->
     int_per_1000 (offset_ms o) f = Ok offset ->
     analyse_dataset E X Y (Some cs) o = analyse_window E X Y o tau offset).
Proof.
  split; [|split].
  - intros Hfs. unfold analyse_dataset, window_samples, sample_rate.
    rewrite Hfs. reflexivity.
  - intros f tau offset Hfs Htau Hoff. apply analyse_dataset_window.
    unfold window_samples, sample_rate, ms_to_samples. rewrite Hfs. cbn [rbind as_number].
    rewrite Htau. cbn [rbind]. rewrite Hoff. reflexivity.
  - intros cs ax f tau offset Hax Hf Hnames Htau Hoff. apply analyse_dataset_window.
    unfold window_samples, sample_rate. rewrite Hax. cbn [rbind]. rewrite Hf. cbn [rbind].
    assert (Hn : exists vs, for_each (fun c : gmap string pyval =>
                   match c !! "name" with Some v => Ok v | None => Raise KeyError end) cs
                 = Ok vs).
    { clear Hax. induction cs as [|c cs IH]; [eexists; reflexivity|].
      destruct (Hnames c) as [v Hv]; [left|].
      destruct IH as [vs Hvs]; [intros c' Hc'; apply Hnames; right; exact Hc'|].
      exists (v :: vs). cbn [for_each]. rewrite Hv. cbn [rbind]. rewrite Hvs. reflexivity. }
    destruct Hn as [vs ->]. cbn [rbind]. unfold ms_to_samples. cbn [rbind as_number].
    rewrite Htau. cbn [rbind]. rewrite Hoff. reflexivity.
Qed.

Lemma sample_rate_window_witness :
  analyse_dataset toy toy_X toy_Y None (with_fs VNone toy_options) = ([], Raise TypeError) /\
  analyse_dataset toy toy_X toy_Y None toy_options
  = analyse_window toy toy_X toy_Y toy_options 30 0 /\
  analyse_dataset toy toy_X toy_Y None short_window_options
  = analyse_window toy toy_X toy_Y short_window_options 28 0 /\
  analyse_dataset toy toy_X toy_Y
    (Some [ {[ "name" := VStr "trial" ]};
            {[ "name" := VStr "time"; "fs" := VNum (PInt 250) ]};
            {[ "name" := VStr "channel" ]} ]) toy_options
  = analyse_window toy toy_X toy_Y toy_options 75 0.
Proof.
  split; [|split; [|split]].
  - apply (sample_rate_window toy toy_X toy_Y (with_fs VNone toy_options)). reflexivity.
  - apply (proj1 (proj2 (sample_rate_window toy toy_X toy_Y toy_options)) (PInt 100));
      reflexivity.
  - apply (proj1 (proj2 (sample_rate_window toy toy_X toy_Y short_window_options))
             (PInt 100000)); reflexivity.
  - apply (proj2 (proj2 (sample_rate_window toy toy_X toy_Y toy_options))
             _ {[ "name" := VStr "time"; "fs" := VNum (PInt 250) ]} (PInt 250)).
    + reflexivity.
    + reflexivity.
    + intros c Hc. rewrite !elem_of_cons, elem_of_nil in Hc.
      destruct Hc as [->|[->|[->|[]]]]; eexists; reflexivity.
    + reflexivity.
    + reflexivity.
Defined.

(** C4 as stated fails: without [coords] and without [fs] the call raises
    TypeError, not MissingSampleRateError. *)
Lemma missing_sample_rate_counterexample :
  returned (analyse_dataset toy toy_X toy_Y None (with_fs VNone toy_options))
  = Raise TypeError /\
  ~ raises (returned (analyse_dataset toy toy_X toy_Y None (with_fs VNone toy_options)))
           "MissingSampleRateError".
Proof.
  split; [reflexivity|].
  intros (e & He & Hname).
  change (@Raise (analysis toy) TypeError = Raise e) in He. injection He as <-. discriminate Hname.
Qed.

(** ** Virtual outputs, lines 107-110 *)

Lemma zip_same_ok {A} (f : A -> A -> result A) (g : A -> A -> A) (l1 l2 : list A) :
  length l1 = length l2 ->
  (forall i x y, l1 !! i = Some x -> l2 !! i = Some y -> f x y = Ok (g x y)) ->
  zip_same f l1 l2 = Ok (zip_with g l1 l2).
Proof.
  revert l2. induction l1 as [|x l1 IH]; intros [|y l2] Hlen Hf; try discriminate.
  - reflexivity.
  - cbn [zip_same zip_with].
    rewrite (Hf 0%nat x y) by reflexivity. cbn [rbind].
    rewrite IH; [reflexivity | simpl in Hlen; lia |].
    intros i x' y' Hx Hy. apply (Hf (S i)); assumption.
Qed.

Lemma has_shape_lookup (Y : Ytensor) T S nY t trial :
  has_shape Y T S nY -> Y !! t = Some trial ->
  length trial = S /\ forall s row, trial !! s = Some row -> length row = nY.
Proof.
  intros [_ HY] Ht. rewrite Forall_lookup in HY.
  destruct (HY t trial Ht) as [HS Hrows]. split; [exact HS|].
  intros s row Hrow. rewrite Forall_lookup in Hrows. eapply Hrows; eauto.
Qed.

Lemma concatenate_last_ok (Y Yv : Ytensor) T S nY n :
  has_shape Y T S nY -> has_shape Yv T S n ->
  concatenate_last Y Yv = Ok (zip_with (zip_with app) Y Yv).
Proof.
  intros HY HYv. unfold concatenate_last.
  apply zip_same_ok.
  - destruct HY as [-> _], HYv as [-> _]. reflexivity.
  - intros t trial trialv Ht Htv.
    destruct (has_shape_lookup _ _ _ _ _ _ HY Ht) as [HS _].
    destruct (has_shape_lookup _ _ _ _ _ _ HYv Htv) as [HSv _].
    apply zip_same_ok; [congruence | reflexivity].
Qed.

Lemma concatenate_last_shape (Y Yv : Ytensor) T S nY n :
  has_shape Y T S nY -> has_shape Yv T S n ->
  has_shape (zip_with (zip_with app) Y Yv) T S (nY + n).
Proof.
  intros HY HYv. split.
  - rewrite length_zip_with. destruct HY as [-> _], HYv as [-> _]. lia.
  - rewrite Forall_lookup. intros t trial' Ht.
    apply lookup_zip_with_Some in Ht as (trial & trialv & -> & Ht & Htv).
    destruct (has_shape_lookup _ _ _ _ _ _ HY Ht) as [HS Hrow].
    destruct (has_shape_lookup _ _ _ _ _ _ HYv Htv) as [HSv Hrowv].
    split; [rewrite length_zip_with; lia|].
    rewrite Forall_lookup. intros s row' Hs.
    apply lookup_zip_with_Some in Hs as (row & rowv & -> & Hr & Hrv).
    rewrite length_app, (Hrow _ _ Hr), (Hrowv _ _ Hrv). reflexivity.
Qed.

Lemma concatenate_last_prefix (Y Yv : Ytensor) T S nY n :
  has_shape Y T S nY -> has_shape Yv T S n ->
  (fun trial : list (list Z) => take nY <$> trial) <$> zip_with (zip_with app) Y Yv = Y.
Proof.
  intros HY HYv. apply list_eq. intros t.
  rewrite list_lookup_fmap, lookup_zip_with.
  destruct (Y !! t) as [trial|] eqn:Ht; [|reflexivity].
  destruct (Yv !! t) as [trialv|] eqn:Htv; simpl.
  2:{ apply lookup_ge_None in Htv. apply lookup_lt_Some in Ht.
      destruct HY as [HT _], HYv as [HTv _]. lia. }
  f_equal.
  destruct (has_shape_lookup _ _ _ _ _ _ HY Ht) as [HS Hrow].
  destruct (has_shape_lookup _ _ _ _ _ _ HYv Htv) as [HSv Hrowv].
  apply list_eq. intros s.
  rewrite list_lookup_fmap, lookup_zip_with.
  destruct (trial !! s) as [row|] eqn:Hr; [|reflexivity].
  destruct (trialv !! s) as [rowv|] eqn:Hrv; simpl.
  2:{ apply lookup_ge_None in Hrv. apply lookup_lt_Some in Hr. lia. }
  f_equal. apply take_app_length'. symmetry. eapply Hrow; eauto.
Qed.

(** C5.  For every stimulus tensor [Y] of shape [(T, S, nY)] and every
    [n_virt_out = n >= 0], when [block_permute] returns [n] virtual outputs
    for each sample, the augmentation succeeds and yields a tensor of shape
    [(T, S, nY + n)] whose first [nY] outputs are those of [Y]; with [n = 2]
    and [nY = 1] the shape is [(T, S, 3)] and output 0 is unchanged. *)
Theorem add_virtual_outputs_shape E (Y Yv : Ytensor) (T S nY : nat) (n : Z) :
  has_shape Y T S nY ->
  0 <= n ->
  block_permute E Y n = Ok Yv ->
  has_shape Yv T S (Z.to_nat n) ->
  exists Y',
    add_virtual_outputs E (Some n) Y = Ok Y' /\
    has_shape Y' T S (Z.to_nat (Z.of_nat nY + n)) /\
    (fun trial : list (list Z) => take nY <$> trial) <$> Y' = Y.
Proof.
  intros HY Hn Hperm HYv.
  exists (zip_with (zip_with app) Y Yv). split; [|split].
  - unfold add_virtual_outputs. rewrite Hperm. cbn [rbind].
    eapply concatenate_last_ok; eauto.
  - replace (Z.to_nat (Z.of_nat nY + n)) with (nY + Z.to_nat n)%nat by lia.
    apply concatenate_last_shape; assumption.
  - eapply concatenate_last_prefix; eauto.
Qed.

Lemma add_virtual_outputs_shape_witness :
  exists Y',
    add_virtual_outputs toy (Some 2) toy_Y = Ok Y' /\
    has_shape Y' 3 2 3 /\
    (fun trial : list (list Z) => take 1 <$> trial) <$> Y' = toy_Y.
Proof.
  apply (add_virtual_outputs_shape toy toy_Y
           [[[1; 1]; [0; 0]]; [[0; 0]; [1; 1]]; [[1; 1]; [1; 1]]] 3 2 1 2).
  - split; [reflexivity|]. repeat constructor.
  - lia.
  - reflexivity.
  - split; [reflexivity|]. repeat constructor.
Defined.

(** ** Boolean masks *)

Lemma count_true_cons (b : bool) (mask : list bool) :
  count_true (b :: mask) = (if b then S (count_true mask) else count_true mask).
Proof. unfold count_true. destruct b; reflexivity. Qed.

Lemma length_scatter {A} (mask : list bool) (a v : list A) :
  length (scatter mask a v) = length a.
Proof.
  revert a v. induction mask as [|b mask IH]; intros [|x a] v; try reflexivity.
  cbn [scatter]. destruct b; [destruct v|]; cbn [length]; rewrite IH; reflexivity.
Qed.

Lemma length_select {A} (mask : list bool) (a : list A) :
  length mask = length a -> length (select mask a) = count_true mask.
Proof.
  revert a. induction mask as [|b mask IH]; intros [|x a] Hlen; try discriminate.
  - reflexivity.
  - cbn [select]. rewrite count_true_cons. injection Hlen as Hlen.
    destruct b; cbn [length]; rewrite IH by exact Hlen; reflexivity.
Qed.

(** Reading back what was written at the [True] positions. *)
Lemma select_scatter {A} (mask : list bool) (a v : list A) :
  length mask = length a -> length v = count_true mask ->
  select mask (scatter mask a v) = v.
Proof.
  revert a v. induction mask as [|b mask IH]; intros [|x a] v Hlen Hv; try discriminate.
  - destruct v; [reflexivity | discriminate].
  - rewrite count_true_cons in Hv. injection Hlen as Hlen. cbn [scatter].
    destruct b.
    + destruct v as [|y v]; [discriminate|]. injection Hv as Hv.
      cbn [select]. rewrite IH by assumption. reflexivity.
    + cbn [select]. apply IH; assumption.
Qed.

(** Writing at the [True] positions leaves the other positions alone. *)
Lemma select_scatter_other {A} (mask : list bool) (a v : list A) :
  select (negb <$> mask) (scatter mask a v) = select (negb <$> mask) a.
Proof.
  revert a v. induction mask as [|b mask IH]; intros [|x a] v; try reflexivity.
  rewrite fmap_cons. cbn [scatter].
  destruct b; [destruct v|]; cbn [negb select]; rewrite IH; reflexivity.
Qed.

Lemma broadcast_trials_length {A} (m : nat) (v v' : list A) :
  broadcast_trials m v = Ok v' -> length v' = m.
Proof.
  unfold broadcast_trials. destruct (Nat.eqb_spec (length v) m) as [Hm|_].
  - intros [= <-]. exact Hm.
  - destruct v as [|y [|? ?]]; try discriminate.
    intros [= <-]. apply length_replicate.
Qed.

Lemma mask_assign_ok_inv {A} (a : list A) (mask : list bool) (v a' : list A) :
  mask_assign a mask v = Ok a' ->
  length mask = length a /\
  exists v', broadcast_trials (count_true mask) v = Ok v' /\ a' = scatter mask a v'.
Proof.
  unfold mask_assign. destruct (Nat.eqb_spec (length mask) (length a)) as [Hlen|_];
    [|discriminate]. cbn [negb].
  intros H. apply rbind_ok_inv in H as (v' & Hv' & [= <-]). eauto.
Qed.

Lemma set_true_length (mask mask' : list bool) idx :
  set_true mask idx = Ok mask' -> length mask' = length mask.
Proof.
  unfold set_true. intros H. apply rbind_ok_inv in H as (ks & _ & [= <-]).
  revert mask. induction ks as [|k ks IH]; intros mask; [reflexivity|].
  cbn [foldl]. rewrite IH, length_insert. reflexivity.
Qed.

Lemma mask_select_ok_inv {A} (a : list A) (mask : list bool) (a' : list A) :
  mask_select a mask = Ok a' -> length mask = length a /\ a' = select mask a.
Proof.
  unfold mask_select. destruct (Nat.eqb_spec (length mask) (length a)); [|discriminate].
  intros [= <-]. auto.
Qed.

(** ** Structure of a run of [analyse_dataset] *)

Tactic Notation "tbind_ok" hyp(H) "as" simple_intropattern(a) ident(Hm) :=
  let l1 := fresh "l" in
  let l2 := fresh "l" in
  let Hl := fresh "Hl" in
  apply tbind_ok_inv in H as (l1 & a & l2 & Hm & H & Hl).

Ltac lift_ok Hm :=
  let Hl := fresh "Hl" in
  apply lift_inv in Hm as [Hl Hm]; symmetry in Hm.

Ltac call_ok Hm :=
  let Hl := fresh "Hl" in
  apply call_inv in Hm as [Hl Hm]; symmetry in Hm.

(** A successful fit: what was called, and where [Fy] and [res] come from. *)
Lemma fit_model_ok_inv E clsfr X Y X_train Y_train (o : options E) log clsfr1 Fy res :
  fit_model E clsfr X Y X_train Y_train o = (log, Ok (clsfr1, Fy, res)) ->
  res !! "estimator" = Some Fy /\
  if truthy (cv o) then
    exists c0 lgrid rk,
      cv_fit E c0 X_train Y_train (cv o) rk (retrain_on_all o) = Ok (clsfr1, res) /\
      log = lgrid ++ [CvFit c0 X_train Y_train (cv o) rk (retrain_on_all o)] /\
      match tuned_parameters o with
      | Some grid => exists best,
          GridSearchCV_fit E clsfr grid X_train Y_train = Ok best /\
          set_params E clsfr best = Ok c0 /\
          lgrid = [GridSearchFit clsfr grid X_train Y_train; SetParams clsfr best]
      | None => c0 = clsfr /\ lgrid = []
      end
  else
    fit E clsfr X_train Y_train = Ok clsfr1 /\
    predict E clsfr1 X Y (Some true) = Ok Fy /\
    res = {[ "estimator" := Fy ]} /\
    log = [Fit clsfr X_train Y_train; Predict clsfr1 X Y (Some true)].
Proof.
  unfold fit_model. destruct (truthy (cv o)); intros H.
  - tbind_ok H as c0 Hgrid. tbind_ok H as [c1 res1] Hcv.
    call_ok Hcv. tbind_ok H as Fy1 Hest. lift_ok Hest. lift_ok H.
    injection H as -> -> ->.
    destruct (res !! "estimator") as [t|] eqn:Hlook; [|discriminate].
    injection Hest as ->. split; [reflexivity|].
    exists c0, l. eexists. split; [exact Hcv|].
    split; [subst; rewrite !app_nil_r; reflexivity|].
    destruct (tuned_parameters o) as [grid|].
    + tbind_ok Hgrid as best Hgs. call_ok Hgs. call_ok Hgrid. exists best. subst. auto.
    + lift_ok Hgrid. injection Hgrid as ->. auto.
  - tbind_ok H as c1 Hfit. call_ok Hfit. tbind_ok H as Fy1 Hpred. call_ok Hpred. lift_ok H.
    injection H as -> -> <-. subst.
    split; [apply lookup_singleton_eq|]. auto.
Qed.

(** A successful splice: the prediction made, and the tensor built. *)
Lemma splice_test_ok_inv E clsfr X Y idx train_ind test_ind rawFy log allFy :
  splice_test E clsfr X Y idx train_ind test_ind rawFy = (log, Ok allFy) ->
  exists X_test Y_test Fy_test v_train v_test,
    take_index X idx = Ok X_test /\
    take_index Y idx = Ok Y_test /\
    predict E clsfr X_test Y_test None = Ok Fy_test /\
    log = [Predict clsfr X_test Y_test None] /\
    length train_ind = length X /\
    length test_ind = length X /\
    broadcast_trials (count_true train_ind) rawFy = Ok v_train /\
    broadcast_trials (count_true test_ind) Fy_test = Ok v_test /\
    allFy = scatter test_ind (scatter train_ind (replicate (length X) (Fy0 E)) v_train) v_test.
Proof.
  unfold splice_test. intros H.
  tbind_ok H as X_test HX. lift_ok HX.
  tbind_ok H as Y_test HY. lift_ok HY.
  tbind_ok H as Fy_test Hp. call_ok Hp.
  tbind_ok H as all1 H1. lift_ok H1. lift_ok H.
  apply mask_assign_ok_inv in H1 as (Hlen1 & v_train & Hb1 & ->).
  apply mask_assign_ok_inv in H as (Hlen2 & v_test & Hb2 & ->).
  rewrite length_replicate in Hlen1.
  rewrite length_scatter, length_replicate in Hlen2.
  exists X_test, Y_test, Fy_test, v_train, v_test. subst.
  repeat split; auto.
Qed.

(** A successful run of the analysis, step by step. *)
Lemma analyse_window_ok_inv E X Y (o : options E) tau offset log a :
  analyse_window E X Y o tau offset = (log, Ok a) ->
  exists clsfr0 Y' X_train Y_train masks lfit clsfr1 Fy res lsp rawFy res' score h dc,
    make_clsfr E (model o) tau offset o (regC E X) = Ok clsfr0 /\
    add_virtual_outputs E (n_virt_out o) Y = Ok Y' /\
    train_test_split E X Y' (test_idx o) = Ok (X_train, Y_train, masks) /\
    fit_model E clsfr0 X Y' X_train Y_train o = (lfit, Ok (clsfr1, Fy, res)) /\
    match test_idx o, masks with
    | Some idx, Some (train_ind, test_ind) =>
        splice_test E clsfr1 X Y' idx train_ind test_ind (default Fy (res !! "rawestimator"))
        = (lsp, Ok rawFy) /\
        res' = <["rawestimator" := rawFy]> res
    | _, _ => lsp = [] /\ rawFy = default Fy (res !! "rawestimator") /\ res' = res
    end /\
    audc_score E clsfr1 rawFy = Ok score /\
    decoding_hyper E clsfr1 = Ok h /\
    decodingCurveSupervised E rawFy h = Ok dc /\
    log = lfit ++ lsp ++ [AudcScore clsfr1 rawFy; DecodingCurve rawFy h] /\
    a = (score, dc, Fy, clsfr1, res').
Proof.
  unfold analyse_window. intros H.
  tbind_ok H as clsfr0 Hc. lift_ok Hc.
  tbind_ok H as Y' HY. lift_ok HY.
  tbind_ok H as [[X_train Y_train] masks] Hs. lift_ok Hs.
  tbind_ok H as [[clsfr1 Fy] res] Hf.
  unfold score_model in H.
  tbind_ok H as [rawFy res'] Hsp.
  tbind_ok H as score Hsc. call_ok Hsc.
  tbind_ok H as h Hh. lift_ok Hh.
  tbind_ok H as dc Hdc. call_ok Hdc. lift_ok H. injection H as <-.
  exists clsfr0, Y', X_train, Y_train, masks, l5, clsfr1, Fy, res, l7, rawFy, res', score, h, dc.
  repeat (split; [assumption|]).
  split.
  - destruct (test_idx o) as [idx|]; [destruct masks as [[train_ind test_ind]|]|].
    + tbind_ok Hsp as allFy Ht. lift_ok Hsp. injection Hsp as <- <-.
      subst. rewrite app_nil_r. auto.
    + lift_ok Hsp. injection Hsp as <- <-. auto.
    + lift_ok Hsp. injection Hsp as <- <-. auto.
  - repeat (split; [assumption|]).
    split; [|reflexivity]. subst. rewrite ?app_nil_l, ?app_nil_r. reflexivity.
Qed.

Lemma analyse_dataset_ok_inv E X Y coords (o : options E) log a :
  analyse_dataset E X Y coords o = (log, Ok a) ->
  exists tau offset,
    window_samples coords o = Ok (tau, offset) /\
    analyse_window E X Y o tau offset = (log, Ok a).
Proof.
  unfold analyse_dataset. intros H.
  tbind_ok H as [tau offset] Hw. lift_ok Hw. subst. eauto.
Qed.

Lemma train_test_split_ok_inv E X Y idx X_train Y_train masks :
  train_test_split E X Y (Some idx) = Ok (X_train, Y_train, masks) ->
  exists test_ind,
    set_true (replicate (length X) false) idx = Ok test_ind /\
    length test_ind = length X /\
    masks = Some (negb <$> test_ind, test_ind) /\
    X_train = select (negb <$> test_ind) X /\
    Y_train = select (negb <$> test_ind) Y.
Proof.
  unfold train_test_split. intros H.
  apply rbind_ok_inv in H as (test_ind & Hset & H).
  apply rbind_ok_inv in H as (Xt & HX & H).
  apply rbind_ok_inv in H as (Yt & HY & H).
  injection H as <- <- <-.
  apply mask_select_ok_inv in HX as [_ ->], HY as [_ ->].
  exists test_ind. repeat split; auto.
  rewrite (set_true_length _ _ _ Hset). apply length_replicate.
Qed.

(** ** What [analyse_dataset] returns *)

Lemma count_true_le (mask : list bool) : (count_true mask <= length mask)%nat.
Proof.
  induction mask as [|b mask IH]; [reflexivity|].
  rewrite count_true_cons. destruct b; cbn [length]; lia.
Qed.

(** C9.  A successful call returns the five components (score, decoding
    curve, Fy, classifier, result dict), and the dict's 'estimator' entry is
    the returned Fy.  When [test_idx] is supplied the dict's 'rawestimator'
    entry covers all trials, while the returned Fy has one block per training
    trial.  The model classes are not part of this file; the statement rests
    on three points of their contract: [cv_fit] and [predict] return one
    score block per trial they are given, and [fit] refuses an empty training
    set. *)
Theorem analyse_dataset_result E X Y coords (o : options E) log a :
  cv_fit_covers_input E -> predict_covers_input E -> fit_needs_trials E ->
  analyse_dataset E X Y coords o = (log, Ok a) ->
  exists score dc Fy clsfr res,
    a = (score, dc, Fy, clsfr, res) /\
    res !! "estimator" = Some Fy /\
    forall idx, test_idx o = Some idx ->
      exists raw test_ind,
        set_true (replicate (length X) false) idx = Ok test_ind /\
        res !! "rawestimator" = Some raw /\
        length raw = length X /\
        length Fy = count_true (negb <$> test_ind).
Proof.
  intros Hcover Hpredict Hfitneeds H.
  apply analyse_dataset_ok_inv in H as (tau & offset & _ & H).
  apply analyse_window_ok_inv in H
    as (clsfr0 & Y' & X_train & Y_train & masks & lfit & clsfr1 & Fy & res & lsp & rawFy
        & res' & score & h & dc & _ & _ & Hsplit & Hfit & Hsp & _ & _ & _ & _ & ->).
  exists score, dc, Fy, clsfr1, res'.
  apply fit_model_ok_inv in Hfit as [Hest Hfit].
  split; [reflexivity|]. split.
  - destruct (test_idx o) as [idx|]; [destruct masks as [[train_ind test_ind]|]|].
    + destruct Hsp as [_ ->]. rewrite lookup_insert_ne by discriminate. exact Hest.
    + destruct Hsp as (_ & _ & ->). exact Hest.
    + destruct Hsp as (_ & _ & ->). exact Hest.
  - intros idx Hidx. rewrite Hidx in Hsplit, Hsp.
    apply train_test_split_ok_inv in Hsplit as (test_ind & Hset & Hlen & -> & -> & ->).
    destruct Hsp as [Hsp ->].
    apply splice_test_ok_inv in Hsp
      as (X_test & Y_test & Fy_test & v_train & v_test & _ & _ & _ & _ & _ & _ & Hbr & _ & ->).
    exists (scatter test_ind
              (scatter (negb <$> test_ind) (replicate (length X) (Fy0 E)) v_train) v_test),
           test_ind.
    split; [exact Hset|].
    split; [apply lookup_insert_eq|].
    split; [rewrite !length_scatter; apply length_replicate|].
    assert (Hsel : length (select (negb <$> test_ind) X) = count_true (negb <$> test_ind)).
    { apply length_select. rewrite length_fmap. exact Hlen. }
    destruct (truthy (cv o)).
    + destruct Hfit as (c0 & lgrid & rk & Hcvfit & _ & _).
      rewrite (Hcover _ _ _ _ _ _ _ _ _ Hcvfit Hest). exact Hsel.
    + destruct Hfit as (Hfitted & Hpred & -> & _).
      rewrite lookup_singleton_ne in Hbr by discriminate. cbn [default] in Hbr.
      pose proof (Hpredict _ _ _ _ _ Hpred) as HFy.
      unfold broadcast_trials in Hbr.
      destruct (Nat.eqb_spec (length Fy) (count_true (negb <$> test_ind))) as [Heq|Hne];
        [exact Heq|].
      destruct Fy as [|y [|? ?]]; try discriminate Hbr. cbn [length] in HFy, Hne.
      pose proof (count_true_le (negb <$> test_ind)) as Hle.
      rewrite length_fmap, Hlen, <- HFy in Hle.
      assert (Hnil : select (negb <$> test_ind) X = []).
      { apply length_zero_iff_nil. lia. }
      rewrite Hnil in Hfitted. pose proof (Hfitneeds clsfr0 (select (negb <$> test_ind) Y')) as Hno.
      rewrite Hfitted in Hno. discriminate Hno.
Qed.

Lemma toy_cv_fit_covers_input : cv_fit_covers_input toy.
Proof.
  intros c X Y cv rk rt c' res t H Ht. cbn in H. injection H as <- <-.
  rewrite lookup_singleton_eq in Ht. injection Ht as <-. apply length_fmap.
Qed.

Lemma toy_predict_covers_input : predict_covers_input toy.
Proof.
  intros c X Y d Fy H. cbn in H. injection H as <-. apply length_fmap.
Qed.

Lemma refusing_empty_fit_needs_trials E : fit_needs_trials (refusing_empty_fit E).
Proof. intros c Y. reflexivity. Qed.

Lemma analyse_dataset_result_witness :
  let c := ToyClsfr "MultiCCA" [30; 0; 1] [0; 1] in
  let res : gmap string (list Z) :=
    <["rawestimator" := [2000; 2001; 1002]]> {[ "estimator" := [2000; 2001] ]} in
  exists raw test_ind,
    set_true (replicate (length toy_X) false) (IdxList [2]) = Ok test_ind /\
    res !! "rawestimator" = Some raw /\
    length raw = length toy_X /\
    length [2000; 2001] = count_true (negb <$> test_ind).
Proof.
  intros c res.
  destruct (analyse_dataset_result (refusing_empty_fit toy) toy_X toy_Y None
              (with_test_idx (Some (IdxList [2]))
                 (with_fs (VNum (PInt 100)) (default_options (refusing_empty_fit toy) tt)))
              [CvFit (E:=refusing_empty_fit toy) (ToyClsfr "MultiCCA" [30; 0; 1] []) [0; 1]
                     [[[1]; [0]]; [[0]; [1]]] (CvBool true) None true;
               Predict (E:=refusing_empty_fit toy) c [2] [[[1]; [1]]] None;
               AudcScore (E:=refusing_empty_fit toy) c [2000; 2001; 1002];
               DecodingCurve (E:=refusing_empty_fit toy) [2000; 2001; 1002] tt]
              (3, [2000; 2001; 1002], [2000; 2001], c, res)
              toy_cv_fit_covers_input toy_predict_covers_input
              (refusing_empty_fit_needs_trials toy) eq_refl)
    as (score & dc & Fy & clsfr & res' & Ha & _ & Htest).
  injection Ha as <- <- <- <- <-.
  exact (Htest (IdxList [2]) eq_refl).
Defined.

(** ** Hyper-parameter search before the cross-validated fit *)

Lemma calls_tbind {E A B} (m : traced E A) (k : A -> traced E B) :
  calls (tbind m k)
  = calls m ++ match returned m with Ok a => calls (k a) | Raise _ => [] end.
Proof.
  destruct m as [l [a|e]]; simpl.
  - destruct (k a). reflexivity.
  - rewrite app_nil_r. reflexivity.
Qed.

Lemma returned_tbind {E A B} (m : traced E A) (k : A -> traced E B) :
  returned (tbind m k)
  = match returned m with Ok a => returned (k a) | Raise e => Raise e end.
Proof. destruct m as [l [a|e]]; simpl; [destruct (k a)|]; reflexivity. Qed.

Lemma Forall_calls_tbind {E A B} (P : E -> Prop) (m : traced E A) (k : A -> traced E B) :
  Forall P (calls m) ->
  (forall a, returned m = Ok a -> Forall P (calls (k a))) ->
  Forall P (calls (tbind m k)).
Proof.
  intros Hm Hk. rewrite calls_tbind. apply Forall_app. split; [exact Hm|].
  destruct (returned m) as [a|e]; [apply Hk; reflexivity | constructor].
Qed.

(** After the fit, no call configures or fits the classifier any more. *)
Lemma score_model_calls E X Y (o : options E) masks fitres :
  Forall (fun ev => is_fit_call ev = false) (calls (score_model E X Y o masks fitres)).
Proof.
  unfold score_model. destruct fitres as [[clsfr Fy] res].
  apply Forall_calls_tbind.
  - destruct (test_idx o) as [idx|]; [destruct masks as [[train_ind test_ind]|]|];
      try (constructor).
    apply Forall_calls_tbind; [|intros; constructor].
    unfold splice_test.
    repeat (apply Forall_calls_tbind; [try constructor | intros]); repeat constructor.
  - intros [rawFy res'] _.
    repeat (apply Forall_calls_tbind; [repeat constructor | intros]); repeat constructor.
Qed.





(** ** The held-out predictions in the raw score tensor *)

(** C1, at inputs where the code departs from it.  Three trials, held-out
    trials given as [[2, 1]], [cv] true: the call succeeds and the tensor
    passed to the scoring function and to the decoding curve holds at
    position 1 the prediction made for trial 2 and at position 2 the
    prediction made for trial 1.  With [cv] false and trial 2 held out, the
    call raises ValueError at line 164. *)
Theorem test_idx_order_misplaces_predictions :
  let c := ToyClsfr "MultiCCA" [30; 0; 1] [0] in
  predict toy c [1] [[[0]; [1]]] None = Ok [1001] /\
  predict toy c [2] [[[1]; [1]]] None = Ok [1002] /\
  calls (analyse_dataset toy toy_X toy_Y None
           (with_test_idx (Some (IdxList [2; 1])) toy_options))
  = [CvFit (E:=toy) (ToyClsfr "MultiCCA" [30; 0; 1] []) [0] [[[1]; [0]]] (CvBool true) None true;
     Predict (E:=toy) c [2; 1] [[[1]; [1]]; [[0]; [1]]] None;
     AudcScore (E:=toy) c [2000; 1002; 1001];
     DecodingCurve (E:=toy) [2000; 1002; 1001] tt] /\
  is_ok (returned (analyse_dataset toy toy_X toy_Y None
                     (with_test_idx (Some (IdxList [2; 1])) toy_options))) = true /\
  returned (analyse_dataset toy toy_X toy_Y None
              (with_cv (CvBool false) (with_test_idx (Some (IdxList [2])) toy_options)))
  = Raise ValueError.
Proof. cbv zeta. repeat (split; [reflexivity|]). reflexivity. Qed.

(** Where the code agrees with C1: in every successful call with a test set,
    the tensor that is scored and passed to the decoding curve covers all
    trials, holds at the training positions the raw scores of the fit and at
    the test positions the prediction [Fy_test], each broadcast to the number
    of positions; [Fy_test] is the prediction of the fitted classifier on
    [X[test_idx]], in the order of [test_idx]. *)
Lemma spliced_tensor_spec E X Y coords (o : options E) log a idx :
  analyse_dataset E X Y coords o = (log, Ok a) ->
  test_idx o = Some idx ->
  exists Y' test_ind X_test Y_test Fy_test raw h calls_before res0,
    set_true (replicate (length X) false) idx = Ok test_ind /\
    take_index X idx = Ok X_test /\
    take_index Y' idx = Ok Y_test /\
    predict E (clsfr_of a) X_test Y_test None = Ok Fy_test /\
    log = calls_before ++ [AudcScore (clsfr_of a) raw; DecodingCurve raw h] /\
    res_of a = <["rawestimator" := raw]> res0 /\
    length raw = length X /\
    broadcast_trials (count_true test_ind) Fy_test = Ok (select test_ind raw) /\
    broadcast_trials (count_true (negb <$> test_ind))
                     (default (Fy_of a) (res0 !! "rawestimator"))
    = Ok (select (negb <$> test_ind) raw).
Proof.
  intros H Hidx. apply analyse_dataset_ok_inv in H as (tau & offset & _ & H).
  apply analyse_window_ok_inv in H
    as (clsfr0 & Y' & X_train & Y_train & masks & lfit & clsfr1 & Fy & res & lsp & rawFy
        & res' & score & h & dc & _ & _ & Hsplit & _ & Hsp & _ & _ & _ & -> & ->).
  rewrite Hidx in Hsplit, Hsp.
  apply train_test_split_ok_inv in Hsplit as (test_ind & Hset & Hlen & -> & _ & _).
  destruct Hsp as [Hsp ->].
  apply splice_test_ok_inv in Hsp
    as (X_test & Y_test & Fy_test & v_train & v_test & HX & HY & Hp & -> & Hl1 & Hl2
        & Hb1 & Hb2 & ->).
  exists Y', test_ind, X_test, Y_test, Fy_test.
  eexists. exists h, (lfit ++ [Predict clsfr1 X_test Y_test None]), res.
  split; [exact Hset|]. split; [exact HX|]. split; [exact HY|]. split; [exact Hp|].
  split; [cbn [clsfr_of fst snd]; apply app_assoc|].
  split; [reflexivity|].
  split; [rewrite !length_scatter; apply length_replicate|].
  cbn [Fy_of fst snd]. split.
  - rewrite select_scatter; [exact Hb2 | |].
    + rewrite length_scatter, length_replicate. exact Hl2.
    + apply (broadcast_trials_length _ _ _ Hb2).
  - rewrite select_scatter_other.
    rewrite select_scatter; [exact Hb1 | |].
    + rewrite length_replicate. exact Hl1.
    + apply (broadcast_trials_length _ _ _ Hb1).
Qed.

(** *** Index arguments that list their positions in increasing order *)

Lemma for_each_app {A B} (f : A -> result B) (l1 l2 : list A) :
  for_each f (l1 ++ l2)
  = (ys1 <- for_each f l1;; ys2 <- for_each f l2;; Ok (ys1 ++ ys2)).
Proof.
  induction l1 as [|x l1 IH]; cbn [app for_each rbind].
  - destruct (for_each f l2); reflexivity.
  - destruct (f x) as [y|e]; [|reflexivity]. cbn [rbind]. rewrite IH.
    destruct (for_each f l1) as [ys1|e]; [|reflexivity]. cbn [rbind].
    destruct (for_each f l2); reflexivity.
Qed.

Lemma select_all_false {A} (mask : list bool) (a : list A) :
  (forall j, mask !! j <> Some true) -> select mask a = [].
Proof.
  revert a. induction mask as [|b mask IH]; intros [|x a] Hf; try reflexivity.
  cbn [select]. destruct b; [exfalso; apply (Hf 0%nat); reflexivity|].
  apply IH. intros j. apply (Hf (S j)).
Qed.

(** Marking a position beyond all marked ones appends its trial. *)
Lemma select_insert_last {A} (mask : list bool) : forall (a : list A) k x,
  length mask = length a ->
  a !! k = Some x ->
  (forall j, (k <= j)%nat -> mask !! j <> Some true) ->
  select (<[k:=true]> mask) a = select mask a ++ [x].
Proof.
  induction mask as [|b mask IH]; intros [|y a] k x Hlen Hk Hf; try discriminate.
  injection Hlen as Hlen. destruct k as [|k].
  - injection Hk as ->.
    change (<[0%nat:=true]> (b :: mask)) with (true :: mask). cbn [select].
    assert (Hrest : select mask a = []).
    { apply select_all_false. intros j. apply (Hf (S j)). lia. }
    destruct b; [exfalso; apply (Hf 0%nat); [lia | reflexivity]|].
    rewrite Hrest. reflexivity.
  - change (<[S k:=true]> (b :: mask)) with (b :: <[k:=true]> mask). cbn [select].
    assert (IH' : select (<[k:=true]> mask) a = select mask a ++ [x]).
    { apply IH; [exact Hlen | exact Hk |]. intros j Hj. apply (Hf (S j)). lia. }
    destruct b; rewrite IH'; reflexivity.
Qed.

Lemma marked_positions (ks : list nat) : forall (mask : list bool) j,
  foldl (fun m k => <[k:=true]> m) mask ks !! j = Some true ->
  mask !! j = Some true \/ j ∈ ks.
Proof.
  induction ks as [|k ks IH]; intros mask j Hj; [left; exact Hj|].
  cbn [foldl] in Hj. apply IH in Hj as [Hj|Hj]; [|right; right; exact Hj].
  destruct (decide (k = j)) as [->|Hne]; [right; left|].
  left. rewrite list_lookup_insert_ne in Hj by exact Hne. exact Hj.
Qed.

Lemma length_marked (ks : list nat) : forall (mask : list bool),
  length (foldl (fun m k => <[k:=true]> m) mask ks) = length mask.
Proof.
  induction ks as [|k ks IH]; intros mask; [reflexivity|].
  cbn [foldl]. rewrite IH, length_insert. reflexivity.
Qed.

(** Selecting by the mask of increasing positions reads the trials at those
    positions, in their order. *)
Lemma select_marked {A} (a : list A) (ks : list nat) :
  increasing ks ->
  Forall (fun k => (k < length a)%nat) ks ->
  for_each (fun k => match a !! k with Some x => Ok x | None => Raise IndexError end) ks
  = Ok (select (foldl (fun m k => <[k:=true]> m) (replicate (length a) false) ks) a).
Proof.
  induction ks as [|k ks IH] using rev_ind; intros Hinc Hlt.
  - cbn [for_each foldl]. rewrite select_all_false; [reflexivity|].
    intros j Hj. apply lookup_replicate in Hj as [Hj _]. discriminate.
  - apply Forall_app in Hlt as [Hlt Hk]. apply Forall_cons in Hk as [Hk _].
    assert (Hinc' : increasing ks).
    { intros i j x y Hij Hi Hj. apply (Hinc i j x y Hij).
      - rewrite lookup_app_l by (eapply lookup_lt_Some; eauto). exact Hi.
      - rewrite lookup_app_l by (eapply lookup_lt_Some; eauto). exact Hj. }
    assert (Hbelow : forall j, j ∈ ks -> (j < k)%nat).
    { intros j Hj. apply list_elem_of_lookup in Hj as [i Hi].
      apply (Hinc i (length ks) j k).
      - eapply lookup_lt_Some; eauto.
      - rewrite lookup_app_l by (eapply lookup_lt_Some; eauto). exact Hi.
      - rewrite lookup_app_r by lia. rewrite Nat.sub_diag. reflexivity. }
    rewrite for_each_app, IH by assumption. cbn [rbind for_each].
    destruct (a !! k) as [x|] eqn:Hx; [|apply lookup_ge_None in Hx; lia].
    cbn [rbind]. rewrite foldl_app. cbn [foldl].
    rewrite (select_insert_last _ a k x); [reflexivity | | exact Hx |].
    + rewrite length_marked. apply length_replicate.
    + intros j Hj Htrue. apply marked_positions in Htrue as [Htrue|Htrue].
      * apply lookup_replicate in Htrue as [Htrue _]. discriminate.
      * apply Hbelow in Htrue. lia.
Qed.

Lemma norm_index_lt (n : nat) (i : Z) (k : nat) :
  norm_index n i = Ok k -> (k < n)%nat.
Proof.
  unfold norm_index.
  destruct (Z.leb_spec 0 i), (Z.ltb_spec i (Z.of_nat n)); cbn [andb];
    try (intros [= <-]; lia);
    destruct (Z.leb_spec (- Z.of_nat n) i), (Z.ltb_spec i 0); cbn [andb];
    try discriminate; intros [= <-]; lia.
Qed.

Lemma for_each_Forall {A B} (f : A -> result B) (Q : B -> Prop) (l : list A) ys :
  (forall x y, f x = Ok y -> Q y) ->
  for_each f l = Ok ys -> Forall Q ys.
Proof.
  intros Hf. revert ys. induction l as [|x l IH]; intros ys H.
  - injection H as <-. constructor.
  - cbn [for_each] in H. apply rbind_ok_inv in H as (y & Hy & H).
    apply rbind_ok_inv in H as (ys' & Hys & [= <-]).
    constructor; [eapply Hf; eauto | apply IH; exact Hys].
Qed.

(** The positions of a slice, one by one. *)
Lemma slice_positions_lookup (n : nat) (s : pyslice) (i k : nat) :
  (Z.to_nat <$> apply_slice (arange n) s) !! i = Some k ->
  (k < n)%nat /\ exists lo : nat, k = (lo + i)%nat.
Proof.
  unfold apply_slice. destruct (slice_bounds (Z.of_nat (length (arange n))) s) as [lo hi].
  rewrite list_lookup_fmap. intros H.
  destruct (take (Z.to_nat (hi - lo)) (drop (Z.to_nat lo) (arange n)) !! i) as [z|] eqn:Hz;
    [|discriminate]. injection H as <-.
  apply lookup_take_Some in Hz as [Hz _]. rewrite lookup_drop in Hz.
  unfold arange in Hz. apply lookup_seqZ in Hz as [-> Hz].
  split; [lia|]. exists (Z.to_nat lo). lia.
Qed.

Lemma positions_lt (n : nat) idx ks :
  positions n idx = Ok ks -> Forall (fun k => (k < n)%nat) ks.
Proof.
  destruct idx as [l|s]; cbn [positions].
  - apply for_each_Forall. intros i k. apply norm_index_lt.
  - intros [= <-]. apply Forall_lookup. intros i k Hk.
    apply (slice_positions_lookup n s i k Hk).
Qed.

Lemma slice_positions_increasing (n : nat) (s : pyslice) ks :
  positions n (IdxSlice s) = Ok ks -> increasing ks.
Proof.
  cbn [positions]. intros [= <-] i j a b Hij Ha Hb.
  unfold apply_slice in Ha, Hb.
  destruct (slice_bounds (Z.of_nat (length (arange n))) s) as [lo hi].
  rewrite list_lookup_fmap in Ha, Hb.
  destruct (take (Z.to_nat (hi - lo)) (drop (Z.to_nat lo) (arange n)) !! i) as [za|] eqn:Hza;
    [|discriminate].
  destruct (take (Z.to_nat (hi - lo)) (drop (Z.to_nat lo) (arange n)) !! j) as [zb|] eqn:Hzb;
    [|discriminate].
  injection Ha as <-. injection Hb as <-.
  apply lookup_take_Some in Hza as [Hza _], Hzb as [Hzb _].
  rewrite lookup_drop in Hza, Hzb. unfold arange in Hza, Hzb.
  apply lookup_seqZ in Hza as [-> Hza], Hzb as [-> Hzb]. lia.
Qed.

(** For a slice, and for a list of indices whose positions increase, the
    trials taken by [X[test_idx]] are the trials at the [True] positions of
    [test_ind], in axis order: the prediction for each held-out trial is
    written at that trial's position. *)
Lemma take_index_increasing {A} (X : list A) idx ks :
  positions (length X) idx = Ok ks ->
  increasing ks ->
  exists test_ind,
    set_true (replicate (length X) false) idx = Ok test_ind /\
    take_index X idx = Ok (select test_ind X).
Proof.
  intros Hpos Hinc.
  exists (foldl (fun m k => <[k:=true]> m) (replicate (length X) false) ks).
  unfold set_true, take_index. rewrite length_replicate, Hpos. cbn [rbind].
  split; [reflexivity|].
  apply select_marked; [exact Hinc | apply (positions_lt _ _ _ Hpos)].
Qed.

Lemma take_index_slice {A} (X : list A) (s : pyslice) :
  exists test_ind,
    set_true (replicate (length X) false) (IdxSlice s) = Ok test_ind /\
    take_index X (IdxSlice s) = Ok (select test_ind X).
Proof.
  apply (take_index_increasing X (IdxSlice s)
           (Z.to_nat <$> apply_slice (arange (length X)) s)); [reflexivity|].
  apply (slice_positions_increasing (length X) s). reflexivity.
Qed.

Example take_index_slice_toy :
  take_index toy_X (IdxSlice (Slice (Some 1) None)) = Ok [1; 2] /\
  set_true [false; false; false] (IdxSlice (Slice (Some 1) None)) = Ok [false; true; true].
Proof. split; reflexivity. Qed.
(** ** [dataset_GridSearchCV] *)

Lemma override1_same_but_loader {P} (ov1 ov2 : overrides P) kv :
  same_but_loader ov1 ov2 -> same_but_loader (override1 ov1 kv) (override1 ov2 kv).
Proof.
  intros (Hc & Hk & Hp & Hm). destruct kv as [k v]. unfold override1, same_but_loader.
  repeat match goal with
  | |- context [String.prefix ?s k] => destruct (String.prefix s k)
  end; cbn; rewrite ?Hc, ?Hk, ?Hp, ?Hm; auto.
Qed.

Lemma override1_loader_key {P} (ov : overrides P) k v :
  is_loader_key k = true -> same_but_loader (override1 ov (k, v)) ov.
Proof.
  unfold is_loader_key, override1, same_but_loader. intros Hk.
  apply andb_true_iff in Hk as [Hc Hl]. apply negb_true_iff in Hc.
  rewrite Hc, Hl. cbn. auto.
Qed.

Lemma same_but_loader_trans {P} (ov1 ov2 ov3 : overrides P) :
  same_but_loader ov1 ov2 -> same_but_loader ov2 ov3 -> same_but_loader ov1 ov3.
Proof. unfold same_but_loader. intuition congruence. Qed.

Lemma same_but_loader_sym {P} (ov1 ov2 : overrides P) :
  same_but_loader ov1 ov2 -> same_but_loader ov2 ov1.
Proof. unfold same_but_loader. intuition congruence. Qed.

(** The items that address the loader change the loader arguments only. *)
Lemma foldl_override_non_loader {P} (cfg : list (string * Val P)) : forall ov1 ov2,
  same_but_loader ov1 ov2 ->
  same_but_loader (foldl override1 ov1 cfg) (foldl override1 ov2 (non_loader_items cfg)).
Proof.
  induction cfg as [|[k v] cfg IH]; intros ov1 ov2 Hsame; [exact Hsame|].
  unfold non_loader_items in *. cbn [foldl].
  destruct (is_loader_key k) eqn:Hk.
  - rewrite filter_cons_False by (cbn; congruence).
    apply IH. eapply same_but_loader_trans; [|exact Hsame].
    apply override1_loader_key, Hk.
  - rewrite filter_cons_True by exact Hk. cbn [foldl].
    apply IH, override1_same_but_loader, Hsame.
Qed.

Section GridSearchProperties.
Context (P : Pipeline).
Context (filename : string)
        (loader_args : gmap string (Val P))
        (model : Val P)
        (clsfr_args preprocess_args kwargs : gmap string (Val P)).

Local Abbreviation ov_of :=
  (apply_config P loader_args model clsfr_args preprocess_args kwargs).
Local Abbreviation step :=
  (grid_step P filename loader_args model clsfr_args preprocess_args kwargs).
Local Abbreviation loop :=
  (grid_loop P filename loader_args model clsfr_args preprocess_args kwargs).
Local Abbreviation tst := (kwargs !! "test_idx").
Local Abbreviation load_ev ci := (Load (P:=P) ci filename loader_args).
Local Abbreviation pre_ev ci cfg d :=
  (Preprocess (P:=P) ci d tst (preprocess_args_f (ov_of cfg))).
Local Abbreviation an_ev ci cfg X :=
  (Analyse (P:=P) ci X (model_f (ov_of cfg)) (clsfr_args_f (ov_of cfg))
           (kwargs_f (ov_of cfg))).
Local Abbreviation pre_of cfg d :=
  (preprocess P d tst (preprocess_args_f (ov_of cfg))).
Local Abbreviation an_of cfg X :=
  (analyse P X (model_f (ov_of cfg)) (clsfr_args_f (ov_of cfg)) (kwargs_f (ov_of cfg))).

(** The outcomes of preprocessing and analysing under one configuration. *)
Lemma analyse_config_spec ci cfg res d :
  let run := analyse_config P filename loader_args kwargs ci cfg (ov_of cfg) res d in
  (exists e, pre_of cfg d = Raise e /\ run = ([pre_ev ci cfg d], Raise e)) \/
  (exists X, pre_of cfg d = Ok X /\
     ((exists e, an_of cfg X = Raise e /\
         run = ([pre_ev ci cfg d; an_ev ci cfg X], Raise e)) \/
      (exists score dc, an_of cfg X = Ok (score, dc) /\
         run = ([pre_ev ci cfg d; an_ev ci cfg X],
                Ok (store P filename loader_args res ci cfg (ov_of cfg) score dc))))).
Proof.
  unfold analyse_config, call. cbv zeta.
  destruct (pre_of cfg d) as [X|e] eqn:Hp.
  - right. exists X. split; [reflexivity|]. cbn [tbind].
    destruct (an_of cfg X) as [[score dc]|e] eqn:Ha.
    + right. exists score, dc. split; reflexivity.
    + left. exists e. split; reflexivity.
  - left. exists e. split; reflexivity.
Qed.

Lemma data_cases ci cfg res d pre (run : traced (grid_event P) (grid_state P)) :
  run = (let '(l, r) :=
           tbind (analyse_config P filename loader_args kwargs ci cfg (ov_of cfg) res d)
                 (fun res' => lift (Ok (res', Some d))) in (pre ++ l, r)) ->
  (exists e, pre_of cfg d = Raise e /\ run = (pre ++ [pre_ev ci cfg d], Raise e)) \/
  (exists X, pre_of cfg d = Ok X /\
     ((exists e, an_of cfg X = Raise e /\
         run = (pre ++ [pre_ev ci cfg d; an_ev ci cfg X], Raise e)) \/
      (exists score dc, an_of cfg X = Ok (score, dc) /\
         run = (pre ++ [pre_ev ci cfg d; an_ev ci cfg X],
                Ok (store P filename loader_args res ci cfg (ov_of cfg) score dc,
                    Some d))))).
Proof.
  intros ->.
  destruct (analyse_config_spec ci cfg res d)
    as [(e & Hp & ->)|(X & Hp & [(e & Ha & ->)|(score & dc & Ha & ->)])].
  - left. exists e. split; [exact Hp | reflexivity].
  - right. exists X. split; [exact Hp|]. left. exists e. split; [exact Ha | reflexivity].
  - right. exists X. split; [exact Hp|]. right. exists score, dc.
    split; [exact Ha | reflexivity].
Qed.

(** The outcomes of one pass of the loop body. *)
Lemma grid_step_spec ci cfg res loaded :
  loaded_ok P filename loader_args loaded ->
  (* the loader raised: the configuration is skipped *)
  (exists e, loader P filename loader_args = Raise e /\
     step ci cfg (res, loaded) = ([load_ev ci], Ok (res, loaded))) \/
  (* nothing was loaded so far and no load is tried *)
  (loaded = None /\ step ci cfg (res, loaded) = ([], Raise UnboundLocalError)) \/
  (* the data [d] is preprocessed, then analysed *)
  (exists d pre,
     loader P filename loader_args = Ok d /\
     (pre = [] \/ pre = [load_ev ci]) /\
     ((exists e, pre_of cfg d = Raise e /\
         step ci cfg (res, loaded) = (pre ++ [pre_ev ci cfg d], Raise e)) \/
      (exists X, pre_of cfg d = Ok X /\
         ((exists e, an_of cfg X = Raise e /\
             step ci cfg (res, loaded)
             = (pre ++ [pre_ev ci cfg d; an_ev ci cfg X], Raise e)) \/
          (exists score dc, an_of cfg X = Ok (score, dc) /\
             step ci cfg (res, loaded)
             = (pre ++ [pre_ev ci cfg d; an_ev ci cfg X],
                Ok (store P filename loader_args res ci cfg (ov_of cfg) score dc,
                    Some d))))))).
Proof.
  intros Hinv. unfold grid_step.
  destruct (reload_wanted P loader_args ci (ov_of cfg)).
  - unfold call, try_except.
    destruct (loader P filename loader_args) as [d|e] eqn:Hload.
    + right. right. exists d, [load_ev ci].
      split; [reflexivity|]. split; [right; reflexivity|].
      apply data_cases. cbn [tbind lift app].
      match goal with
      | |- context [tbind (analyse_config ?a ?b ?c ?k ?i ?f ?o ?r ?x) ?g] =>
          destruct (tbind (analyse_config a b c k i f o r x) g) as [l1 r1]
      end.
      reflexivity.
    + left. exists e. split; reflexivity.
  - rewrite tbind_lift_ok.
    destruct loaded as [d|].
    + right. right. exists d, [].
      split; [apply Hinv; reflexivity|]. split; [left; reflexivity|].
      apply data_cases. rewrite tbind_lift_ok.
      match goal with
      | |- context [tbind (analyse_config ?a ?b ?c ?k ?i ?f ?o ?r ?x) ?g] =>
          destruct (tbind (analyse_config a b c k i f o r x) g) as [l1 r1]
      end.
      reflexivity.
    + right. left. split; reflexivity.
Qed.

Ltac step_cases ci cfg res loaded Hinv :=
  let e0 := fresh "e0" in
  let Hload := fresh "Hload" in
  let Hstep := fresh "Hstep" in
  let Hpre := fresh "Hpre" in
  let Hp := fresh "Hp" in
  let Ha := fresh "Ha" in
  destruct (grid_step_spec ci cfg res loaded Hinv)
    as [(e0 & Hload & Hstep)
       |[(? & Hstep)
        |(? & ? & Hload & Hpre &
          [(e0 & Hp & Hstep)
          |(? & Hp & [(e0 & Ha & Hstep)|(? & ? & Ha & Hstep)])])]];
  rewrite Hstep; [ | | destruct Hpre as [-> | ->] .. ];
  cbn [calls returned fst snd app].

Ltac in_list H :=
  repeat match type of H with
  | _ ∈ _ :: _ => apply elem_of_cons in H as [H|H]
  | _ ∈ [] => apply elem_of_nil in H; destruct H
  end.

(** Every call of a pass is the expected one. *)
Lemma step_events_expected ci cfg res loaded :
  loaded_ok P filename loader_args loaded ->
  Forall (event_expected filename loader_args tst (ov_of cfg) ci)
         (calls (step ci cfg (res, loaded))).
Proof.
  intros Hinv. step_cases ci cfg res loaded Hinv;
    repeat (apply Forall_cons; split); try apply Forall_nil;
    unfold event_expected; cbn [event_config]; eauto 10.
Qed.

(** A failing call of [preprocess] or of the analysis ends the pass with
    its exception. *)
Lemma step_failure_propagates ci cfg res loaded ev e :
  loaded_ok P filename loader_args loaded ->
  ev ∈ calls (step ci cfg (res, loaded)) ->
  is_load ev = false -> event_raised ev e ->
  returned (step ci cfg (res, loaded)) = Raise e /\
  last (calls (step ci cfg (res, loaded))) = Some ev.
Proof.
  intros Hinv. step_cases ci cfg res loaded Hinv; intros Hin Hnl Hev;
    in_list Hin; subst ev; try discriminate Hnl;
    cbn [event_raised] in Hev; try congruence;
    (split; [congruence | reflexivity]).
Qed.

(** A pass raises only what [preprocess] or the analysis raised, or finds
    the data unbound. *)
Lemma step_raise_cause ci cfg res loaded e :
  loaded_ok P filename loader_args loaded ->
  returned (step ci cfg (res, loaded)) = Raise e ->
  e = UnboundLocalError \/
  exists ev, last (calls (step ci cfg (res, loaded))) = Some ev /\
             is_load ev = false /\ event_raised ev e.
Proof.
  intros Hinv. step_cases ci cfg res loaded Hinv; intros Hr;
    try discriminate Hr; injection Hr as <-; auto;
    right; eexists; (split; [reflexivity|]); (split; [reflexivity | assumption]).
Qed.

(** When the loader raises, the pass consists of that call alone, returns
    normally and leaves the state as it was. *)
Lemma step_load_failure ci cfg res loaded ev e :
  loaded_ok P filename loader_args loaded ->
  ev ∈ calls (step ci cfg (res, loaded)) ->
  is_load ev = true -> event_raised ev e ->
  step ci cfg (res, loaded) = ([ev], Ok (res, loaded)).
Proof.
  intros Hinv Hin Hl Hev. revert Hin.
  destruct (grid_step_spec ci cfg res loaded Hinv)
    as [(e0 & Hload & Hstep)
       |[(? & Hstep)
        |(d & pre & Hload & Hpre &
          [(e0 & Hp & Hstep)
          |(? & Hp & [(e0 & Ha & Hstep)|(? & ? & Ha & Hstep)])])]];
    rewrite Hstep; try destruct Hpre as [-> | ->];
    cbn [calls fst app]; intros Hin; in_list Hin; subst ev;
    try discriminate Hl; cbn [event_raised] in Hev; try congruence.
Qed.

Lemma step_keeps_loaded_ok ci cfg res loaded res' loaded' :
  loaded_ok P filename loader_args loaded ->
  returned (step ci cfg (res, loaded)) = Ok (res', loaded') ->
  loaded_ok P filename loader_args loaded'.
Proof.
  intros Hinv. step_cases ci cfg res loaded Hinv; intros Hr;
    try discriminate Hr; injection Hr as <- <-; auto;
    intros d' [= <-]; assumption.
Qed.

Lemma loop_cons ci cfg grid st :
  loop ci (cfg :: grid) st = tbind (step ci cfg st) (fun st' => loop (S ci) grid st').
Proof. reflexivity. Qed.

(** Every call of the loop is the expected one for the configuration it
    is made for. *)
Lemma loop_events_expected grid : forall ci res loaded,
  loaded_ok P filename loader_args loaded ->
  Forall (fun ev =>
            (ci <= event_config ev)%nat /\
            exists cfg, grid !! (event_config ev - ci)%nat = Some cfg /\
              event_expected filename loader_args tst (ov_of cfg) (event_config ev) ev)
         (calls (loop ci grid (res, loaded))).
Proof.
  induction grid as [|cfg grid IH]; intros ci res loaded Hinv; [constructor|].
  rewrite loop_cons, calls_tbind. apply Forall_app. split.
  - eapply Forall_impl; [apply (step_events_expected ci cfg res loaded Hinv)|].
    intros ev [Hci Hev]. split; [lia|]. exists cfg.
    rewrite Hci, Nat.sub_diag. split; [reflexivity|].
    unfold event_expected in *. rewrite Hci. tauto.
  - destruct (returned (step ci cfg (res, loaded))) as [[res' loaded']|e] eqn:Hr;
      [|constructor].
    eapply Forall_impl;
      [apply (IH (S ci) res' loaded'), (step_keeps_loaded_ok _ _ _ _ _ _ Hinv Hr)|].
    intros ev (Hci & cfg' & Hcfg & Hev). split; [lia|]. exists cfg'. split; [|exact Hev].
    replace (event_config ev - ci)%nat with (S (event_config ev - S ci)) by lia.
    exact Hcfg.
Qed.

(** A failing call of [preprocess] or of the analysis ends the whole
    loop with its exception: it is the last call made. *)
Lemma loop_failure_propagates grid : forall ci res loaded ev e,
  loaded_ok P filename loader_args loaded ->
  ev ∈ calls (loop ci grid (res, loaded)) ->
  is_load ev = false -> event_raised ev e ->
  returned (loop ci grid (res, loaded)) = Raise e /\
  last (calls (loop ci grid (res, loaded))) = Some ev.
Proof.
  induction grid as [|cfg grid IH]; intros ci res loaded ev e Hinv Hin Hnl Hev.
  { apply elem_of_nil in Hin. destruct Hin. }
  rewrite loop_cons, calls_tbind, returned_tbind in *.
  apply elem_of_app in Hin as [Hin|Hin].
  - destruct (step_failure_propagates ci cfg res loaded ev e Hinv Hin Hnl Hev) as [Hr Hl].
    rewrite Hr, app_nil_r. auto.
  - destruct (returned (step ci cfg (res, loaded))) as [[res' loaded']|e'] eqn:Hr;
      [|apply elem_of_nil in Hin; destruct Hin].
    destruct (IH (S ci) res' loaded' ev e (step_keeps_loaded_ok _ _ _ _ _ _ Hinv Hr)
                 Hin Hnl Hev) as [Hr' Hl'].
    split; [exact Hr'|]. rewrite last_app, Hl'. reflexivity.
Qed.

(** The loop raises only what [preprocess] or the analysis raised in the
    last call made, or because it found the data unbound. *)
Lemma loop_raise_cause grid : forall ci res loaded e,
  loaded_ok P filename loader_args loaded ->
  returned (loop ci grid (res, loaded)) = Raise e ->
  e = UnboundLocalError \/
  exists ev, last (calls (loop ci grid (res, loaded))) = Some ev /\
             is_load ev = false /\ event_raised ev e.
Proof.
  induction grid as [|cfg grid IH]; intros ci res loaded e Hinv Hr; [discriminate|].
  rewrite loop_cons, calls_tbind, returned_tbind in *.
  destruct (returned (step ci cfg (res, loaded))) as [[res' loaded']|e'] eqn:Hstep.
  - destruct (IH (S ci) res' loaded' e (step_keeps_loaded_ok _ _ _ _ _ _ Hinv Hstep) Hr)
      as [->|(ev & Hl & Hnl & Hev)]; [left; reflexivity|].
    right. exists ev. rewrite last_app, Hl. auto.
  - injection Hr as ->.
    destruct (step_raise_cause ci cfg res loaded e Hinv Hstep)
      as [->|(ev & Hl & Hnl & Hev)]; [left; reflexivity|].
    right. exists ev. rewrite app_nil_r. auto.
Qed.

(** A configuration whose load raised has no other call: it is skipped. *)
Lemma loop_load_failure_skips grid : forall ci res loaded ev e ev',
  loaded_ok P filename loader_args loaded ->
  ev ∈ calls (loop ci grid (res, loaded)) ->
  is_load ev = true -> event_raised ev e ->
  ev' ∈ calls (loop ci grid (res, loaded)) ->
  event_config ev' = event_config ev ->
  ev' = ev.
Proof.
  induction grid as [|cfg grid IH]; intros ci res loaded ev e ev' Hinv Hin Hl Hev Hin' Hcfg.
  { apply elem_of_nil in Hin. destruct Hin. }
  rewrite loop_cons, calls_tbind in *.
  pose proof (step_events_expected ci cfg res loaded Hinv) as Hstep.
  rewrite Forall_forall in Hstep.
  assert (Hrest : forall res' loaded' x,
            returned (step ci cfg (res, loaded)) = Ok (res', loaded') ->
            x ∈ calls (loop (S ci) grid (res', loaded')) -> (S ci <= event_config x)%nat).
  { intros res' loaded' x Hr Hx.
    pose proof (loop_events_expected grid (S ci) res' loaded'
                  (step_keeps_loaded_ok _ _ _ _ _ _ Hinv Hr)) as Hall.
    rewrite Forall_forall in Hall. apply (Hall x Hx). }
  apply elem_of_app in Hin as [Hin|Hin], Hin' as [Hin'|Hin'].
  - rewrite (step_load_failure ci cfg res loaded ev e Hinv Hin Hl Hev) in Hin'.
    cbn [calls fst] in Hin'. apply list_elem_of_singleton in Hin'. exact Hin'.
  - destruct (returned (step ci cfg (res, loaded))) as [[res' loaded']|e'] eqn:Hr;
      [|apply elem_of_nil in Hin'; destruct Hin'].
    pose proof (Hrest _ _ _ eq_refl Hin'). destruct (Hstep ev Hin) as [Hci _]. lia.
  - destruct (returned (step ci cfg (res, loaded))) as [[res' loaded']|e'] eqn:Hr;
      [|apply elem_of_nil in Hin; destruct Hin].
    pose proof (Hrest _ _ _ eq_refl Hin). destruct (Hstep ev' Hin') as [Hci _]. lia.
  - destruct (returned (step ci cfg (res, loaded))) as [[res' loaded']|e'] eqn:Hr;
      [|apply elem_of_nil in Hin; destruct Hin].
    eapply (IH (S ci) res' loaded'); eauto using step_keeps_loaded_ok.
Qed.

Lemma dataset_GridSearchCV_calls res grid :
  calls (dataset_GridSearchCV P filename loader_args model clsfr_args preprocess_args
           kwargs res grid)
  = calls (loop 0%nat grid (res, None)).
Proof.
  unfold dataset_GridSearchCV. rewrite calls_tbind.
  destruct (returned (loop 0%nat grid (res, None))); cbn [calls lift fst];
    apply app_nil_r.
Qed.

Lemma dataset_GridSearchCV_returned res grid :
  returned (dataset_GridSearchCV P filename loader_args model clsfr_args preprocess_args
              kwargs res grid)
  = match returned (loop 0%nat grid (res, None)) with
    | Ok st => Ok (fst st)
    | Raise e => Raise e
    end.
Proof. unfold dataset_GridSearchCV. rewrite returned_tbind. reflexivity. Qed.

Lemma loaded_ok_None : loaded_ok P filename loader_args None.
Proof. intros d. discriminate. Qed.

Lemma apply_config_non_loader cfg cfg' :
  non_loader_items cfg = non_loader_items cfg' ->
  same_but_loader (ov_of cfg) (ov_of cfg').
Proof.
  intros Hnl. unfold apply_config.
  eapply same_but_loader_trans.
  - apply foldl_override_non_loader. repeat split.
  - rewrite Hnl. apply same_but_loader_sym, foldl_override_non_loader. repeat split.
Qed.

(** When the loader raises for a configuration, the loop goes on with the
    next configuration, the state unchanged. *)
Lemma loop_skip ci cfg grid res loaded e :
  loader P filename loader_args = Raise e ->
  reload_wanted P loader_args ci (ov_of cfg) = true ->
  loop ci (cfg :: grid) (res, loaded)
  = (load_ev ci :: calls (loop (S ci) grid (res, loaded)),
     returned (loop (S ci) grid (res, loaded))).
Proof.
  intros Hload Hwanted. rewrite loop_cons. unfold grid_step.
  rewrite Hwanted. unfold call, try_except. rewrite Hload. cbn [tbind lift app].
  destruct (loop (S ci) grid (res, loaded)) as [l r]. reflexivity.
Qed.

(** C7, as the code has it.  A failure of the loader for one configuration
    is caught: the configuration is skipped (no other call is made for it)
    and the loop goes on with the remaining configurations.  A failure
    raised while preprocessing or analysing a configuration is not caught:
    it is the last call made, [dataset_GridSearchCV] raises that exception
    and the remaining configurations are not processed.  The function
    raises in no other way, except for UnboundLocalError when it reaches a
    configuration with nothing loaded. *)
Theorem grid_search_failures res grid :
  let run := dataset_GridSearchCV P filename loader_args model clsfr_args preprocess_args
               kwargs res grid in
  (forall ci cfg grid' res' loaded e,
     loader P filename loader_args = Raise e ->
     reload_wanted P loader_args ci (ov_of cfg) = true ->
     loop ci (cfg :: grid') (res', loaded)
     = (load_ev ci :: calls (loop (S ci) grid' (res', loaded)),
        returned (loop (S ci) grid' (res', loaded)))) /\
  (forall ev e ev',
     ev ∈ calls run -> is_load ev = true -> event_raised ev e ->
     ev' ∈ calls run -> event_config ev' = event_config ev -> ev' = ev) /\
  (forall ev e,
     ev ∈ calls run -> is_load ev = false -> event_raised ev e ->
     returned run = Raise e /\ last (calls run) = Some ev) /\
  (forall e,
     returned run = Raise e ->
     e = UnboundLocalError \/
     exists ev, last (calls run) = Some ev /\ is_load ev = false /\ event_raised ev e).
Proof.
  cbv zeta. rewrite dataset_GridSearchCV_calls, dataset_GridSearchCV_returned.
  split; [intros; eapply loop_skip; eassumption|].
  split; [intros ev e ev' ? ? ? ? ?;
          eapply loop_load_failure_skips; eauto using loaded_ok_None|].
  split.
  - intros ev e Hin Hnl Hev.
    destruct (loop_failure_propagates grid 0%nat res None ev e loaded_ok_None Hin Hnl Hev)
      as [Hr Hl].
    rewrite Hr. auto.
  - intros e Hr.
    destruct (returned (loop 0%nat grid (res, None))) as [st|e'] eqn:Hloop;
      [discriminate|]. injection Hr as ->.
    apply (loop_raise_cause grid 0%nat res None e loaded_ok_None Hloop).
Qed.

(** C10.  Every load is made with the base [loader_args]; whatever the
    configuration, the data passed to [preprocess] is what the loader
    returns for the base arguments, and the data passed to the analysis is
    that data preprocessed under the configuration.  Hence two
    configurations of the grid that differ only in items prefixed
    loader_args hand identical data, and identical arguments, to the
    analysis. *)
Theorem grid_search_loads_with_base_args res grid :
  let run := dataset_GridSearchCV P filename loader_args model clsfr_args preprocess_args
               kwargs res grid in
  (forall ci fn args, Load ci fn args ∈ calls run -> fn = filename /\ args = loader_args) /\
  (forall ci d t a, Preprocess ci d t a ∈ calls run ->
     loader P filename loader_args = Ok d) /\
  (forall ci X m cf kf, Analyse ci X m cf kf ∈ calls run ->
     exists cfg d,
       grid !! ci = Some cfg /\
       loader P filename loader_args = Ok d /\
       pre_of cfg d = Ok X /\
       m = model_f (ov_of cfg) /\ cf = clsfr_args_f (ov_of cfg) /\
       kf = kwargs_f (ov_of cfg)) /\
  (forall ci cj cfg cfg' X X' m m' cf cf' kf kf',
     grid !! ci = Some cfg -> grid !! cj = Some cfg' ->
     non_loader_items cfg = non_loader_items cfg' ->
     Analyse ci X m cf kf ∈ calls run ->
     Analyse cj X' m' cf' kf' ∈ calls run ->
     X = X' /\ m = m' /\ cf = cf' /\ kf = kf').
Proof.
  cbv zeta. rewrite dataset_GridSearchCV_calls.
  pose proof (loop_events_expected grid 0%nat res None loaded_ok_None) as Hall.
  rewrite Forall_forall in Hall.
  assert (Han : forall ci X m cf kf,
    Analyse ci X m cf kf ∈ calls (loop 0%nat grid (res, None)) ->
    exists cfg d,
       grid !! ci = Some cfg /\
       loader P filename loader_args = Ok d /\
       pre_of cfg d = Ok X /\
       m = model_f (ov_of cfg) /\ cf = clsfr_args_f (ov_of cfg) /\
       kf = kwargs_f (ov_of cfg)).
  { intros ci X m cf kf Hin.
    destruct (Hall _ Hin) as (_ & cfg & Hcfg & _ & (d & Hd & Hp) & -> & -> & ->).
    cbn [event_config] in Hcfg. rewrite Nat.sub_0_r in Hcfg.
    exists cfg, d. auto 10. }
  split; [|split; [|split]].
  - intros ci fn args Hin. destruct (Hall _ Hin) as (_ & cfg & _ & _ & Hev). exact Hev.
  - intros ci d t a Hin. destruct (Hall _ Hin) as (_ & cfg & _ & _ & Hev & _). exact Hev.
  - exact Han.
  - intros ci cj cfg cfg' X X' m m' cf cf' kf kf' Hci Hcj Hnl Hin Hin'.
    destruct (Han _ _ _ _ _ Hin) as (c1 & d1 & Hc1 & Hd1 & Hp1 & -> & -> & ->).
    destruct (Han _ _ _ _ _ Hin') as (c2 & d2 & Hc2 & Hd2 & Hp2 & -> & -> & ->).
    assert (c1 = cfg) as -> by congruence.
    assert (c2 = cfg') as -> by congruence.
    assert (d1 = d2) as -> by congruence.
    destruct (apply_config_non_loader cfg cfg' Hnl) as (Hcf & Hkf & Hpf & Hm).
    rewrite Hpf in Hp1. repeat split; congruence.
Qed.
End GridSearchProperties.


Lemma toy_grid_search_bad_first :
  toy_grid_search "a.txt" [[("bad", 1)]; [("bad", 0)]]
  = ([Load (P:=toy_pipeline) 0 "a.txt" {[ "fs_out" := 100 ]};
      Preprocess (P:=toy_pipeline) 0 [100] None ∅;
      Analyse (P:=toy_pipeline) 0 [100; 0] 0 ∅ {[ "bad" := 1 ]}],
     Raise (OtherError "LinAlgError")).
Proof. reflexivity. Qed.

Lemma toy_grid_search_loader_items :
  calls (toy_grid_search "a.txt"
           [[("loader_args_fs_out", 200)]; [("loader_args_fs_out", 300)]])
  = [Load (P:=toy_pipeline) 0 "a.txt" {[ "fs_out" := 100 ]};
     Preprocess (P:=toy_pipeline) 0 [100] None ∅;
     Analyse (P:=toy_pipeline) 0 [100; 0] 0 ∅ ∅;
     Load (P:=toy_pipeline) 1 "a.txt" {[ "fs_out" := 100 ]};
     Preprocess (P:=toy_pipeline) 1 [100] None ∅;
     Analyse (P:=toy_pipeline) 1 [100; 0] 0 ∅ ∅].
Proof. reflexivity. Qed.

Lemma grid_search_failures_witness :
  let run := toy_grid_search "a.txt" [[("bad", 1)]; [("bad", 0)]] in
  returned run = Raise (OtherError "LinAlgError") /\
  last (calls run) = Some (Analyse (P:=toy_pipeline) 0 [100; 0] 0 ∅ {[ "bad" := 1 ]}).
Proof.
  destruct (grid_search_failures toy_pipeline "a.txt" {[ "fs_out" := 100 ]} 0 ∅ ∅ ∅ []
              [[("bad", 1)]; [("bad", 0)]]) as (_ & _ & H & _).
  apply (H (Analyse (P:=toy_pipeline) 0 [100; 0] 0 ∅ {[ "bad" := 1 ]})
           (OtherError "LinAlgError")).
  - fold (toy_grid_search "a.txt" [[("bad", 1)]; [("bad", 0)]]).
    rewrite toy_grid_search_bad_first. cbn [calls fst].
    apply list_elem_of_further, list_elem_of_further, list_elem_of_here.
  - reflexivity.
  - reflexivity.
Defined.

(** C7 as stated fails: the analysis of the first grid configuration raises,
    the exception leaves [dataset_GridSearchCV], and the second
    configuration, which would have succeeded, is never processed. *)
Lemma grid_point_failure_counterexample :
  let run := toy_grid_search "a.txt" [[("bad", 1)]; [("bad", 0)]] in
  returned run = Raise (OtherError "LinAlgError") /\
  Forall (fun ev => event_config ev = 0%nat) (calls run) /\
  is_ok (returned (toy_grid_search "a.txt" [[("bad", 0)]])) = true.
Proof.
  cbv zeta. rewrite toy_grid_search_bad_first. cbn [calls returned fst snd].
  split; [reflexivity|]. split; [|reflexivity].
  repeat constructor.
Qed.

Lemma grid_search_loads_with_base_args_witness :
  let grid := [[("loader_args_fs_out", 200)]; [("loader_args_fs_out", 300)]] in
  Forall (fun ev : grid_event toy_pipeline =>
            match ev with
            | Load _ fn args => fn = "a.txt" /\ args = {[ "fs_out" := 100 ]}
            | _ => True
            end) (calls (toy_grid_search "a.txt" grid)) /\
  ([100; 0] : list Z) = [100; 0].
Proof.
  intros grid.
  destruct (grid_search_loads_with_base_args toy_pipeline "a.txt" {[ "fs_out" := 100 ]}
              0 ∅ ∅ ∅ [] grid) as (Hload & _ & _ & Hsame).
  fold (toy_grid_search "a.txt" grid) in Hload, Hsame.
  split.
  - apply Forall_forall. intros [ci fn args| |] Hin; [|exact I..].
    apply (Hload ci fn args Hin).
  - apply (Hsame 0%nat 1%nat [("loader_args_fs_out", 200)] [("loader_args_fs_out", 300)]
             [100; 0] [100; 0] 0 0 ∅ ∅ ∅ ∅).
    + reflexivity.
    + reflexivity.
    + reflexivity.
    + unfold grid. rewrite toy_grid_search_loader_items.
      do 2 apply list_elem_of_further. apply list_elem_of_here.
    + unfold grid. rewrite toy_grid_search_loader_items.
      do 5 apply list_elem_of_further. apply list_elem_of_here.
Defined.

(** ** Collecting the results of the workers *)

Lemma collect_app {P} (f1 f2 : list (result (list (option (entry P))))) res :
  collect (f1 ++ f2) res = (res' <- collect f1 res;; collect f2 res').
Proof.
  revert res. induction f1 as [|fut f1 IH]; intros res; [reflexivity|].
  cbn [app collect]. destruct fut as [res_fi|e]; [|reflexivity]. cbn [rbind].
  destruct (match res with [] => Ok res_fi | _ :: _ => merge_results res res_fi end)
    as [res1|e]; [|reflexivity]. cbn [rbind].
  destruct (print_hyperparam_summary res1); [|reflexivity]. cbn [rbind]. apply IH.
Qed.

Lemma merge_results_ok {P} (a b : list (entry P)) :
  length a = length b ->
  merge_results (Some <$> a) (Some <$> b) = Ok (Some <$> zip_with cat_entry a b).
Proof.
  revert b. induction a as [|x a IH]; intros [|y b] Hlen; try discriminate; [reflexivity|].
  rewrite !fmap_cons. cbn [merge_results extend_entry rbind zip_with].
  rewrite IH by (simpl in Hlen; lia). reflexivity.
Qed.

Lemma print_hyperparam_summary_ok {P} (a : list (entry P)) :
  a <> [] -> print_hyperparam_summary (Some <$> a) = Ok tt.
Proof.
  destruct a as [|x a]; [congruence|]. intros _.
  rewrite fmap_cons. cbn [print_hyperparam_summary].
  assert (H : forall l : list (entry P),
            exists us, for_each (fun ri : option (entry P) =>
                         match ri with Some _ => Ok tt | None => Raise TypeError end)
                         (Some <$> l) = Ok us).
  { induction l as [|z l [us IH]]; [eexists; reflexivity|].
    exists (tt :: us). rewrite fmap_cons. cbn [for_each rbind]. rewrite IH. reflexivity. }
  destruct (H (x :: a)) as [us Hus]. rewrite fmap_cons in Hus. rewrite Hus. reflexivity.
Qed.

Lemma collect_all_ok {P} (rs : list (list (entry P))) : forall (acc : list (entry P)),
  acc <> [] ->
  Forall (fun r => length r = length acc) rs ->
  collect ((fun r : list (entry P) => Ok (Some <$> r)) <$> rs) (Some <$> acc)
  = Ok (Some <$> foldl (zip_with cat_entry) acc rs).
Proof.
  induction rs as [|r rs IH]; intros acc Hne Hlen; [reflexivity|].
  apply Forall_cons in Hlen as [Hr Hrs].
  rewrite fmap_cons. cbn [collect rbind foldl].
  destruct acc as [|x acc]; [congruence|].
  rewrite fmap_cons. rewrite <- fmap_cons.
  rewrite merge_results_ok by (symmetry; exact Hr). cbn [rbind].
  assert (Hne' : zip_with cat_entry (x :: acc) r <> []).
  { destruct r; [discriminate Hr | discriminate]. }
  rewrite print_hyperparam_summary_ok by exact Hne'. cbn [rbind].
  apply IH; [exact Hne'|].
  eapply Forall_impl; [exact Hrs|]. intros r' Hr'. cbn beta in Hr'.
  rewrite length_zip_with. lia.
Qed.

Lemma length_foldl_cat_entry {P} (rs : list (list (entry P))) : forall acc,
  Forall (fun r => length r = length acc) rs ->
  length (foldl (zip_with cat_entry) acc rs) = length acc.
Proof.
  induction rs as [|r rs IH]; intros acc Hlen; [reflexivity|].
  apply Forall_cons in Hlen as [Hr Hrs]. cbn [foldl].
  assert (Hz : length (zip_with cat_entry acc r) = length acc)
    by (rewrite length_zip_with; lia).
  rewrite IH; [exact Hz|].
  eapply Forall_impl; [exact Hrs|]. intros r' Hr'. cbn beta in Hr'. lia.
Qed.

(** C8, as the code has it.  The results are collected in completion order
    and the per-configuration lists of the workers are merged by
    concatenation.  When a worker's analysis raised, [future.result()]
    raises that exception in the parent, where nothing catches it: once the
    results completed before it are merged, the collection raises the
    worker's exception, whatever the workers after it returned. *)
Theorem collect_results_spec {P : Pipeline} :
  (forall (pre post : list (result (list (option (entry P))))) e res,
     collect pre [] = Ok res ->
     collect_results (pre ++ Raise e :: post) = Raise e) /\
  (forall (r1 : list (entry P)) (rs : list (list (entry P))),
     r1 <> [] ->
     Forall (fun r => length r = length r1) rs ->
     collect_results ((fun r : list (entry P) => Ok (Some <$> r)) <$> (r1 :: rs))
     = Ok (Some <$> foldl (zip_with cat_entry) r1 rs)).
Proof.
  split.
  - intros pre post e res Hpre. unfold collect_results.
    rewrite collect_app, Hpre. reflexivity.
  - intros r1 rs Hne Hlen. unfold collect_results.
    rewrite fmap_cons. cbn [collect rbind].
    rewrite print_hyperparam_summary_ok by exact Hne. cbn [rbind].
    rewrite collect_all_ok by assumption. cbn [rbind].
    rewrite print_hyperparam_summary_ok; [reflexivity|].
    intros Hnil. apply (f_equal length) in Hnil.
    rewrite length_foldl_cat_entry in Hnil by exact Hlen.
    destruct r1; [congruence | discriminate].
Qed.

Lemma collect_results_spec_witness :
  let e1 : entry toy_pipeline := Entry (P:=toy_pipeline) [] {[ "fs_out" := 100 ]} ∅ ["a.txt"] [100] [0] in
  let e2 : entry toy_pipeline := Entry (P:=toy_pipeline) [] {[ "fs_out" := 100 ]} ∅ ["b.txt"] [100] [0] in
  collect_results [Ok [Some e1]; Raise (OtherError "LinAlgError"); Ok [Some e2]]
  = Raise (OtherError "LinAlgError") /\
  collect_results [Ok [Some e1]; Ok [Some e2]]
  = Ok [Some (Entry (P:=toy_pipeline) [] {[ "fs_out" := 100 ]} ∅ ["a.txt"; "b.txt"] [100; 100] [0; 0])].
Proof.
  intros e1 e2. split.
  - apply (proj1 collect_results_spec [Ok [Some e1]] [Ok [Some e2]]
             (OtherError "LinAlgError") [Some e1]).
    reflexivity.
  - apply (proj2 collect_results_spec [e1] [[e2]]).
    + discriminate.
    + repeat constructor.
Defined.

(** C8 as stated fails: the job of the second file to complete raises, and
    the parent raises that exception instead of returning the merged results
    of the first and the third, which without the failing file are merged. *)
Lemma worker_failure_counterexample :
  toy_concurrent ["a.txt"; "corrupt.txt"; "b.txt"] [[]]
  = Raise (OtherError "LinAlgError") /\
  toy_concurrent ["a.txt"; "b.txt"] [[]]
  = Ok [Some (Entry (P:=toy_pipeline) [] {[ "fs_out" := 100 ]} ∅ ["a.txt"; "b.txt"] [100; 100] [0; 0])].
Proof. split; reflexivity. Qed.

(** * Further properties *)

(** ** Growing-window folds outside the range of C2 *)

(** X1.  The fold generation of [analyse_train_test] outside the range
    [0 < step < nTrials]: a step of 0 raises ValueError (from [range]), and a
    negative step or a step of at least the number of trials gives no fold
    at all. *)
Theorem growing_folds_degenerate (n : nat) :
  growing_folds 0 n = Raise ValueError /\
  (forall step, step <> 0 -> step < 0 \/ Z.of_nat n <= step -> growing_folds step n = Ok []).
Proof.
  split; [reflexivity|].
  intros step Hne Hs. unfold growing_folds, growing_splits, py_range.
  destruct (step =? 0) eqn:H0; [apply Z.eqb_eq in H0; lia|].
  destruct (0 <? step) eqn:Hpos.
  - apply Z.ltb_lt in Hpos.
    assert (Hc : (Z.of_nat n - step + step - 1) `div` step <= 0).
    { apply Z.lt_succ_r, Z.div_lt_upper_bound; lia. }
    rewrite (seqZ_nil _ _ Hc). reflexivity.
  - apply Z.ltb_ge in Hpos.
    assert (Hc : (step - Z.of_nat n - step - 1) `div` (- step) <= 0).
    { apply Z.lt_succ_r, Z.div_lt_upper_bound; lia. }
    rewrite (seqZ_nil _ _ Hc). reflexivity.
Qed.

Lemma growing_folds_degenerate_witness :
  growing_folds 7 5 = Ok [] /\ growing_folds (-2) 5 = Ok [].
Proof.
  split.
  - apply (proj2 (growing_folds_degenerate 5) 7); lia.
  - apply (proj2 (growing_folds_degenerate 5) (-2)); lia.
Defined.

(** ** The train/test split *)

Lemma tbind_lift {E A B} (r : result A) (k : A -> traced E B) :
  tbind (lift r) k = match r with Ok a => k a | Raise e => ([], Raise e) end.
Proof. destruct r; [apply tbind_lift_ok | reflexivity]. Qed.

Lemma count_true_negb (m : list bool) :
  (count_true (negb <$> m) + count_true m = length m)%nat.
Proof.
  induction m as [|b m IH]; [reflexivity|].
  rewrite fmap_cons, !count_true_cons. destruct b; cbn [negb length]; lia.
Qed.

Lemma marked_keeps (ks : list nat) : forall (mask : list bool) j,
  mask !! j = Some true ->
  foldl (fun m k => <[k:=true]> m) mask ks !! j = Some true.
Proof.
  induction ks as [|k ks IH]; intros mask j Hj; [exact Hj|].
  cbn [foldl]. apply IH.
  destruct (decide (k = j)) as [->|Hne].
  - apply list_lookup_insert_eq. apply lookup_lt_Some in Hj. exact Hj.
  - rewrite list_lookup_insert_ne by exact Hne. exact Hj.
Qed.

Lemma marked_in (ks : list nat) : forall (mask : list bool) k,
  k ∈ ks -> (k < length mask)%nat ->
  foldl (fun m k => <[k:=true]> m) mask ks !! k = Some true.
Proof.
  induction ks as [|k0 ks IH]; intros mask k Hin Hlt.
  { apply elem_of_nil in Hin. destruct Hin. }
  cbn [foldl]. apply elem_of_cons in Hin as [->|Hin].
  - apply marked_keeps. apply list_lookup_insert_eq. exact Hlt.
  - apply IH; [exact Hin|]. rewrite length_insert. exact Hlt.
Qed.

Lemma lookup_replicate_false (n j : nat) : replicate n false !! j <> Some true.
Proof. intros H. apply lookup_replicate in H as [H _]. discriminate. Qed.

(** What a successful split of lines 113-122 gives. *)
Lemma train_test_split_facts E (X : list (XTrial E)) (Y : Ytensor) idx
    X_train Y_train train_ind test_ind :
  train_test_split E X Y (Some idx) = Ok (X_train, Y_train, Some (train_ind, test_ind)) ->
  length Y = length X /\
  length test_ind = length X /\
  train_ind = negb <$> test_ind /\
  (exists ks, positions (length X) idx = Ok ks /\
              forall k, test_ind !! k = Some true <-> k ∈ ks) /\
  X_train = select train_ind X /\
  Y_train = select train_ind Y /\
  (length X_train + count_true test_ind = length X)%nat /\
  length Y_train = length X_train.
Proof.
  intros H. unfold train_test_split in H.
  apply rbind_ok_inv in H as (mask & Hset & H).
  apply rbind_ok_inv in H as (Xt & HX & H).
  apply rbind_ok_inv in H as (Yt & HY & H).
  injection H as <- <- <- <-.
  pose proof (set_true_length _ _ _ Hset) as Hlen. rewrite length_replicate in Hlen.
  apply mask_select_ok_inv in HX as [HlX ->].
  apply mask_select_ok_inv in HY as [HlY ->].
  rewrite length_fmap in HlX, HlY.
  unfold set_true in Hset. apply rbind_ok_inv in Hset as (ks & Hks & Hset).
  injection Hset as <-.
  split; [congruence|]. split; [exact Hlen|]. split; [reflexivity|].
  split.
  { exists ks. rewrite length_replicate in Hks. split; [exact Hks|]. intros k. split.
    - intros Hk. apply marked_positions in Hk as [Hk|Hk]; [|exact Hk].
      exfalso. exact (lookup_replicate_false _ _ Hk).
    - intros Hk. apply marked_in; [exact Hk|]. rewrite length_replicate.
      pose proof (positions_lt _ _ _ Hks) as Hall. rewrite Forall_forall in Hall.
      apply Hall, Hk. }
  split; [reflexivity|]. split; [reflexivity|].
  set (test_ind := foldl _ _ ks) in *.
  assert (HsX : length (select (negb <$> test_ind) X) = count_true (negb <$> test_ind)).
  { apply length_select. rewrite length_fmap. exact HlX. }
  assert (HsY : length (select (negb <$> test_ind) Y) = count_true (negb <$> test_ind)).
  { apply length_select. rewrite length_fmap. exact HlY. }
  pose proof (count_true_negb test_ind) as Hc.
  split; [lia | congruence].
Qed.

(** X2.  The split of lines 113-122 is a partition of the trials: when
    [analyse_dataset] gets a [test_idx] and the split succeeds, [X] and [Y]
    have the same number of trials, the test mask marks exactly the positions
    [test_idx] names, the train mask is its complement, the training data
    are the trials of [X] and [Y] outside the test mask, and the sizes of the
    training set and of the test set add up to the number of trials. *)
Theorem train_test_split_partition E (X : list (XTrial E)) (Y : Ytensor) idx
    X_train Y_train train_ind test_ind :
  train_test_split E X Y (Some idx) = Ok (X_train, Y_train, Some (train_ind, test_ind)) ->
  length Y = length X /\
  length test_ind = length X /\
  train_ind = negb <$> test_ind /\
  (exists ks, positions (length X) idx = Ok ks /\
              forall k, test_ind !! k = Some true <-> k ∈ ks) /\
  X_train = select train_ind X /\
  Y_train = select train_ind Y /\
  (length X_train + count_true test_ind = length X)%nat /\
  length Y_train = length X_train.
Proof.
  intros H.
  destruct (train_test_split_facts E X Y idx X_train Y_train train_ind test_ind H)
    as (HlY & Hlt & Htr & Hks & HX & HY & Hsum & HlYt).
  split; [exact HlY|]. split; [exact Hlt|]. split; [exact Htr|]. split; [exact Hks|].
  split; [exact HX|]. split; [exact HY|]. split; [exact Hsum | exact HlYt].
Qed.

Lemma train_test_split_partition_witness :
  length toy_Y = length toy_X /\
  [false; true; false] = negb <$> [true; false; true].
Proof.
  destruct (train_test_split_partition toy toy_X toy_Y (IdxList [2; 0])
              [1] [[[0]; [1]]] [false; true; false] [true; false; true] eq_refl)
    as (H1 & _ & H2 & _).
  split; [exact H1 | exact H2].
Defined.

Lemma for_each_raises {A B} (f : A -> result B) (l : list A) x e :
  x ∈ l -> f x = Raise e -> exists e', for_each f l = Raise e'.
Proof.
  induction l as [|y l IH]; intros Hin Hx.
  { apply elem_of_nil in Hin. destruct Hin. }
  cbn [for_each]. apply elem_of_cons in Hin as [<-|Hin].
  - rewrite Hx. eexists; reflexivity.
  - destruct (f y) as [b|e1]; [|eexists; reflexivity]. cbn [rbind].
    destruct (IH Hin Hx) as [e' ->]. eexists; reflexivity.
Qed.

(** X3.  An index of [test_idx] outside [-n, n) for [n] trials stops
    [analyse_dataset] before anything is fitted: the call raises and no
    collaborator has been called. *)
Theorem test_idx_out_of_range E X Y coords (o : options E) l i :
  test_idx o = Some (IdxList l) ->
  i ∈ l ->
  i < - Z.of_nat (length X) \/ Z.of_nat (length X) <= i ->
  is_ok (returned (analyse_dataset E X Y coords o)) = false /\
  calls (analyse_dataset E X Y coords o) = [].
Proof.
  intros Hidx Hin Hi.
  assert (Hbad : norm_index (length X) i = Raise IndexError).
  { unfold norm_index.
    destruct ((0 <=? i) && (i <? Z.of_nat (length X))) eqn:H1.
    { apply andb_true_iff in H1 as [H1 H2].
      apply Z.leb_le in H1. apply Z.ltb_lt in H2. lia. }
    destruct ((- Z.of_nat (length X) <=? i) && (i <? 0)) eqn:H2; [|reflexivity].
    apply andb_true_iff in H2 as [H2 H3].
    apply Z.leb_le in H2. apply Z.ltb_lt in H3. lia. }
  assert (Hsplit : forall Y', exists e, train_test_split E X Y' (Some (IdxList l)) = Raise e).
  { intros Y'. unfold train_test_split, set_true, positions.
    rewrite length_replicate.
    destruct (for_each_raises _ _ _ _ Hin Hbad) as [e' ->]. eexists; reflexivity. }
  unfold analyse_dataset. rewrite tbind_lift.
  destruct (window_samples coords o) as [[tau offset]|e]; [|split; reflexivity].
  unfold analyse_window. rewrite tbind_lift.
  destruct (make_clsfr E (model o) tau offset o (regC E X)) as [clsfr0|e];
    [|split; reflexivity].
  rewrite tbind_lift.
  destruct (add_virtual_outputs E (n_virt_out o) Y) as [Y'|e]; [|split; reflexivity].
  rewrite tbind_lift, Hidx. destruct (Hsplit Y') as [e ->]. split; reflexivity.
Qed.

Lemma test_idx_out_of_range_witness :
  is_ok (returned (analyse_dataset toy toy_X toy_Y None
                     (with_test_idx (Some (IdxList [0; 3])) toy_options))) = false /\
  calls (analyse_dataset toy toy_X toy_Y None
           (with_test_idx (Some (IdxList [0; 3])) toy_options)) = [].
Proof.
  apply (test_idx_out_of_range toy toy_X toy_Y None
           (with_test_idx (Some (IdxList [0; 3])) toy_options) [0; 3] 3).
  - reflexivity.
  - apply list_elem_of_further, list_elem_of_here.
  - right. simpl. lia.
Defined.

(** ** Held-out trials *)

Lemma fit_model_fit_data E clsfr X Y X_train Y_train (o : options E) :
  Forall (fun ev => forall d, fit_data ev = Some d -> d = (X_train, Y_train))
         (calls (fit_model E clsfr X Y X_train Y_train o)).
Proof.
  unfold fit_model. destruct (truthy (cv o)).
  - apply Forall_calls_tbind.
    + destruct (tuned_parameters o) as [grid|]; [|constructor].
      apply Forall_calls_tbind.
      * repeat constructor. intros d [= <-]. reflexivity.
      * intros best _. repeat constructor. intros d Hd. discriminate Hd.
    + intros c1 _. apply Forall_calls_tbind.
      * repeat constructor. intros d [= <-]. reflexivity.
      * intros [c2 res] _. apply Forall_calls_tbind; [constructor|].
        intros Fy _. constructor.
  - apply Forall_calls_tbind.
    + repeat constructor. intros d [= <-]. reflexivity.
    + intros c1 _. apply Forall_calls_tbind.
      * repeat constructor. intros d Hd. discriminate Hd.
      * intros Fy _. constructor.
Qed.

Lemma fit_data_is_fit_call {E} (ev : event E) d :
  fit_data ev = Some d -> is_fit_call ev = true.
Proof. destruct ev; cbn; congruence. Qed.

Lemma make_clsfr_without_C E (m : model_arg E) tau offset (o : options E) C C' :
  uses_C m = false ->
  make_clsfr E m tau offset o C = make_clsfr E m tau offset o C'.
Proof.
  destruct m as [|s|c|]; cbn [uses_C]; intros H; try reflexivity.
  apply orb_false_iff in H as [H H3]. apply orb_false_iff in H as [H1 H2].
  unfold make_clsfr. rewrite H1, H2, H3. reflexivity.
Qed.

Lemma make_clsfr_with_C E (m : model_arg E) tau offset (o : options E) C :
  uses_C m = true ->
  exists est labelizeY,
    make_clsfr E m tau offset o C
    = LinearSklearn E tau offset (evtlabs o) (Some est) labelizeY (kwargs o) /\
    est ∈ [LogisticRegression C (center o); LinearSVR C; LinearSVC C].
Proof.
  destruct m as [|s|c|]; cbn [uses_C]; intros H; try discriminate H.
  destruct (String.eqb_spec s "lr") as [->|_].
  { eexists _, _. split; [reflexivity|]. apply list_elem_of_here. }
  destruct (String.eqb_spec s "svr") as [->|_].
  { eexists _, _. split; [reflexivity|]. apply list_elem_of_further, list_elem_of_here. }
  destruct (String.eqb_spec s "svc") as [->|_]; [|discriminate H].
  eexists _, _. split; [reflexivity|].
  apply list_elem_of_further, list_elem_of_further, list_elem_of_here.
Qed.

(** The fit starts with a call on the classifier it is given. *)
Lemma fit_model_first_call E clsfr X Y X_train Y_train (o : options E) :
  exists ev l,
    calls (fit_model E clsfr X Y X_train Y_train o) = ev :: l /\
    fitted_object ev = Some clsfr.
Proof.
  unfold fit_model. destruct (truthy (cv o)).
  - destruct (tuned_parameters o) as [grid|].
    + rewrite !calls_tbind. eexists _, _. split; reflexivity.
    + rewrite tbind_lift_ok, calls_tbind. eexists _, _. split; reflexivity.
  - rewrite calls_tbind. eexists _, _. split; reflexivity.
Qed.

Lemma filter_not_fit_calls {E} (l : list (event E)) :
  Forall (fun ev => is_fit_call ev = false) l -> List.filter is_fit_call l = [].
Proof.
  induction 1 as [|ev l Hev _ IH]; [reflexivity|].
  cbn [List.filter]. rewrite Hev. exact IH.
Qed.

(** The fitting calls of the fit depend on the training data only. *)
Lemma fit_calls_fit_model E clsfr X Y X2 Y2 X_train Y_train (o : options E) :
  fit_calls (fit_model E clsfr X2 Y2 X_train Y_train o)
  = fit_calls (fit_model E clsfr X Y X_train Y_train o).
Proof.
  unfold fit_calls, fit_model. destruct (truthy (cv o)); [reflexivity|].
  rewrite !calls_tbind. cbn [calls returned call fst snd].
  destruct (fit E clsfr X_train Y_train) as [c1|e]; [|reflexivity].
  rewrite !calls_tbind. cbn [calls returned call fst snd].
  destruct (predict E c1 X2 Y2 (Some true)), (predict E c1 X Y (Some true)); reflexivity.
Qed.

Lemma fit_calls_tbind_score {E A B} (m : traced (event E) A) (k : A -> traced (event E) B) :
  (forall a, Forall (fun ev => is_fit_call ev = false) (calls (k a))) ->
  fit_calls (tbind m k) = fit_calls m.
Proof.
  intros Hk. unfold fit_calls. rewrite calls_tbind, List.filter_app.
  destruct (returned m) as [a|e]; [|apply app_nil_r].
  rewrite (filter_not_fit_calls _ (Hk a)). apply app_nil_r.
Qed.

Lemma train_test_split_same E (X X2 : list (XTrial E)) (Y : Ytensor) idx :
  length X2 = length X ->
  (forall test_ind,
     set_true (replicate (length X) false) idx = Ok test_ind ->
     select (negb <$> test_ind) X2 = select (negb <$> test_ind) X) ->
  train_test_split E X2 Y (Some idx) = train_test_split E X Y (Some idx).
Proof.
  intros Hlen Hsel. unfold train_test_split. rewrite Hlen.
  destruct (set_true (replicate (length X) false) idx) as [test_ind|e] eqn:Hset;
    [|reflexivity].
  cbn [rbind]. unfold mask_select. rewrite Hlen, (Hsel test_ind eq_refl). reflexivity.
Qed.

(** X4.  What the fit sees of the held-out trials.  In every run of
    [analyse_dataset] with a [test_idx], also one that fails later, each call
    that fits or tunes the classifier (GridSearchCV.fit, cv_fit, fit) is
    given as data exactly the trials of [X] and of [Y] (with its virtual
    outputs) outside the test mask.  The classifier the first of these calls
    is made on is the one lines 83-104 build with [C], which lines 78-80
    compute from all trials of [X], held-out ones included: for the models
    lr, svr and svc it is a LinearSklearn object around an estimator that
    holds this [C].  For every other model argument the classifier is built
    without [C], and two runs on data that differ only in the held-out trials
    of [X] make the same fitting and tuning calls. *)
Theorem held_out_trials_and_the_fit E X Y coords (o : options E) idx :
  test_idx o = Some idx ->
  (forall ev Xf Yf,
     ev ∈ calls (analyse_dataset E X Y coords o) ->
     fit_data ev = Some (Xf, Yf) ->
     exists Y' test_ind,
       add_virtual_outputs E (n_virt_out o) Y = Ok Y' /\
       set_true (replicate (length X) false) idx = Ok test_ind /\
       Xf = select (negb <$> test_ind) X /\
       Yf = select (negb <$> test_ind) Y' /\
       (length Xf + count_true test_ind = length X)%nat) /\
  (forall ev,
     head (calls (analyse_dataset E X Y coords o)) = Some ev ->
     exists tau offset c,
       window_samples coords o = Ok (tau, offset) /\
       make_clsfr E (model o) tau offset o (regC E X) = Ok c /\
       fitted_object ev = Some c /\
       (uses_C (model o) = true ->
        exists est labelizeY,
          LinearSklearn E tau offset (evtlabs o) (Some est) labelizeY (kwargs o) = Ok c /\
          est ∈ [LogisticRegression (regC E X) (center o); LinearSVR (regC E X);
                 LinearSVC (regC E X)])) /\
  (forall X2,
     uses_C (model o) = false ->
     length X2 = length X ->
     (forall test_ind,
        set_true (replicate (length X) false) idx = Ok test_ind ->
        select (negb <$> test_ind) X2 = select (negb <$> test_ind) X) ->
     fit_calls (analyse_dataset E X2 Y coords o) = fit_calls (analyse_dataset E X Y coords o)).
Proof.
  intros Hidx. split; [|split].
  - intros ev Xf Yf Hin Hfit. revert Hin. unfold analyse_dataset. rewrite tbind_lift.
    destruct (window_samples coords o) as [[tau offset]|e];
      [|intros Hin; apply elem_of_nil in Hin; destruct Hin].
    unfold analyse_window. rewrite tbind_lift.
    destruct (make_clsfr E (model o) tau offset o (regC E X)) as [clsfr0|e];
      [|intros Hin; apply elem_of_nil in Hin; destruct Hin].
    rewrite tbind_lift.
    destruct (add_virtual_outputs E (n_virt_out o) Y) as [Y'|e] eqn:HY';
      [|intros Hin; apply elem_of_nil in Hin; destruct Hin].
    rewrite tbind_lift.
    destruct (train_test_split E X Y' (test_idx o)) as [[[X_train Y_train] masks]|e]
      eqn:Hsplit; [|intros Hin; apply elem_of_nil in Hin; destruct Hin].
    rewrite calls_tbind. intros Hin.
    assert (Hd : (Xf, Yf) = (X_train, Y_train)).
    { apply elem_of_app in Hin as [Hin|Hin].
      - pose proof (fit_model_fit_data E clsfr0 X Y' X_train Y_train o) as Hall.
        rewrite Forall_forall in Hall. exact (Hall ev Hin _ Hfit).
      - destruct (returned (fit_model E clsfr0 X Y' X_train Y_train o)) as [fitres|e];
          [|apply elem_of_nil in Hin; destruct Hin].
        pose proof (score_model_calls E X Y' o masks fitres) as Hall.
        rewrite Forall_forall in Hall. apply Hall in Hin.
        rewrite (fit_data_is_fit_call _ _ Hfit) in Hin. discriminate Hin. }
    injection Hd as -> ->.
    rewrite Hidx in Hsplit.
    pose proof Hsplit as Hinv.
    apply train_test_split_ok_inv in Hinv as (test_ind & Hset & Hlen & -> & HXt & HYt).
    rewrite HXt, HYt in Hsplit.
    destruct (train_test_split_facts _ _ _ _ _ _ _ _ Hsplit)
      as (_ & _ & _ & _ & _ & _ & Hsum & _).
    exists Y', test_ind. rewrite HXt, HYt. auto.
  - intros ev. unfold analyse_dataset. rewrite tbind_lift.
    destruct (window_samples coords o) as [[tau offset]|e]; [|discriminate].
    unfold analyse_window. rewrite tbind_lift.
    destruct (make_clsfr E (model o) tau offset o (regC E X)) as [clsfr0|e] eqn:Hc;
      [|discriminate].
    rewrite tbind_lift.
    destruct (add_virtual_outputs E (n_virt_out o) Y) as [Y'|e]; [|discriminate].
    rewrite tbind_lift.
    destruct (train_test_split E X Y' (test_idx o)) as [[[X_train Y_train] masks]|e];
      [|discriminate].
    rewrite calls_tbind.
    destruct (fit_model_first_call E clsfr0 X Y' X_train Y_train o) as (ev0 & l & -> & Hev0).
    cbn [app head]. intros [= <-].
    exists tau, offset, clsfr0. split; [reflexivity|]. split; [exact Hc|].
    split; [exact Hev0|]. intros HC.
    destruct (make_clsfr_with_C E (model o) tau offset o (regC E X) HC)
      as (est & lab & Hmk & Hest).
    exists est, lab. rewrite <- Hmk, Hc. auto.
  - intros X2 HC Hlen Hsel. unfold fit_calls, analyse_dataset.
    destruct (window_samples coords o) as [[tau offset]|e]; [|reflexivity].
    rewrite !tbind_lift_ok. unfold analyse_window.
    rewrite (make_clsfr_without_C E (model o) tau offset o (regC E X2) (regC E X) HC).
    destruct (make_clsfr E (model o) tau offset o (regC E X)) as [clsfr0|e]; [|reflexivity].
    rewrite !tbind_lift_ok.
    destruct (add_virtual_outputs E (n_virt_out o) Y) as [Y'|e]; [|reflexivity].
    rewrite !tbind_lift_ok, Hidx, (train_test_split_same E X X2 Y' idx Hlen Hsel).
    destruct (train_test_split E X Y' (Some idx)) as [[[X_train Y_train] masks]|e];
      [|reflexivity].
    rewrite !tbind_lift_ok.
    change (fit_calls (fitres <~ fit_model E clsfr0 X2 Y' X_train Y_train o;;
                       score_model E X2 Y' o masks fitres)
            = fit_calls (fitres <~ fit_model E clsfr0 X Y' X_train Y_train o;;
                         score_model E X Y' o masks fitres)).
    rewrite !fit_calls_tbind_score by (intros a; apply score_model_calls).
    apply fit_calls_fit_model.
Qed.

Lemma held_out_trials_and_the_fit_witness :
  (exists Y' test_ind,
     add_virtual_outputs toy None toy_Y = Ok Y' /\
     set_true (replicate (length toy_X) false) (IdxList [2]) = Ok test_ind /\
     [0; 1] = select (negb <$> test_ind) toy_X /\
     [[[1]; [0]]; [[0]; [1]]] = select (negb <$> test_ind) Y' /\
     (length [0; 1] + count_true test_ind = length toy_X)%nat) /\
  fit_calls (analyse_dataset toy [0; 1; 7] toy_Y None
               (with_test_idx (Some (IdxList [2])) toy_options))
  = fit_calls (analyse_dataset toy toy_X toy_Y None
                 (with_test_idx (Some (IdxList [2])) toy_options)).
Proof.
  pose proof (held_out_trials_and_the_fit toy toy_X toy_Y None
                (with_test_idx (Some (IdxList [2])) toy_options) (IdxList [2]) eq_refl)
    as (Hdata & _ & Hsame).
  split.
  - apply (Hdata (CvFit (E:=toy) (ToyClsfr "MultiCCA" [30; 0; 1] []) [0; 1]
                        [[[1]; [0]]; [[0]; [1]]] (CvBool true) None true)).
    + apply list_elem_of_here.
    + reflexivity.
  - apply (Hsame [0; 1; 7]).
    + reflexivity.
    + reflexivity.
    + intros test_ind Hset. injection Hset as <-. reflexivity.
Defined.

(** X5.  With a [test_idx] that names its trials in trial order (a slice, or
    an increasing list of indices), a successful run of [analyse_dataset]
    scores a tensor over all trials whose blocks at the test trials are the
    predictions of the fitted classifier for exactly those trials (the
    held-out trials of [X] and [Y], in trial order), and whose blocks at the
    training trials are the raw scores of the fit. *)
Theorem ordered_test_idx_splice E X Y coords (o : options E) idx log a :
  analyse_dataset E X Y coords o = (log, Ok a) ->
  test_idx o = Some idx ->
  in_trial_order (length X) idx ->
  exists Y' test_ind Fy_test raw res0,
    add_virtual_outputs E (n_virt_out o) Y = Ok Y' /\
    set_true (replicate (length X) false) idx = Ok test_ind /\
    predict E (clsfr_of a) (select test_ind X) (select test_ind Y') None = Ok Fy_test /\
    AudcScore (clsfr_of a) raw ∈ log /\
    res_of a = <["rawestimator" := raw]> res0 /\
    length raw = length X /\
    broadcast_trials (count_true test_ind) Fy_test = Ok (select test_ind raw) /\
    broadcast_trials (count_true (negb <$> test_ind))
                     (default (Fy_of a) (res0 !! "rawestimator"))
    = Ok (select (negb <$> test_ind) raw).
Proof.
  intros H Hidx Hord. apply analyse_dataset_ok_inv in H as (tau & offset & _ & H).
  apply analyse_window_ok_inv in H
    as (clsfr0 & Y' & X_train & Y_train & masks & lfit & clsfr1 & Fy & res & lsp & rawFy
        & res' & score & h & dc & _ & HY' & Hsplit & _ & Hsp & _ & _ & _ & -> & ->).
  rewrite Hidx in Hsplit, Hsp.
  pose proof Hsplit as Hinv.
  apply train_test_split_ok_inv in Hinv as (test_ind & Hset & Hlen & -> & HXt & HYt).
  destruct (train_test_split_facts _ _ _ _ _ _ _ _ Hsplit)
    as (HlY & _ & _ & (ks & Hks & _) & _).
  destruct Hsp as [Hsp ->].
  apply splice_test_ok_inv in Hsp
    as (X_test & Y_test & Fy_test & v_train & v_test & HX & HY & Hp & -> & Hl1 & Hl2
        & Hb1 & Hb2 & ->).
  destruct (take_index_increasing X idx ks Hks (Hord ks Hks)) as (t1 & Ht1 & HX1).
  rewrite <- HlY in Hks.
  destruct (take_index_increasing Y' idx ks Hks) as (t2 & Ht2 & HY1).
  { rewrite HlY in Hks. exact (Hord ks Hks). }
  rewrite HlY in Ht2.
  assert (t1 = test_ind) as -> by congruence.
  assert (t2 = test_ind) as -> by congruence.
  assert (X_test = select test_ind X) as -> by congruence.
  assert (Y_test = select test_ind Y') as -> by congruence.
  exists Y', test_ind, Fy_test. eexists. exists res.
  split; [exact HY'|]. split; [exact Hset|]. split; [exact Hp|].
  split.
  { cbn [clsfr_of fst snd]. rewrite !elem_of_app. right. right. apply list_elem_of_here. }
  split; [reflexivity|].
  split; [rewrite !length_scatter; apply length_replicate|].
  cbn [Fy_of fst snd]. split.
  - rewrite select_scatter; [exact Hb2 | |].
    + rewrite length_scatter, length_replicate. exact Hl2.
    + apply (broadcast_trials_length _ _ _ Hb2).
  - rewrite select_scatter_other.
    rewrite select_scatter; [exact Hb1 | |].
    + rewrite length_replicate. exact Hl1.
    + apply (broadcast_trials_length _ _ _ Hb1).
Qed.

Lemma slice_in_trial_order (n : nat) (s : pyslice) : in_trial_order n (IdxSlice s).
Proof. intros ks Hks. exact (slice_positions_increasing n s ks Hks). Qed.

Lemma ordered_test_idx_splice_witness :
  exists Y' test_ind Fy_test raw res0,
    add_virtual_outputs toy None toy_Y = Ok Y' /\
    set_true (replicate (length toy_X) false) (IdxSlice (Slice (Some 1) None)) = Ok test_ind /\
    predict toy (ToyClsfr "MultiCCA" [30; 0; 1] [0]) (select test_ind toy_X)
            (select test_ind Y') None = Ok Fy_test /\
    AudcScore (E:=toy) (ToyClsfr "MultiCCA" [30; 0; 1] [0]) raw
      ∈ [CvFit (E:=toy) (ToyClsfr "MultiCCA" [30; 0; 1] []) [0] [[[1]; [0]]] (CvBool true)
               None true;
         Predict (E:=toy) (ToyClsfr "MultiCCA" [30; 0; 1] [0]) [1; 2]
                 [[[0]; [1]]; [[1]; [1]]] None;
         AudcScore (E:=toy) (ToyClsfr "MultiCCA" [30; 0; 1] [0]) [2000; 1001; 1002];
         DecodingCurve (E:=toy) [2000; 1001; 1002] tt] /\
    (<["rawestimator" := [2000; 1001; 1002]]> {[ "estimator" := [2000] ]}
       : gmap string (list Z))
    = <["rawestimator" := raw]> res0 /\
    length raw = length toy_X /\
    broadcast_trials (count_true test_ind) Fy_test = Ok (select test_ind raw) /\
    broadcast_trials (count_true (negb <$> test_ind))
                     (default [2000] (res0 !! "rawestimator"))
    = Ok (select (negb <$> test_ind) raw).
Proof.
  exact (ordered_test_idx_splice toy toy_X toy_Y None
           (with_test_idx (Some (IdxSlice (Slice (Some 1) None))) toy_options)
           (IdxSlice (Slice (Some 1) None))
           [CvFit (E:=toy) (ToyClsfr "MultiCCA" [30; 0; 1] []) [0] [[[1]; [0]]] (CvBool true)
                  None true;
            Predict (E:=toy) (ToyClsfr "MultiCCA" [30; 0; 1] [0]) [1; 2]
                    [[[0]; [1]]; [[1]; [1]]] None;
            AudcScore (E:=toy) (ToyClsfr "MultiCCA" [30; 0; 1] [0]) [2000; 1001; 1002];
            DecodingCurve (E:=toy) [2000; 1001; 1002] tt]
           (3, [2000; 1001; 1002], [2000], ToyClsfr "MultiCCA" [30; 0; 1] [0],
            <["rawestimator" := [2000; 1001; 1002]]> {[ "estimator" := [2000] ]})
           eq_refl eq_refl (slice_in_trial_order _ _)).
Defined.

Lemma count_true_pos (mask : list bool) : forall k,
  mask !! k = Some true -> (0 < count_true mask)%nat.
Proof.
  induction mask as [|b mask IH]; intros k Hk; [discriminate|].
  rewrite count_true_cons. destruct k as [|k]; cbn in Hk.
  - injection Hk as ->. lia.
  - specialize (IH k Hk). destruct b; lia.
Qed.

(** X6.  Without cross-validation ([cv] false) a test set cannot be used:
    when [predict] returns one score block per trial, a call of
    [analyse_dataset] on more than one trial with [cv] false and a non-empty
    list [test_idx] never returns normally (the scores of all trials do not
    fit the training positions at line 164). *)
Theorem overfit_with_test_set_fails E X Y coords (o : options E) i l :
  predict_covers_input E ->
  truthy (cv o) = false ->
  test_idx o = Some (IdxList (i :: l)) ->
  (1 < length X)%nat ->
  is_ok (returned (analyse_dataset E X Y coords o)) = false.
Proof.
  intros Hpred Hcv Hidx Hn.
  destruct (analyse_dataset E X Y coords o) as [log [a|e]] eqn:H; [exfalso|reflexivity].
  apply analyse_dataset_ok_inv in H as (tau & offset & _ & H).
  apply analyse_window_ok_inv in H
    as (clsfr0 & Y' & X_train & Y_train & masks & lfit & clsfr1 & Fy & res & lsp & rawFy
        & res' & score & h & dc & _ & _ & Hsplit & Hfit & Hsp & _).
  rewrite Hidx in Hsplit, Hsp.
  pose proof Hsplit as Hinv.
  apply train_test_split_ok_inv in Hinv as (test_ind & Hset & Hlen & -> & HXt & HYt).
  destruct (train_test_split_facts _ _ _ _ _ _ _ _ Hsplit)
    as (_ & _ & _ & (ks & Hks & Hmark) & _).
  apply fit_model_ok_inv in Hfit as [_ Hfit]. rewrite Hcv in Hfit.
  destruct Hfit as (_ & Hp & -> & _).
  destruct Hsp as [Hsp _].
  rewrite lookup_singleton_ne in Hsp by discriminate. cbn [default] in Hsp.
  apply splice_test_ok_inv in Hsp
    as (X_test & Y_test & Fy_test & v_train & v_test & _ & _ & _ & _ & _ & _ & Hb1 & _).
  apply Hpred in Hp.
  (* the test set is not empty *)
  assert (Hpos : (0 < count_true test_ind)%nat).
  { cbn [positions for_each] in Hks.
    apply rbind_ok_inv in Hks as (k0 & _ & Hks).
    apply rbind_ok_inv in Hks as (ks' & _ & Hks). injection Hks as <-.
    apply (count_true_pos _ k0), Hmark, list_elem_of_here. }
  pose proof (count_true_negb test_ind) as Hc.
  unfold broadcast_trials in Hb1.
  destruct (length Fy =? count_true (negb <$> test_ind))%nat eqn:Hl.
  - apply Nat.eqb_eq in Hl. lia.
  - destruct Fy as [|y [|y' Fy]]; try discriminate Hb1. cbn [length] in Hp. lia.
Qed.

Lemma overfit_with_test_set_fails_witness :
  is_ok (returned (analyse_dataset toy toy_X toy_Y None
                     (with_cv (CvBool false)
                        (with_test_idx (Some (IdxList [2])) toy_options)))) = false.
Proof.
  apply (overfit_with_test_set_fails toy toy_X toy_Y None
           (with_cv (CvBool false) (with_test_idx (Some (IdxList [2])) toy_options)) 2 []).
  - exact toy_predict_covers_input.
  - reflexivity.
  - reflexivity.
  - simpl. lia.
Defined.

(** ** What [dataset_GridSearchCV] returns *)

Lemma for_each_length {A B} (f : A -> result B) (l : list A) : forall ys,
  for_each f l = Ok ys -> length ys = length l.
Proof.
  induction l as [|x l IH]; intros ys H; cbn [for_each] in H.
  - injection H as <-. reflexivity.
  - apply rbind_ok_inv in H as (y & _ & H). apply rbind_ok_inv in H as (ys' & Hys & H).
    injection H as <-. cbn [length]. rewrite (IH _ Hys). reflexivity.
Qed.

Section FileProperties.
Context (P : Pipeline).
Context (loader_args : gmap string (Val P))
        (model : Val P)
        (clsfr_args preprocess_args kwargs : gmap string (Val P)).

Local Abbreviation ov_of :=
  (apply_config P loader_args model clsfr_args preprocess_args kwargs).
Local Abbreviation step fn :=
  (grid_step P fn loader_args model clsfr_args preprocess_args kwargs).
Local Abbreviation loop fn :=
  (grid_loop P fn loader_args model clsfr_args preprocess_args kwargs).
Local Abbreviation run fn :=
  (dataset_GridSearchCV P fn loader_args model clsfr_args preprocess_args kwargs).
Local Abbreviation cres :=
  (config_result P loader_args model clsfr_args preprocess_args kwargs).
Local Abbreviation entry_of fn :=
  (new_entry P fn loader_args model clsfr_args preprocess_args kwargs).
Local Abbreviation stores fn :=
  (store_all P fn loader_args model clsfr_args preprocess_args kwargs).

Lemma returned_analyse_config fn ci cfg res d :
  returned (analyse_config P fn loader_args kwargs ci cfg (ov_of cfg) res d)
  = (sc <- cres d cfg;;
     Ok (store P fn loader_args res ci cfg (ov_of cfg) (fst sc) (snd sc))).
Proof.
  unfold analyse_config, config_result, call. cbv zeta.
  destruct (preprocess P d (kwargs !! "test_idx") (preprocess_args_f (ov_of cfg)))
    as [X|e]; [|reflexivity].
  cbn [tbind rbind].
  destruct (analyse P X (model_f (ov_of cfg)) (clsfr_args_f (ov_of cfg))
              (kwargs_f (ov_of cfg))) as [[score dc]|e]; reflexivity.
Qed.

Lemma returned_have_data fn ci cfg res d :
  returned (d0 <~ lift (Ok d);;
            res' <~ analyse_config P fn loader_args kwargs ci cfg (ov_of cfg) res d0;;
            lift (Ok (res', Some d)))
  = (sc <- cres d cfg;;
     Ok (store P fn loader_args res ci cfg (ov_of cfg) (fst sc) (snd sc), Some d)).
Proof.
  rewrite tbind_lift_ok, returned_tbind, returned_analyse_config.
  destruct (cres d cfg) as [sc|e]; reflexivity.
Qed.

(** A pass of the loop on loaded data. *)
Lemma returned_step_loaded fn d ci cfg res loaded :
  loader P fn loader_args = Ok d ->
  loaded = Some d \/ reload_wanted P loader_args ci (ov_of cfg) = true ->
  returned (step fn ci cfg (res, loaded))
  = (sc <- cres d cfg;;
     Ok (store P fn loader_args res ci cfg (ov_of cfg) (fst sc) (snd sc), Some d)).
Proof.
  intros Hload Hl. rewrite <- returned_have_data. unfold grid_step.
  rewrite returned_tbind.
  destruct (reload_wanted P loader_args ci (ov_of cfg)) eqn:Hw.
  - unfold call, try_except. rewrite Hload. reflexivity.
  - destruct Hl as [->|Hl]; [|discriminate]. reflexivity.
Qed.

(** A pass of the loop for a file the loader fails on. *)
Lemma returned_step_unloadable fn e ci cfg res :
  loader P fn loader_args = Raise e ->
  returned (step fn ci cfg (res, None))
  = if reload_wanted P loader_args ci (ov_of cfg) then Ok (res, None)
    else Raise UnboundLocalError.
Proof.
  intros Hload. unfold grid_step. rewrite returned_tbind.
  destruct (reload_wanted P loader_args ci (ov_of cfg)).
  - unfold call, try_except. rewrite Hload. reflexivity.
  - reflexivity.
Qed.

Lemma returned_loop_loaded fn d grid : forall ci res loaded,
  loader P fn loader_args = Ok d ->
  loaded = Some d \/ ci = 0%nat ->
  (st <- returned (loop fn ci grid (res, loaded));; Ok (fst st))
  = (scs <- for_each (cres d) grid;; Ok (stores fn res ci grid scs)).
Proof.
  induction grid as [|cfg grid IH]; intros ci res loaded Hload Hl; [reflexivity|].
  cbn [grid_loop for_each]. rewrite returned_tbind.
  rewrite (returned_step_loaded fn d ci cfg res loaded Hload).
  2:{ destruct Hl as [Hl| ->]; [left; exact Hl | right; reflexivity]. }
  destruct (cres d cfg) as [sc|e]; [|reflexivity]. cbn [rbind].
  rewrite (IH (S ci) _ (Some d) Hload (or_introl eq_refl)).
  destruct (for_each (cres d) grid) as [scs|e]; reflexivity.
Qed.

Lemma returned_loop_unloadable fn e grid : forall ci res,
  loader P fn loader_args = Raise e ->
  returned (loop fn ci grid (res, None)) = Ok (res, None) /\
  returned (loop fn ci grid ([], None)) = Ok ([], None) \/
  returned (loop fn ci grid (res, None)) = Raise UnboundLocalError /\
  returned (loop fn ci grid ([], None)) = Raise UnboundLocalError.
Proof.
  induction grid as [|cfg grid IH]; intros ci res Hload; [left; split; reflexivity|].
  cbn [grid_loop]. rewrite !returned_tbind.
  rewrite !(returned_step_unloadable fn e ci cfg _ Hload).
  destruct (reload_wanted P loader_args ci (ov_of cfg)).
  - apply IH, Hload.
  - right. split; reflexivity.
Qed.

Lemma returned_run_loaded fn d res grid :
  loader P fn loader_args = Ok d ->
  returned (run fn res grid)
  = (scs <- for_each (cres d) grid;; Ok (stores fn res 0 grid scs)).
Proof.
  intros Hload. rewrite dataset_GridSearchCV_returned.
  rewrite <- (returned_loop_loaded fn d grid 0%nat res None Hload (or_intror eq_refl)).
  destruct (returned (loop fn 0%nat grid (res, None))); reflexivity.
Qed.

Lemma returned_run_unloadable fn e res grid :
  loader P fn loader_args = Raise e ->
  returned (run fn res grid) = Ok res /\ returned (run fn [] grid) = Ok [] \/
  returned (run fn res grid) = Raise UnboundLocalError /\
  returned (run fn [] grid) = Raise UnboundLocalError.
Proof.
  intros Hload. rewrite !dataset_GridSearchCV_returned.
  destruct (returned_loop_unloadable fn e grid 0%nat res Hload) as [[-> ->]|[-> ->]];
    [left | right]; split; reflexivity.
Qed.

(** The first result of a configuration makes its dict. *)
Lemma store_new fn (es : list (entry P)) cfg sc :
  store P fn loader_args (Some <$> es) (length es) cfg (ov_of cfg) (fst sc) (snd sc)
  = Some <$> (es ++ [entry_of fn cfg sc]).
Proof.
  unfold store. rewrite length_fmap, Nat.leb_refl.
  replace (length es + 1 - length es)%nat with 1%nat by lia. cbn [replicate].
  rewrite lookup_app_r by (rewrite length_fmap; lia).
  rewrite length_fmap, Nat.sub_diag. cbn [lookup list_lookup].
  rewrite insert_app_r_alt by (rewrite length_fmap; lia).
  rewrite length_fmap, Nat.sub_diag, fmap_app. reflexivity.
Qed.

(** A later result is appended to the lists of the dict. *)
Lemma store_append fn (pre post : list (entry P)) e cfg sc :
  store P fn loader_args (Some <$> (pre ++ e :: post)) (length pre) cfg (ov_of cfg)
        (fst sc) (snd sc)
  = Some <$> (pre ++ cat_entry e (entry_of fn cfg sc) :: post).
Proof.
  unfold store. rewrite length_fmap, length_app. cbn [length].
  destruct (length pre + S (length post) <=? length pre)%nat eqn:Hle;
    [apply Nat.leb_le in Hle; lia|].
  rewrite !fmap_app, !fmap_cons.
  rewrite lookup_app_r by (rewrite length_fmap; lia).
  rewrite length_fmap, Nat.sub_diag. cbn [lookup list_lookup].
  rewrite insert_app_r_alt by (rewrite length_fmap; lia).
  rewrite length_fmap, Nat.sub_diag. reflexivity.
Qed.

Lemma store_all_new fn grid : forall (es : list (entry P)) scs,
  length scs = length grid ->
  stores fn (Some <$> es) (length es) grid scs
  = Some <$> (es ++ zip_with (entry_of fn) grid scs).
Proof.
  induction grid as [|cfg grid IH]; intros es [|sc scs] Hlen; try discriminate Hlen.
  - cbn [store_all zip_with]. rewrite app_nil_r. reflexivity.
  - cbn [store_all zip_with]. rewrite store_new.
    replace (S (length es)) with (length (es ++ [entry_of fn cfg sc]))
      by (rewrite length_app; cbn [length]; lia).
    rewrite IH by (cbn [length] in Hlen; lia).
    rewrite <- app_assoc. reflexivity.
Qed.

Lemma store_all_append fn grid : forall (pre acc : list (entry P)) scs,
  length scs = length grid -> length acc = length grid ->
  stores fn (Some <$> (pre ++ acc)) (length pre) grid scs
  = Some <$> (pre ++ zip_with cat_entry acc (zip_with (entry_of fn) grid scs)).
Proof.
  induction grid as [|cfg grid IH]; intros pre [|e acc] [|sc scs] Hlen Hacc;
    try discriminate Hlen; try discriminate Hacc.
  - reflexivity.
  - cbn [store_all zip_with]. rewrite store_append.
    replace (S (length pre))
      with (length (pre ++ [cat_entry e (entry_of fn cfg sc)]))
      by (rewrite length_app; cbn [length]; lia).
    rewrite (cons_middle _ pre acc), app_assoc.
    rewrite IH by (cbn [length] in *; lia).
    rewrite <- app_assoc. reflexivity.
Qed.

Lemma store_all_fresh fn grid scs :
  length scs = length grid ->
  stores fn [] 0 grid scs = Some <$> zip_with (entry_of fn) grid scs.
Proof. intros Hlen. exact (store_all_new fn grid [] scs Hlen). Qed.

Lemma store_all_merge fn grid (acc : list (entry P)) scs :
  length scs = length grid -> length acc = length grid ->
  stores fn (Some <$> acc) 0 grid scs
  = Some <$> zip_with cat_entry acc (zip_with (entry_of fn) grid scs).
Proof. intros Hlen Hacc. exact (store_all_append fn grid [] acc scs Hlen Hacc). Qed.

(** The two outcomes of a run on an empty result list. *)
Lemma fresh_result_cases fn grid res :
  returned (run fn [] grid) = Ok res ->
  (exists e, loader P fn loader_args = Raise e /\ res = []) \/
  (exists d scs,
     loader P fn loader_args = Ok d /\
     for_each (cres d) grid = Ok scs /\
     res = Some <$> zip_with (entry_of fn) grid scs /\
     length res = length grid).
Proof.
  intros H. destruct (loader P fn loader_args) as [d|e] eqn:Hload.
  - right. rewrite (returned_run_loaded fn d [] grid Hload) in H.
    apply rbind_ok_inv in H as (scs & Hscs & H). injection H as <-.
    pose proof (for_each_length _ _ _ Hscs) as Hlen.
    exists d, scs. split; [reflexivity|]. split; [exact Hscs|].
    pose proof (store_all_fresh fn grid scs Hlen) as Hst.
    split; [exact Hst|]. rewrite Hst, length_fmap, length_zip_with. lia.
  - left. exists e. split; [reflexivity|].
    destruct (returned_run_unloadable fn e [] grid Hload) as [[H1 _]|[H1 _]];
      congruence.
Qed.


(** The result lists the driver carries: empty, or one dict per
    configuration. *)
Local Abbreviation shaped grid res :=
  (res = [] \/ exists acc : list (entry P), res = Some <$> acc /\ length acc = length grid).

(** On the results of earlier files, [dataset_GridSearchCV] returns what it
    returns on an empty list, merged into them. *)
Lemma run_on_results fn grid res :
  shaped grid res ->
  returned (run fn res grid)
  = (r <- returned (run fn [] grid);;
     match res with [] => Ok r | _ :: _ => merge_results res r end).
Proof.
  intros [->|(acc & -> & Hacc)].
  { destruct (returned (run fn [] grid)); reflexivity. }
  destruct (loader P fn loader_args) as [d|e] eqn:Hload.
  - rewrite !(returned_run_loaded fn d _ grid Hload).
    destruct (for_each (cres d) grid) as [scs|e] eqn:Hscs; [|reflexivity].
    cbn [rbind]. pose proof (for_each_length _ _ _ Hscs) as Hlen.
    rewrite (store_all_merge fn grid acc scs Hlen Hacc).
    rewrite (store_all_fresh fn grid scs Hlen).
    destruct acc as [|e0 acc].
    + destruct grid; [|discriminate Hacc]. destruct scs; [|discriminate Hlen].
      reflexivity.
    + rewrite fmap_cons, <- fmap_cons.
      rewrite merge_results_ok; [reflexivity|].
      rewrite length_zip_with. lia.
  - destruct (returned_run_unloadable fn e (Some <$> acc) grid Hload) as [[-> ->]|[-> ->]];
      [|reflexivity].
    cbn [rbind]. destruct acc; reflexivity.
Qed.

Lemma run_keeps_shape fn grid res res' :
  shaped grid res -> returned (run fn res grid) = Ok res' -> shaped grid res'.
Proof.
  intros Hs H. destruct (loader P fn loader_args) as [d|e] eqn:Hload.
  - rewrite (returned_run_loaded fn d _ grid Hload) in H.
    apply rbind_ok_inv in H as (scs & Hscs & H). injection H as <-.
    pose proof (for_each_length _ _ _ Hscs) as Hlen. right.
    destruct Hs as [->|(acc & -> & Hacc)].
    + eexists. split; [exact (store_all_fresh fn grid scs Hlen)|].
      rewrite length_zip_with. lia.
    + eexists. split; [exact (store_all_merge fn grid acc scs Hlen Hacc)|].
      rewrite !length_zip_with. lia.
  - destruct (returned_run_unloadable fn e res grid Hload) as [[H1 _]|[H1 _]];
      [|congruence].
    rewrite H1 in H. injection H as <-. exact Hs.
Qed.

Lemma returned_search_file grid res fn :
  returned (search_file P loader_args model clsfr_args preprocess_args kwargs grid res fn)
  = (res' <- returned (run fn res grid);;
     _ <- print_hyperparam_summary res';;
     Ok res').
Proof.
  unfold search_file. rewrite returned_tbind.
  destruct (returned (run fn res grid)) as [res'|e]; [|reflexivity].
  rewrite tbind_lift. cbn [rbind].
  destruct (print_hyperparam_summary res'); reflexivity.
Qed.

Lemma files_loop_collect grid fns : forall res,
  shaped grid res ->
  returned (tfoldl (search_file P loader_args model clsfr_args preprocess_args kwargs grid)
              fns res)
  = collect ((fun fn => returned (run fn [] grid)) <$> fns) res.
Proof.
  induction fns as [|fn fns IH]; intros res Hs; [reflexivity|].
  rewrite fmap_cons. cbn [tfoldl collect].
  rewrite returned_tbind, returned_search_file.
  pose proof (run_keeps_shape fn grid res) as Hkeep.
  rewrite (run_on_results fn grid res Hs) in *.
  destruct (returned (run fn [] grid)) as [r|e]; [|reflexivity].
  cbn [rbind] in *.
  destruct (match res with [] => Ok r | _ :: _ => merge_results res r end) as [res'|e];
    [|reflexivity].
  cbn [rbind].
  destruct (print_hyperparam_summary res'); [|reflexivity].
  cbn [rbind]. apply IH, (Hkeep res' Hs eq_refl).
Qed.

(** The sequential driver, by the jobs of the process pool. *)
Lemma sequential_by_jobs grid fns :
  returned (datasets_GridSearchCV P loader_args model clsfr_args preprocess_args kwargs
              grid fns)
  = collect_results ((fun fn => returned (run fn [] grid)) <$> fns).
Proof.
  unfold datasets_GridSearchCV, collect_results.
  rewrite returned_tbind, (files_loop_collect grid fns [] (or_introl eq_refl)).
  destruct (collect _ []) as [res|e]; [|reflexivity].
  rewrite tbind_lift. cbn [rbind].
  destruct (print_hyperparam_summary res); reflexivity.
Qed.

(** X8.  The sequential driver [datasets_GridSearchCV] returns exactly what
    the process-pool driver [concurrent_datasets_GridSearchCV] returns when
    its jobs complete in the order of the files: the same merged results, or
    the same exception.  (The loader is a function of its arguments, as
    everywhere in this model.) *)
Theorem sequential_is_concurrent_in_file_order grid fns :
  returned (datasets_GridSearchCV P loader_args model clsfr_args preprocess_args kwargs
              grid fns)
  = concurrent_datasets_GridSearchCV P fns loader_args model clsfr_args preprocess_args
      kwargs grid.
Proof.
  unfold concurrent_datasets_GridSearchCV. apply sequential_by_jobs.
Qed.

(** X9.  The try/except around the loader does not make the drivers robust:
    without files [datasets_GridSearchCV] raises IndexError (from
    [print_hyperparam_summary] on the empty result list), and when the loader
    fails on the first file it raises too, either IndexError or, when the
    grid has a configuration that does not reload, UnboundLocalError; the
    later files are not looked at. *)
Theorem unloadable_first_file grid :
  datasets_GridSearchCV P loader_args model clsfr_args preprocess_args kwargs grid []
  = ([], Raise IndexError) /\
  (forall fn fns e,
     loader P fn loader_args = Raise e ->
     let r := datasets_GridSearchCV P loader_args model clsfr_args preprocess_args kwargs
                grid (fn :: fns) in
     (returned r = Raise IndexError \/ returned r = Raise UnboundLocalError) /\
     Forall (fun ev => exists ci, ev = Load ci fn loader_args) (calls r)).
Proof.
  split; [reflexivity|].
  intros fn fns e Hload r. subst r. split.
  - unfold datasets_GridSearchCV. rewrite returned_tbind. cbn [tfoldl].
    rewrite returned_tbind, returned_search_file.
    destruct (returned_run_unloadable fn e [] grid Hload) as [[-> _]|[-> _]].
    + left. reflexivity.
    + right. reflexivity.
  - unfold datasets_GridSearchCV. apply Forall_calls_tbind.
    + cbn [tfoldl]. apply Forall_calls_tbind.
      * unfold search_file. apply Forall_calls_tbind.
        -- rewrite dataset_GridSearchCV_calls.
           pose proof (loop_events_expected P fn loader_args model clsfr_args
                         preprocess_args kwargs grid 0%nat [] None
                         (loaded_ok_None P fn loader_args)) as Hall.
           eapply Forall_impl; [exact Hall|].
           intros ev (_ & cfg & _ & _ & Hev).
           destruct ev as [ci fn' args|ci d' t a|ci X m cf kf]; cbn in Hev.
           ++ destruct Hev as [-> ->]. exists ci. reflexivity.
           ++ destruct Hev as (Hd & _). congruence.
           ++ destruct Hev as ((d' & Hd & _) & _). congruence.
        -- intros res' Hres'. apply Forall_calls_tbind; [constructor|].
           intros; constructor.
      * intros res' Hres'. exfalso.
        rewrite returned_search_file in Hres'.
        destruct (returned_run_unloadable fn e [] grid Hload) as [[H1 _]|[H1 _]];
          rewrite H1 in Hres'; discriminate Hres'.
    + intros res' _. apply Forall_calls_tbind; [constructor|]. intros; constructor.
Qed.

(** *** The lists of a result dict stay aligned *)






(** *** The result of a grid search *)

Local Abbreviation good fns :=
  (entry_for P loader_args model clsfr_args preprocess_args kwargs fns).
Local Abbreviation can_load :=
  (loadable P loader_args).

Lemma fresh_entries_good fn d grid : forall scs,
  loader P fn loader_args = Ok d ->
  for_each (cres d) grid = Ok scs ->
  Forall2 (good [fn]) grid (zip_with (entry_of fn) grid scs).
Proof.
  induction grid as [|cfg grid IH]; intros scs Hload H; cbn [for_each] in H.
  - injection H as <-. constructor.
  - apply rbind_ok_inv in H as (sc & Hsc & H).
    apply rbind_ok_inv in H as (scs' & Hscs & H). injection H as <-.
    cbn [zip_with]. constructor; [|apply IH; assumption].
    unfold entry_for, new_entry. cbn.
    repeat (split; [reflexivity|]). exists [sc].
    split; [reflexivity|]. split; [reflexivity|].
    constructor; [|constructor]. exists d. auto.
Qed.

Lemma merged_entries_good fn d fs grid : forall acc scs,
  loader P fn loader_args = Ok d ->
  for_each (cres d) grid = Ok scs ->
  Forall2 (good fs) grid acc ->
  Forall2 (good (fs ++ [fn])) grid (zip_with cat_entry acc (zip_with (entry_of fn) grid scs)).
Proof.
  induction grid as [|cfg grid IH]; intros acc scs Hload H Hacc; cbn [for_each] in H.
  - apply Forall2_nil_inv_l in Hacc as ->. constructor.
  - apply rbind_ok_inv in H as (sc & Hsc & H).
    apply rbind_ok_inv in H as (scs' & Hscs & H). injection H as <-.
    apply Forall2_cons_inv_l in Hacc as (e & acc' & He & Hacc' & ->).
    cbn [zip_with]. constructor; [|apply IH; assumption].
    destruct He as (Hc & Hl & Hcf & Hf & scs0 & Hs & Hdc & Hall).
    unfold entry_for, cat_entry, new_entry. cbn.
    split; [exact Hc|]. split; [exact Hl|]. split; [exact Hcf|].
    split; [rewrite Hf; reflexivity|].
    exists (scs0 ++ [sc]). rewrite !fmap_app, Hs, Hdc.
    split; [reflexivity|]. split; [reflexivity|].
    apply Forall2_app; [exact Hall|]. constructor; [|constructor]. exists d. auto.
Qed.

Lemma can_load_cons fn fns :
  can_load (fn :: fns)
  = if is_ok (loader P fn loader_args) then fn :: can_load fns else can_load fns.
Proof.
  unfold loadable. destruct (is_ok (loader P fn loader_args)) eqn:Hl.
  - apply filter_cons_True. exact Hl.
  - apply filter_cons_False. congruence.
Qed.

Lemma files_loop_good grid fns : forall fs (acc : list (entry P)) res',
  grid <> [] ->
  Forall2 (good fs) grid acc ->
  returned (tfoldl (search_file P loader_args model clsfr_args preprocess_args kwargs grid)
              fns (Some <$> acc)) = Ok res' ->
  exists acc', res' = Some <$> acc' /\ Forall2 (good (fs ++ can_load fns)) grid acc'.
Proof.
  induction fns as [|fn fns IH]; intros fs acc res' Hgrid Hacc H.
  - injection H as <-. exists acc. rewrite app_nil_r. auto.
  - cbn [tfoldl] in H. rewrite returned_tbind, returned_search_file in H.
    rewrite can_load_cons.
    destruct (loader P fn loader_args) as [d|e] eqn:Hload; cbn [is_ok].
    + rewrite (returned_run_loaded fn d _ grid Hload) in H.
      destruct (for_each (cres d) grid) as [scs|e] eqn:Hscs; [|discriminate H].
      cbn [rbind] in H. pose proof (for_each_length _ _ _ Hscs) as Hlen.
      pose proof (Forall2_length _ _ _ Hacc) as Hlacc.
      rewrite (store_all_merge fn grid acc scs Hlen (eq_sym Hlacc)) in H.
      destruct (print_hyperparam_summary _); [|discriminate H]. cbn [rbind] in H.
      destruct (IH (fs ++ [fn]) _ res' Hgrid
                  (merged_entries_good fn d fs grid acc scs Hload Hscs Hacc) H)
        as (acc' & -> & Hgood).
      exists acc'. rewrite <- app_assoc in Hgood. auto.
    + destruct (returned_run_unloadable fn e (Some <$> acc) grid Hload) as [[H1 _]|[H1 _]];
        rewrite H1 in H; [|discriminate H].
      cbn [rbind] in H.
      destruct (print_hyperparam_summary _); [|discriminate H]. cbn [rbind] in H.
      exact (IH fs acc res' Hgrid Hacc H).
Qed.

(** X18.  What a grid search over files returns.  When
    [datasets_GridSearchCV] returns (and so when
    [concurrent_datasets_GridSearchCV] does, [fns] then being the files in
    the order in which their jobs complete), the result has exactly one dict
    per configuration of the grid, in grid order; each dict names its
    configuration, the base [loader_args] and the [clsfr_args] of the
    configuration, lists exactly the files the loader succeeds on, in order,
    and holds for the i-th of these files the score and the decoding curve
    that preprocessing and analysing that file under the configuration
    give.  The grid is not empty and the first file could be loaded. *)
Theorem grid_search_result grid fns res :
  returned (datasets_GridSearchCV P loader_args model clsfr_args preprocess_args kwargs
              grid fns) = Ok res \/
  concurrent_datasets_GridSearchCV P fns loader_args model clsfr_args preprocess_args
    kwargs grid = Ok res ->
  grid <> [] /\
  (exists fn fns', fns = fn :: fns' /\ is_ok (loader P fn loader_args) = true) /\
  exists acc,
    res = Some <$> acc /\
    Forall2 (entry_for P loader_args model clsfr_args preprocess_args kwargs
               (loadable P loader_args fns)) grid acc.
Proof.
  intros H.
  assert (Hseq : returned (datasets_GridSearchCV P loader_args model clsfr_args
                             preprocess_args kwargs grid fns) = Ok res).
  { destruct H as [H|H]; [exact H|].
    rewrite sequential_by_jobs. exact H. }
  clear H. unfold datasets_GridSearchCV in Hseq. rewrite returned_tbind in Hseq.
  destruct (returned (tfoldl _ fns [])) as [res1|e1] eqn:Hloop; [|discriminate Hseq].
  rewrite tbind_lift in Hseq.
  destruct (print_hyperparam_summary res1) eqn:Hprint; [|discriminate Hseq].
  injection Hseq as <-.
  destruct fns as [|fn fns]; [injection Hloop as <-; discriminate Hprint|].
  cbn [tfoldl] in Hloop. rewrite returned_tbind, returned_search_file in Hloop.
  destruct (returned (run fn [] grid)) as [r|e] eqn:Hrun; [|discriminate Hloop].
  cbn [rbind] in Hloop.
  destruct (print_hyperparam_summary r) eqn:Hpr; [|discriminate Hloop].
  cbn [rbind] in Hloop.
  destruct (fresh_result_cases fn grid r Hrun)
    as [(e & _ & ->)|(d & scs & Hload & Hscs & -> & Hlen)]; [discriminate Hpr|].
  assert (Hgrid : grid <> []).
  { intros ->. cbn [for_each] in Hscs. injection Hscs as <-. discriminate Hpr. }
  split; [exact Hgrid|].
  split; [exists fn, fns; rewrite Hload; auto|].
  rewrite can_load_cons, Hload. cbn [is_ok].
  destruct (files_loop_good grid fns [fn] _ res1 Hgrid
              (fresh_entries_good fn d grid scs Hload Hscs) Hloop)
    as (acc' & -> & Hgood).
  exists acc'. auto.
Qed.

(** *** The arguments of a configuration *)

Lemma apply_config_snoc cfg kv :
  ov_of (cfg ++ [kv]) = override1 (ov_of cfg) kv.
Proof. unfold apply_config. rewrite foldl_app. reflexivity. Qed.

Lemma kwargs_override1 (ov : overrides P) k v k' :
  kwargs_f (override1 ov (k, v)) !! k' = kwargs_f ov !! k' \/
  k' = k /\ kwargs_f (override1 ov (k, v)) !! k' = Some v /\
  String.prefix "clsfr_args" k = false /\ String.prefix "loader_args" k = false /\
  String.prefix "preprocess_args" k = false /\ String.prefix "model" k = false.
Proof.
  unfold override1.
  destruct (String.prefix "clsfr_args" k) eqn:H1; [left; reflexivity|].
  destruct (String.prefix "loader_args" k) eqn:H2; [left; reflexivity|].
  destruct (String.prefix "preprocess_args" k) eqn:H3; [left; reflexivity|].
  destruct (String.prefix "model" k) eqn:H4; [left; reflexivity|].
  cbn [kwargs_f]. destruct (decide (k' = k)) as [->|Hne].
  - right. rewrite lookup_insert_eq. repeat split.
  - left. apply lookup_insert_ne. congruence.
Qed.

Lemma clsfr_override1 (ov : overrides P) k v k' :
  clsfr_args_f (override1 ov (k, v)) !! k' = clsfr_args_f ov !! k' \/
  k' = clsfr_key k /\ clsfr_args_f (override1 ov (k, v)) !! k' = Some v /\
  String.prefix "clsfr_args" k = true.
Proof.
  unfold override1.
  destruct (String.prefix "clsfr_args" k) eqn:H1.
  - cbn [clsfr_args_f]. change (string_drop (String.length "clsfr_args" + 1) k)
      with (clsfr_key k).
    destruct (decide (k' = clsfr_key k)) as [->|Hne].
    + right. rewrite lookup_insert_eq. auto.
    + left. apply lookup_insert_ne. congruence.
  - left. destruct (String.prefix "loader_args" k); [reflexivity|].
    destruct (String.prefix "preprocess_args" k); [reflexivity|].
    destruct (String.prefix "model" k); reflexivity.
Qed.

Lemma kwargs_f_untouched cfg k :
  (forall v, (k, v) ∈ cfg -> is_plain_key k = false) ->
  kwargs_f (ov_of cfg) !! k = kwargs !! k.
Proof.
  induction cfg as [|[k0 v0] cfg IH] using rev_ind; intros Hk; [reflexivity|].
  rewrite apply_config_snoc.
  destruct (kwargs_override1 (ov_of cfg) k0 v0 k) as [H|(-> & _ & H1 & H2 & H3 & H4)].
  - rewrite H. apply IH. intros v Hin. apply (Hk v), elem_of_app. left. exact Hin.
  - exfalso. specialize (Hk v0). unfold is_plain_key in Hk.
    rewrite H1, H2, H3, H4 in Hk. cbn in Hk.
    assert (Hin : (k0, v0) ∈ cfg ++ [(k0, v0)])
      by (apply elem_of_app; right; apply list_elem_of_here).
    specialize (Hk Hin). discriminate Hk.
Qed.

Lemma kwargs_f_item cfg k v :
  NoDup cfg.*1 -> (k, v) ∈ cfg -> is_plain_key k = true ->
  kwargs_f (ov_of cfg) !! k = Some v.
Proof.
  induction cfg as [|[k0 v0] cfg IH] using rev_ind; intros Hnd Hin Hplain.
  { apply elem_of_nil in Hin. destruct Hin. }
  rewrite apply_config_snoc. rewrite fmap_app in Hnd. cbn [fmap list_fmap fst] in Hnd.
  apply NoDup_app in Hnd as (Hnd & Hdisj & _).
  apply elem_of_app in Hin as [Hin|Hin].
  - assert (Hne : k <> k0).
    { intros ->. apply (Hdisj k0); [|apply list_elem_of_here].
      apply list_elem_of_fmap. exists (k0, v). auto. }
    destruct (kwargs_override1 (ov_of cfg) k0 v0 k) as [H|(-> & _)]; [|congruence].
    rewrite H. exact (IH Hnd Hin Hplain).
  - apply list_elem_of_singleton in Hin. injection Hin as <- <-.
    unfold is_plain_key in Hplain. apply negb_true_iff in Hplain.
    apply orb_false_iff in Hplain as [Hplain H4].
    apply orb_false_iff in Hplain as [Hplain H3].
    apply orb_false_iff in Hplain as [H1 H2].
    unfold override1. rewrite H1, H2, H3, H4. cbn [kwargs_f]. apply lookup_insert_eq.
Qed.

Lemma clsfr_args_f_untouched cfg k' :
  (forall k v, (k, v) ∈ cfg -> String.prefix "clsfr_args" k = true -> clsfr_key k <> k') ->
  clsfr_args_f (ov_of cfg) !! k' = clsfr_args !! k'.
Proof.
  induction cfg as [|[k0 v0] cfg IH] using rev_ind; intros Hk; [reflexivity|].
  rewrite apply_config_snoc.
  destruct (clsfr_override1 (ov_of cfg) k0 v0 k') as [H|(-> & _ & H1)].
  - rewrite H. apply IH. intros k v Hin. apply (Hk k v), elem_of_app. left. exact Hin.
  - exfalso. apply (Hk k0 v0); [|exact H1|reflexivity].
    apply elem_of_app. right. apply list_elem_of_here.
Qed.

Lemma clsfr_args_f_item cfg k v :
  (k, v) ∈ cfg -> String.prefix "clsfr_args" k = true ->
  (forall k2 v2, (k2, v2) ∈ cfg -> String.prefix "clsfr_args" k2 = true ->
                 clsfr_key k2 = clsfr_key k -> v2 = v) ->
  clsfr_args_f (ov_of cfg) !! clsfr_key k = Some v.
Proof.
  induction cfg as [|[k0 v0] cfg IH] using rev_ind; intros Hin Hpre Huniq.
  { apply elem_of_nil in Hin. destruct Hin. }
  rewrite apply_config_snoc.
  assert (Hlast : (k0, v0) ∈ cfg ++ [(k0, v0)])
    by (apply elem_of_app; right; apply list_elem_of_here).
  assert (Hrest : forall k2 v2, (k2, v2) ∈ cfg -> String.prefix "clsfr_args" k2 = true ->
                                clsfr_key k2 = clsfr_key k -> v2 = v).
  { intros k2 v2 Hin2. apply Huniq, elem_of_app. left. exact Hin2. }
  destruct (String.prefix "clsfr_args" k0) eqn:H0;
    [destruct (decide (clsfr_key k0 = clsfr_key k)) as [Hk|Hk]|].
  - unfold override1. rewrite H0. cbn [clsfr_args_f].
    change (string_drop (String.length "clsfr_args" + 1) k0) with (clsfr_key k0).
    rewrite Hk, lookup_insert_eq. f_equal. exact (Huniq k0 v0 Hlast H0 Hk).
  - assert (Hin' : (k, v) ∈ cfg).
    { apply elem_of_app in Hin as [Hin|Hin]; [exact Hin|].
      apply list_elem_of_singleton in Hin. injection Hin as -> ->. congruence. }
    unfold override1. rewrite H0. cbn [clsfr_args_f].
    change (string_drop (String.length "clsfr_args" + 1) k0) with (clsfr_key k0).
    rewrite lookup_insert_ne by exact Hk. exact (IH Hin' Hpre Hrest).
  - assert (Hin' : (k, v) ∈ cfg).
    { apply elem_of_app in Hin as [Hin|Hin]; [exact Hin|].
      apply list_elem_of_singleton in Hin. injection Hin as -> ->. congruence. }
    destruct (clsfr_override1 (ov_of cfg) k0 v0 (clsfr_key k)) as [H|(_ & _ & H1)];
      [|congruence].
    rewrite H. exact (IH Hin' Hpre Hrest).
Qed.

Lemma call_keywords_clash {V} (a b : gmap string V) k :
  is_Some (a !! k) -> is_Some (b !! k) -> call_keywords a b = Raise TypeError.
Proof.
  intros [x Ha] [y Hb]. unfold call_keywords.
  rewrite bool_decide_eq_false_2; [reflexivity|].
  intros Hall. specialize (Hall k x Ha). cbn beta in Hall. congruence.
Qed.

Lemma call_keywords_apart {V} (a b : gmap string V) :
  (forall k, is_Some (a !! k) -> b !! k = None) -> call_keywords a b = Ok (a ∪ b).
Proof.
  intros H. unfold call_keywords. rewrite bool_decide_eq_true_2; [reflexivity|].
  intros k x Ha. apply H. rewrite Ha. eauto.
Qed.

(** X17.  How a configuration reaches [analyse_dataset] at line 960, which
    is called with [**clsfr_args_f, **kwargs_f].  An item whose key starts
    with none of clsfr_args, loader_args, preprocess_args and model is in
    [kwargs_f] under its key with the value of the configuration, which
    takes precedence over the caller's [kwargs]; an item whose key starts
    with clsfr_args is in [clsfr_args_f] under its key without the prefix and
    the character after it, taking precedence over the caller's
    [clsfr_args]; a key that no item addresses is in either dict as the
    caller gave it, so that items for the loader, the preprocessing or the
    model reach neither dict.  The keyword arguments of the call are the two
    dicts together; a keyword that both hold makes the call raise TypeError,
    which ends the grid search of the file. *)
Theorem config_keywords cfg :
  let ov := apply_config P loader_args model clsfr_args preprocess_args kwargs cfg in
  (forall k, (forall v, (k, v) ∈ cfg -> is_plain_key k = false) ->
     kwargs_f ov !! k = kwargs !! k) /\
  (forall k v, NoDup cfg.*1 -> (k, v) ∈ cfg -> is_plain_key k = true ->
     kwargs_f ov !! k = Some v) /\
  (forall k',
     (forall k v, (k, v) ∈ cfg -> String.prefix "clsfr_args" k = true -> clsfr_key k <> k') ->
     clsfr_args_f ov !! k' = clsfr_args !! k') /\
  (forall k v,
     (k, v) ∈ cfg -> String.prefix "clsfr_args" k = true ->
     (forall k2 v2, (k2, v2) ∈ cfg -> String.prefix "clsfr_args" k2 = true ->
                    clsfr_key k2 = clsfr_key k -> v2 = v) ->
     clsfr_args_f ov !! clsfr_key k = Some v) /\
  (forall d,
     (forall k, is_Some (clsfr_args_f ov !! k) -> kwargs_f ov !! k = None) ->
     analyse P d (model_f ov) (clsfr_args_f ov) (kwargs_f ov)
     = analyse_kw P d (model_f ov) (clsfr_args_f ov ∪ kwargs_f ov)) /\
  (forall k,
     is_Some (clsfr_args_f ov !! k) -> is_Some (kwargs_f ov !! k) ->
     (forall d, analyse P d (model_f ov) (clsfr_args_f ov) (kwargs_f ov) = Raise TypeError) /\
     (forall fn d X grid,
        loader P fn loader_args = Ok d ->
        preprocess P d (kwargs !! "test_idx") (preprocess_args_f ov) = Ok X ->
        returned (dataset_GridSearchCV P fn loader_args model clsfr_args preprocess_args
                    kwargs [] (cfg :: grid)) = Raise TypeError)).
Proof.
  intros ov.
  split; [exact (kwargs_f_untouched cfg)|].
  split; [exact (kwargs_f_item cfg)|].
  split; [exact (clsfr_args_f_untouched cfg)|].
  split; [exact (clsfr_args_f_item cfg)|].
  split.
  - intros d Hapart. unfold analyse.
    rewrite (call_keywords_apart _ _ Hapart). reflexivity.
  - intros k Hc Hk.
    assert (Hcall : forall d, analyse P d (model_f ov) (clsfr_args_f ov) (kwargs_f ov)
                              = Raise TypeError).
    { intros d. unfold analyse. rewrite (call_keywords_clash _ _ k Hc Hk). reflexivity. }
    split; [exact Hcall|].
    intros fn d X grid Hload Hpre.
    rewrite (returned_run_loaded fn d [] (cfg :: grid) Hload). cbn [for_each].
    unfold config_result at 1. fold ov. rewrite Hpre. cbn [rbind]. rewrite Hcall.
    reflexivity.
Qed.
End FileProperties.



Lemma unloadable_first_file_witness :
  returned (toy_sequential ["missing.txt"; "a.txt"] [[]]) = Raise IndexError \/
  returned (toy_sequential ["missing.txt"; "a.txt"] [[]]) = Raise UnboundLocalError.
Proof.
  apply (proj2 (unloadable_first_file toy_pipeline {[ "fs_out" := 100 ]} 0 ∅ ∅ ∅ [[]])
           "missing.txt" ["a.txt"] (OtherError "FileNotFoundError")).
  reflexivity.
Defined.

Lemma config_keywords_witness :
  kwargs_f (apply_config toy_pipeline {[ "fs_out" := 100 ]} 0 ∅ ∅ {[ "rank" := 1 ]}
              [("clsfr_args_tau_ms", 450); ("rank", 3)]) !! "rank" = Some 3 /\
  clsfr_args_f (apply_config toy_pipeline {[ "fs_out" := 100 ]} 0 ∅ ∅ {[ "rank" := 1 ]}
                  [("clsfr_args_tau_ms", 450); ("rank", 3)]) !! "tau_ms" = Some 450 /\
  returned (dataset_GridSearchCV toy_pipeline "a.txt" {[ "fs_out" := 100 ]} 0
              {[ "rank" := 1 ]} ∅ ∅ [] [[("rank", 3)]]) = Raise TypeError.
Proof.
  pose proof (config_keywords toy_pipeline {[ "fs_out" := 100 ]} 0 ∅ ∅ {[ "rank" := 1 ]}
                [("clsfr_args_tau_ms", 450); ("rank", 3)]) as (_ & Hplain & _ & Hclsfr & _).
  pose proof (config_keywords toy_pipeline {[ "fs_out" := 100 ]} 0 {[ "rank" := 1 ]} ∅ ∅
                [("rank", 3)]) as (_ & _ & _ & _ & _ & Hclash).
  split; [|split].
  - apply (Hplain "rank" 3).
    + apply NoDup_cons. split.
      * intros H. apply list_elem_of_singleton in H. discriminate H.
      * apply NoDup_singleton.
    + apply list_elem_of_further, list_elem_of_here.
    + reflexivity.
  - apply (Hclsfr "clsfr_args_tau_ms" 450).
    + apply list_elem_of_here.
    + reflexivity.
    + intros k2 v2 Hin Hpre _.
      apply elem_of_cons in Hin as [Hin|Hin]; [injection Hin as _ ->; reflexivity|].
      apply list_elem_of_singleton in Hin. injection Hin as -> _. discriminate Hpre.
  - apply (proj2 (Hclash "rank" (ex_intro _ 1 eq_refl) (ex_intro _ 3 eq_refl))
             "a.txt" [100] [100; 0] []); reflexivity.
Defined.

Lemma grid_search_result_witness :
  [[] : list (string * Z)] <> [] /\
  (exists fn fns', ["a.txt"; "missing.txt"; "b.txt"] = fn :: fns' /\
                   is_ok (loader toy_pipeline fn {[ "fs_out" := 100 ]}) = true) /\
  exists acc,
    [Some (Entry (P:=toy_pipeline) [] {[ "fs_out" := 100 ]} ∅ ["a.txt"; "b.txt"]
                 [100; 100] [0; 0])]
    = Some <$> acc /\
    Forall2 (entry_for toy_pipeline {[ "fs_out" := 100 ]} 0 ∅ ∅ ∅
               (loadable toy_pipeline {[ "fs_out" := 100 ]}
                  ["a.txt"; "missing.txt"; "b.txt"])) [[]] acc.
Proof.
  apply (grid_search_result toy_pipeline {[ "fs_out" := 100 ]} 0 ∅ ∅ ∅ [[]]
           ["a.txt"; "missing.txt"; "b.txt"]).
  left. reflexivity.
Defined.

(** ** [analyse_datasets] *)

Lemma tbind_raise {E A B} (m : traced E A) (k : A -> traced E B) e :
  returned m = Raise e -> tbind m k = (calls m, Raise e).
Proof. destruct m as [l [a|e']]; cbn; [discriminate|]. intros [= ->]. reflexivity. Qed.

Section AnalyseDatasetsProperties.
Context (P : Pipeline).
Context (preprocess_xy : Data P -> gmap string (Val P) -> result (Data P))
        (analyse_tuned : Data P -> Val P -> option (Val P) ->
                         gmap string (Val P) -> gmap string (Val P) ->
                         result (GScore P * GCurve P))
        (n_outputs : Data P -> Z)
        (summary : list (GScore P) -> list Z -> list (GCurve P) -> result unit).
Context (model : Val P)
        (loader_args preprocess_args clsfr_args : option (gmap string (Val P)))
        (tuned_parameters : option (Val P))
        (kwargs : gmap string (Val P)).

Local Abbreviation run :=
  (analyse_datasets P preprocess_xy analyse_tuned n_outputs summary model loader_args
     preprocess_args clsfr_args tuned_parameters kwargs).
Local Abbreviation body :=
  (analyse_file P preprocess_xy analyse_tuned n_outputs model loader_args
     preprocess_args clsfr_args tuned_parameters kwargs).
Local Abbreviation outcome :=
  (file_outcome P preprocess_xy analyse_tuned model loader_args
     preprocess_args clsfr_args tuned_parameters kwargs).

(** One pass of the loop: its outcome, and the one load it makes. *)
Lemma analyse_file_spec scores dcs nout fi :
  omap loaded_file (calls (body (scores, dcs, nout) fi)) = [fi] /\
  match outcome fi with
  | Ok sc => exists n1,
      returned (body (scores, dcs, nout) fi)
      = Ok (scores ++ [fst sc], dcs ++ [snd sc], nout ++ [n1])
  | Raise e => returned (body (scores, dcs, nout) fi) = Raise e
  end.
Proof.
  unfold analyse_file, file_outcome, call. cbv zeta.
  destruct (loader P fi (default ∅ loader_args)) as [d|e]; [|split; reflexivity].
  cbn [tbind rbind].
  destruct preprocess_args as [pa|].
  - destruct (preprocess_xy d pa) as [d'|e]; [|split; reflexivity].
    cbn [tbind rbind].
    destruct (analyse_tuned d' model tuned_parameters (default ∅ clsfr_args) kwargs)
      as [[score dc]|e]; (split; [reflexivity|]); [|reflexivity].
    eexists. reflexivity.
  - cbn [tbind rbind lift].
    destruct (analyse_tuned d model tuned_parameters (default ∅ clsfr_args) kwargs)
      as [[score dc]|e]; (split; [reflexivity|]); [|reflexivity].
    eexists. reflexivity.
Qed.

(** The loop over files that all succeed. *)
Lemma files_loop_ok fns : forall scores dcs nout scs,
  for_each outcome fns = Ok scs ->
  omap loaded_file (calls (tfoldl body fns (scores, dcs, nout))) = fns /\
  exists ns,
    length ns = length fns /\
    returned (tfoldl body fns (scores, dcs, nout))
    = Ok (scores ++ (fst <$> scs), dcs ++ (snd <$> scs), nout ++ ns).
Proof.
  induction fns as [|fi fns IH]; intros scores dcs nout scs H; cbn [for_each] in H.
  - injection H as <-. split; [reflexivity|]. exists [].
    rewrite !app_nil_r. split; reflexivity.
  - apply rbind_ok_inv in H as (sc & Hsc & H).
    apply rbind_ok_inv in H as (scs' & Hscs & H). injection H as <-.
    cbn [tfoldl]. rewrite calls_tbind, returned_tbind, omap_app.
    destruct (analyse_file_spec scores dcs nout fi) as [Hload Hret].
    rewrite Hsc in Hret. destruct Hret as [n1 Hret]. rewrite Hload, Hret.
    destruct (IH (scores ++ [fst sc]) (dcs ++ [snd sc]) (nout ++ [n1]) scs' Hscs)
      as (Hl & ns & Hns & Hr).
    rewrite Hl. split; [reflexivity|].
    exists (n1 :: ns). split; [cbn [length]; lia|].
    rewrite Hr, !fmap_cons, <- !app_assoc. reflexivity.
Qed.

(** The loop up to the first file that fails. *)
Lemma files_loop_fail pre fi post e : forall scores dcs nout scs,
  for_each outcome pre = Ok scs ->
  outcome fi = Raise e ->
  omap loaded_file (calls (tfoldl body (pre ++ fi :: post) (scores, dcs, nout)))
  = pre ++ [fi] /\
  returned (tfoldl body (pre ++ fi :: post) (scores, dcs, nout)) = Raise e.
Proof.
  induction pre as [|f0 pre IH]; intros scores dcs nout scs H Hfail; cbn [for_each] in H.
  - cbn [app tfoldl].
    destruct (analyse_file_spec scores dcs nout fi) as [Hload Hret].
    rewrite Hfail in Hret. rewrite (tbind_raise _ _ _ Hret). cbn [calls returned fst snd].
    split; [exact Hload | reflexivity].
  - apply rbind_ok_inv in H as (sc & Hsc & H).
    apply rbind_ok_inv in H as (scs' & Hscs & H). injection H as <-.
    rewrite <- app_comm_cons. cbn [tfoldl].
    rewrite calls_tbind, returned_tbind, omap_app.
    destruct (analyse_file_spec scores dcs nout f0) as [Hload Hret].
    rewrite Hsc in Hret. destruct Hret as [n1 Hret]. rewrite Hload, Hret.
    destruct (IH (scores ++ [fst sc]) (dcs ++ [snd sc]) (nout ++ [n1]) scs' Hscs Hfail)
      as [Hl Hr].
    rewrite Hl, Hr. split; reflexivity.
Qed.

Lemma calls_analyse_datasets fns :
  calls (run fns) = calls (tfoldl body fns ([], [], [])).
Proof.
  unfold analyse_datasets. rewrite calls_tbind.
  destruct (returned (tfoldl body fns ([], [], []))) as [[[scores dcs] nout]|e];
    [|apply app_nil_r].
  rewrite !tbind_lift.
  destruct (mean_defined scores); [|apply app_nil_r].
  destruct (mean_defined nout); [|apply app_nil_r].
  destruct (summary scores nout dcs); apply app_nil_r.
Qed.

(** X11.  What [analyse_datasets] returns: the file names as given, and one
    score and one decoding curve per file, in the order of the files, each
    the result of loading the file, preprocessing it when [preprocess_args]
    is given, and analysing it.  A call that returns had at least one file,
    and loaded every file exactly once, in order. *)
Theorem analyse_datasets_result fns r :
  returned (run fns) = Ok r ->
  fns <> [] /\
  omap loaded_file (calls (run fns)) = fns /\
  exists scs,
    for_each outcome fns = Ok scs /\
    r = (fns, fst <$> scs, snd <$> scs) /\
    length scs = length fns.
Proof.
  intros H. rewrite calls_analyse_datasets.
  destruct (for_each outcome fns) as [scs|e] eqn:Hscs.
  - destruct (files_loop_ok fns [] [] [] scs Hscs) as (Hl & ns & Hns & Hr).
    cbn [app] in Hr. unfold analyse_datasets in H. rewrite returned_tbind, Hr in H.
    rewrite tbind_lift in H.
    destruct fns as [|fi fns].
    { cbn [for_each] in Hscs. injection Hscs as <-. discriminate H. }
    split; [discriminate|]. split; [exact Hl|].
    exists scs. split; [reflexivity|].
    split; [|exact (for_each_length _ _ _ Hscs)].
    destruct (mean_defined (fst <$> scs)); [|discriminate H].
    rewrite tbind_lift in H. destruct (mean_defined ns); [|discriminate H].
    rewrite tbind_lift in H.
    destruct (summary (fst <$> scs) ns (snd <$> scs)); [|discriminate H].
    injection H as <-. reflexivity.
  - exfalso. apply for_each_raise_inv in Hscs as (fi & Hin & Hfi).
    apply list_elem_of_split in Hin as (pre & post & ->).
    assert (Hfirst : exists pre' fi' post' e' scs',
              pre ++ fi :: post = pre' ++ fi' :: post' /\
              for_each outcome pre' = Ok scs' /\ outcome fi' = Raise e').
    { clear H. revert fi post Hfi. induction pre as [|f0 pre IH]; intros fi post Hfi.
      - exists [], fi, post, e, []. auto.
      - destruct (outcome f0) as [sc0|e0] eqn:Hf0.
        + destruct (IH fi post Hfi) as (pre' & fi' & post' & e' & scs' & Heq & Hpre & Hf').
          exists (f0 :: pre'), fi', post', e', (sc0 :: scs').
          split; [cbn [app]; rewrite Heq; reflexivity|].
          split; [cbn [for_each]; rewrite Hf0, Hpre; reflexivity | exact Hf'].
        + exists [], f0, (pre ++ fi :: post), e0, []. auto. }
    destruct Hfirst as (pre' & fi' & post' & e' & scs' & Heq & Hpre & Hf').
    rewrite Heq in H.
    destruct (files_loop_fail pre' fi' post' e' [] [] [] scs' Hpre Hf') as [_ Hr].
    unfold analyse_datasets in H. rewrite returned_tbind, Hr in H. discriminate H.
Qed.

(** X12.  [analyse_datasets] has no error handling: without files it raises
    ZeroDivisionError (the average of no scores), and the first file whose
    loading, preprocessing or analysis raises ends the run with that
    exception: the files after it are never loaded and the results of the
    files before it are lost. *)
Theorem analyse_datasets_failures :
  run [] = ([], Raise ZeroDivisionError) /\
  (forall pre fi post e scs,
     for_each outcome pre = Ok scs ->
     outcome fi = Raise e ->
     returned (run (pre ++ fi :: post)) = Raise e /\
     omap loaded_file (calls (run (pre ++ fi :: post))) = pre ++ [fi]).
Proof.
  split; [reflexivity|].
  intros pre fi post e scs Hpre Hfi. rewrite calls_analyse_datasets.
  destruct (files_loop_fail pre fi post e [] [] [] scs Hpre Hfi) as [Hl Hr].
  split; [|exact Hl].
  unfold analyse_datasets. rewrite returned_tbind, Hr. reflexivity.
Qed.
End AnalyseDatasetsProperties.

Lemma analyse_datasets_result_witness :
  ["a.txt"; "b.txt"] <> [] /\
  omap loaded_file (calls (toy_analyse_datasets (Some {[ "whiten" := 5 ]})
                             ["a.txt"; "b.txt"]))
  = ["a.txt"; "b.txt"] /\
  exists scs,
    for_each (file_outcome toy_pipeline
                (fun d args => preprocess toy_pipeline d None args)
                (fun d m _ cf kw => analyse toy_pipeline d m cf kw)
                0 (Some {[ "fs_out" := 100 ]}) (Some {[ "whiten" := 5 ]}) None None ∅)
             ["a.txt"; "b.txt"] = Ok scs /\
    (["a.txt"; "b.txt"], [105; 105], [0; 0]) = (["a.txt"; "b.txt"], fst <$> scs, snd <$> scs) /\
    length scs = length ["a.txt"; "b.txt"].
Proof.
  exact (analyse_datasets_result toy_pipeline
           (fun d args => preprocess toy_pipeline d None args)
           (fun d m _ cf kw => analyse toy_pipeline d m cf kw)
           (fun d => Z.of_nat (length d)) (fun _ _ _ => Ok tt)
           0 (Some {[ "fs_out" := 100 ]}) (Some {[ "whiten" := 5 ]}) None None ∅
           ["a.txt"; "b.txt"] (["a.txt"; "b.txt"], [105; 105], [0; 0]) eq_refl).
Defined.

Lemma analyse_datasets_failures_witness :
  returned (toy_analyse_datasets None ["a.txt"; "missing.txt"; "b.txt"])
  = Raise (OtherError "FileNotFoundError") /\
  omap loaded_file (calls (toy_analyse_datasets None ["a.txt"; "missing.txt"; "b.txt"]))
  = ["a.txt"; "missing.txt"].
Proof.
  exact (proj2 (analyse_datasets_failures toy_pipeline
                  (fun d args => preprocess toy_pipeline d None args)
                  (fun d m _ cf kw => analyse toy_pipeline d m cf kw)
                  (fun d => Z.of_nat (length d)) (fun _ _ _ => Ok tt)
                  0 (Some {[ "fs_out" := 100 ]}) None None None ∅)
           ["a.txt"] "missing.txt" ["b.txt"] (OtherError "FileNotFoundError") [(100, 0)]
           eq_refl eq_refl).
Defined.

(** ** [analyse_train_test] *)

Lemma py_item_ends {A} (l : list A) :
  l <> [] -> exists x y, py_item l 0 = Ok x /\ py_item l (-1) = Ok y.
Proof.
  intros Hne. destruct l as [|x l]; [congruence|].
  destruct (lookup_lt_is_Some_2 (x :: l) (length l)) as [y Hy]; [cbn [length]; lia|].
  exists x, y. unfold py_item, norm_index. cbn [length]. split.
  - replace ((0 <=? 0) && (0 <? Z.of_nat (S (length l)))) with true
      by (symmetry; apply andb_true_iff; split; [apply Z.leb_le | apply Z.ltb_lt]; lia).
    reflexivity.
  - replace ((0 <=? -1) && (-1 <? Z.of_nat (S (length l)))) with false by reflexivity.
    replace ((- Z.of_nat (S (length l)) <=? -1) && (-1 <? 0)) with true
      by (symmetry; apply andb_true_iff; split; [apply Z.leb_le | apply Z.ltb_lt]; lia).
    cbn [rbind]. replace (Z.to_nat (-1 + Z.of_nat (S (length l)))) with (length l) by lia.
    rewrite Hy. reflexivity.
Qed.

Lemma seqZ_nonempty (a n : Z) : 0 < n -> seqZ a n <> [].
Proof.
  intros Hn H. apply (f_equal length) in H. rewrite length_seqZ in H.
  cbn [length] in H. lia.
Qed.

(** The label of the first fold of a growing window can be made. *)
Lemma first_fold_label (n : nat) (step : Z) :
  0 < step < Z.of_nat n ->
  exists lab,
    fold_label n [(Slice None (Some step), Slice (Some step) None)] = Ok lab.
Proof.
  intros Hs. unfold fold_label, fold_indices. cbn [rbind].
  rewrite apply_slice_prefix, apply_slice_suffix by lia.
  destruct (py_item_ends (seqZ 0 step)) as (t0 & t1 & -> & ->);
    [apply seqZ_nonempty; lia|].
  destruct (py_item_ends (seqZ step (Z.of_nat n - step))) as (s0 & s1 & -> & ->);
    [apply seqZ_nonempty; lia|].
  eexists. reflexivity.
Qed.

Section AnalyseTrainTestProperties.
Context (E : Collaborators) (PArgs : Type).
Context (preprocess_xy : list (XTrial E) -> Ytensor -> option (list (gmap string pyval)) ->
                         PArgs ->
                         result (list (XTrial E) * Ytensor *
                                 option (list (gmap string pyval))))
        (plot_models : pyval ->
                       list (nat * (Z * Z) * nat * (Z * Z) * Score E * Curve E * Clsfr E) ->
                       result unit)
        (summary : list (nat * (Z * Z) * nat * (Z * Z) * Score E * Curve E * Clsfr E) ->
                   result unit).

Local Abbreviation att := (analyse_train_test E PArgs preprocess_xy plot_models summary).
Local Abbreviation fold_options o cv :=
  (with_retrain_on_all false (with_cv (CvSplits cv) o)).

(** No fold completes: when the analysis of a fold returns, the unpacking of
    its result raises. *)
Lemma fold_run_spec X Y coords (o : options E) cv :
  (exists e, fold_label (length X) cv = Raise e /\
             fold_run E X Y coords o cv = ([], Raise e)) \/
  (exists lab, fold_label (length X) cv = Ok lab /\
     fold_run E X Y coords o cv
     = (calls (analyse_dataset E X Y coords (fold_options o cv)),
        match returned (analyse_dataset E X Y coords (fold_options o cv)) with
        | Ok _ => Raise ValueError
        | Raise e => Raise e
        end)).
Proof.
  unfold fold_run. rewrite tbind_lift.
  destruct (fold_label (length X) cv) as [lab|e]; [right | left; eauto].
  exists lab. split; [reflexivity|].
  destruct (analyse_dataset E X Y coords (fold_options o cv)) as [log [a|e]];
    [|reflexivity].
  destruct a as [[[[score dc] Fy] clsfr] res]. cbn. rewrite app_nil_r. reflexivity.
Qed.

(** X13.  [analyse_train_test] never returns normally, whatever its
    arguments: the first fold ends in an exception at the latest when the
    five values [analyse_dataset] returns are unpacked into four names
    (ValueError), and without folds the average of no scores raises
    ZeroDivisionError.  So at most one fold is ever analysed.  For a growing
    window with at least one fold, on data that is not preprocessed, the
    call raises what the analysis of the first fold raises, and ValueError
    when that analysis returns. *)
Theorem analyse_train_test_never_returns X Y coords splits fs pa (o : options E) :
  is_ok (returned (att X Y coords splits fs pa o)) = false /\
  (calls (att X Y coords splits fs pa o) = [] \/
   exists X' Y' coords' cv,
     calls (att X Y coords splits fs pa o)
     = calls (analyse_dataset E X' Y' coords' (fold_options o cv))) /\
  (forall step fs',
     splits = SplitSize step -> 0 < step < Z.of_nat (length X) ->
     pa = None -> coords_fs coords fs = Ok fs' ->
     let first := analyse_dataset E X Y coords
                    (fold_options o [(Slice None (Some step), Slice (Some step) None)]) in
     att X Y coords splits fs pa o
     = (calls first,
        match returned first with Ok _ => Raise ValueError | Raise e => Raise e end)).
Proof.
  assert (Hloop : forall X' Y' coords' (l : list split_spec) fs',
    let m := tbind (tfoldl (fun folds cv =>
                              tbind (fold_run E X' Y' coords' o cv)
                                    (fun r => lift (Ok (folds ++ [r])))) l [])
               (fun folds =>
                  tbind (lift (plot_models fs' folds))
                    (fun _ => tbind (lift (mean_defined folds))
                                (fun _ => lift (summary folds)))) in
    is_ok (returned m) = false /\
    (calls m = [] \/
     exists cv, calls m = calls (analyse_dataset E X' Y' coords' (fold_options o cv))) /\
    (forall cv l' lab, l = cv :: l' -> fold_label (length X') cv = Ok lab ->
       m = (calls (analyse_dataset E X' Y' coords' (fold_options o cv)),
            match returned (analyse_dataset E X' Y' coords' (fold_options o cv)) with
            | Ok _ => Raise ValueError
            | Raise e => Raise e
            end))).
  { intros X' Y' coords' l fs' m. subst m. destruct l as [|cv l].
    - cbn [tfoldl]. rewrite tbind_lift_ok, tbind_lift.
      split; [|split; [left|intros; discriminate]].
      + destruct (plot_models fs' []); reflexivity.
      + destruct (plot_models fs' []); reflexivity.
    - cbn [tfoldl].
      destruct (fold_run_spec X' Y' coords' o cv) as [(e & Hlab & Hrun)|(lab & Hlab & Hrun)].
      + rewrite Hrun. cbn [tbind].
        split; [reflexivity|]. split; [left; reflexivity|].
        intros cv0 l' lab [= <- <-] Hl. congruence.
      + set (first := analyse_dataset E X' Y' coords' (fold_options o cv)) in *.
        assert (He : exists e,
                  match returned first with Ok _ => Raise ValueError | Raise e => Raise e end
                  = (Raise e : result (nat * (Z * Z) * nat * (Z * Z) * Score E * Curve E *
                                       Clsfr E))).
        { destruct (returned first) as [a|e]; eexists; reflexivity. }
        destruct He as [e He]. rewrite He in Hrun. rewrite Hrun. cbn [tbind].
        split; [reflexivity|]. split; [right; exists cv; reflexivity|].
        intros cv0 l' lab0 [= <- <-] _. subst first.
        destruct (returned (analyse_dataset E X' Y' coords' (fold_options o cv)));
          injection He as <-; reflexivity. }
  unfold analyse_train_test. rewrite tbind_lift.
  destruct (coords_fs coords fs) as [fs1|e] eqn:Hfs.
  2:{ split; [reflexivity|]. split; [left; reflexivity|]. intros; discriminate. }
  rewrite tbind_lift.
  destruct splits as [splitsize|l].
  - destruct (growing_splits splitsize (length X)) as [l|e] eqn:Hsplits.
    2:{ split; [reflexivity|]. split; [left; reflexivity|].
        intros step fs' [= ->] Hstep _ _. exfalso.
        unfold growing_splits in Hsplits. rewrite py_range_pos in Hsplits by lia.
        discriminate Hsplits. }
    rewrite tbind_lift. destruct pa as [pa|].
    + destruct (preprocess_xy X Y coords pa) as [[[X' Y'] coords']|e].
      2:{ split; [reflexivity|]. split; [left; reflexivity|]. intros; discriminate. }
      destruct (Hloop X' Y' coords' l fs1) as (H1 & H2 & _).
      split; [exact H1|]. split; [|intros; discriminate].
      destruct H2 as [H2|[cv H2]]; [left; exact H2 | right; exists X', Y', coords', cv; exact H2].
    + destruct (Hloop X Y coords l fs1) as (H1 & H2 & H3).
      split; [exact H1|]. split.
      { destruct H2 as [H2|[cv H2]];
          [left; exact H2 | right; exists X, Y, coords, cv; exact H2]. }
      intros step fs' [= ->] Hstep _ _.
      unfold growing_splits in Hsplits. rewrite py_range_pos in Hsplits by lia.
      injection Hsplits as <-.
      destruct (first_fold_label (length X) step Hstep) as [lab Hlab].
      assert (Hk : 0 < (Z.of_nat (length X) - step + step - 1) `div` step).
      { apply Z.div_str_pos. lia. }
      rewrite seqZ_cons in * by lia. rewrite fmap_cons in *.
      replace (step + 0 * step) with step in * by lia.
      exact (H3 _ _ lab eq_refl Hlab).
  - rewrite tbind_lift. destruct pa as [pa|].
    + destruct (preprocess_xy X Y coords pa) as [[[X' Y'] coords']|e].
      2:{ split; [reflexivity|]. split; [left; reflexivity|]. intros; discriminate. }
      destruct (Hloop X' Y' coords' l fs1) as (H1 & H2 & _).
      split; [exact H1|]. split; [|intros; discriminate].
      destruct H2 as [H2|[cv H2]]; [left; exact H2 | right; exists X', Y', coords', cv; exact H2].
    + destruct (Hloop X Y coords l fs1) as (H1 & H2 & _).
      split; [exact H1|]. split; [|intros; discriminate].
      destruct H2 as [H2|[cv H2]];
        [left; exact H2 | right; exists X, Y, coords, cv; exact H2].
Qed.
End AnalyseTrainTestProperties.

Lemma analyse_train_test_never_returns_witness :
  toy_train_test (SplitSize 1)
  = ([CvFit (E:=toy) (ToyClsfr "MultiCCA" [30; 0; 1] []) toy_X toy_Y
            (CvSplits [(Slice None (Some 1), Slice (Some 1) None)]) None false;
      AudcScore (E:=toy) (ToyClsfr "MultiCCA" [30; 0; 1] toy_X) [2000; 2001; 2002];
      DecodingCurve (E:=toy) [2000; 2001; 2002] tt],
     Raise ValueError).
Proof.
  apply (proj2 (proj2 (analyse_train_test_never_returns toy unit
                         (fun X Y coords _ => Ok (X, Y, coords))
                         (fun _ _ => Ok tt) (fun _ => Ok tt)
                         toy_X toy_Y None (SplitSize 1) (VNum (PInt 100)) None toy_options))
           1 (VNum (PInt 100))).
  - reflexivity.
  - simpl. lia.
  - reflexivity.
  - reflexivity.
Defined.

(** ** [debug_test_dataset] *)

Lemma plot_trial_unbound :
  load_name debug_test_dataset_locals "plot_trial" = Raise NameError.
Proof. reflexivity. Qed.

Section DebugTestDatasetProperties.
Context (XY PArgs R : Type).
Context (preprocess_xy : XY -> option (list (gmap string pyval)) -> PArgs ->
                         result (XY * option (list (gmap string pyval))))
        (channel_info : option (list (gmap string pyval)) -> result unit)
        (rest : XY -> option (list (gmap string pyval)) -> resolved -> Z * Z -> result R).

Local Abbreviation dtd :=
  (debug_test_dataset XY PArgs R preprocess_xy channel_info rest).

(** Whatever the arguments, the call raises. *)
Lemma debug_test_dataset_raises shared xy coords tau_ms offset_ms evtlabs rank fs pa ca :
  is_ok (snd (dtd shared xy coords tau_ms offset_ms evtlabs rank fs pa ca)) = false.
Proof.
  unfold debug_test_dataset.
  destruct (coords_fs coords fs) as [fs1|e]; [|reflexivity].
  cbn [snd]. unfold debug_plots.
  destruct (debug_window fs1 _ _) as [w|e]; [|reflexivity]. cbn [rbind].
  destruct (match coords with Some cs => _ | None => _ end) as [names|e]; [|reflexivity].
  cbn [rbind].
  destruct (match pa with Some p => _ | None => _ end) as [[xy' coords']|e];
    [|reflexivity].
  cbn [rbind]. destruct (channel_info coords') as [u|e]; reflexivity.
Qed.

(** X14.  [debug_test_dataset] never returns normally: whatever its
    arguments, the call raises, at the latest at line 397, where the name
    [plot_trial] is read, which nothing binds (NameError).  In particular it
    raises NameError on data without [coords] that is not preprocessed, when
    the window can be computed and the channel information is read without
    error. *)
Theorem debug_test_dataset_never_returns shared xy coords tau_ms offset_ms evtlabs rank fs
    pa ca :
  is_ok (snd (dtd shared xy coords tau_ms offset_ms evtlabs rank fs pa ca)) = false /\
  (forall w,
     coords = None -> pa = None ->
     debug_window fs tau_ms offset_ms = Ok w ->
     ca = DictNone ->
     channel_info None = Ok tt ->
     snd (dtd shared xy coords tau_ms offset_ms evtlabs rank fs pa ca) = Raise NameError).
Proof.
  split.
  - apply debug_test_dataset_raises.
  - intros w -> -> Hw -> Hch.
    unfold debug_test_dataset, debug_plots. cbn [coords_fs snd].
    change (debug_window fs (r_tau_ms _) (r_offset_ms _))
      with (debug_window fs tau_ms offset_ms).
    rewrite Hw. cbn [rbind]. rewrite Hch. reflexivity.
Qed.

(** X15.  The default of [clsfr_args] is one dict shared by all calls, and
    the call writes its resolved arguments into it: once that dict holds a
    [tau_ms], every later call that leaves [clsfr_args] at its default
    behaves exactly as if it had been given that [tau_ms], whatever [tau_ms]
    it is given, and leaves the entry as it is.  A call on a dict without
    the entry stores the [tau_ms] it is given. *)
Theorem shared_default_is_sticky shared xy coords tau_ms offset_ms evtlabs rank fs pa fs' :
  coords_fs coords fs = Ok fs' ->
  (forall v,
     shared !! "tau_ms" = Some v -> is_None v = false ->
     dtd shared xy coords tau_ms offset_ms evtlabs rank fs pa DictDefault
     = dtd shared xy coords v offset_ms evtlabs rank fs pa DictDefault /\
     fst (dtd shared xy coords tau_ms offset_ms evtlabs rank fs pa DictDefault) !! "tau_ms"
     = Some v) /\
  (shared !! "tau_ms" = None ->
   fst (dtd shared xy coords tau_ms offset_ms evtlabs rank fs pa DictDefault) !! "tau_ms"
   = Some tau_ms).
Proof.
  intros Hfs. unfold debug_test_dataset. rewrite Hfs. unfold resolve_args.
  cbv beta iota zeta. cbn [default]. change (id shared) with shared.
  assert (Hlook : forall (d : gmap string argval) a b c e,
            (<["rank" := a]> (<["offset_ms" := b]> (<["fs" := c]>
               (<["tau_ms" := e]> d)))) !! "tau_ms" = Some e).
  { intros d a b c e.
    rewrite !lookup_insert_ne by discriminate. apply lookup_insert_eq. }
  split.
  - intros v Hv Hnone.
    assert (H1 : from_clsfr_args shared "tau_ms" tau_ms = v).
    { unfold from_clsfr_args. rewrite Hv, Hnone. reflexivity. }
    assert (H2 : from_clsfr_args shared "tau_ms" v = v).
    { unfold from_clsfr_args. rewrite Hv, Hnone. reflexivity. }
    rewrite H1, H2. split; [reflexivity|]. cbn [fst r_clsfr_args]. apply Hlook.
  - intros Hnone. cbn [fst r_clsfr_args]. rewrite Hlook.
    unfold from_clsfr_args. rewrite Hnone. reflexivity.
Qed.
End DebugTestDatasetProperties.

Lemma debug_test_dataset_never_returns_witness :
  snd (toy_debug ∅ (AVal (VNum (PInt 300)))) = Raise NameError.
Proof.
  apply (proj2 (debug_test_dataset_never_returns unit unit unit
                  (fun xy coords _ => Ok (xy, coords)) (fun _ => Ok tt)
                  (fun _ _ _ _ => Ok tt)
                  ∅ tt None (AVal (VNum (PInt 300))) (AVal (VNum (PInt 0))) (AVal VNone)
                  (AVal (VNum (PInt 1))) (VNum (PInt 100)) None DictNone)
           (30, 0)); reflexivity.
Defined.

Lemma shared_default_is_sticky_witness :
  fst (toy_debug (fst (toy_debug ∅ (AVal (VNum (PInt 450))))) (AVal (VNum (PInt 300)))) !! "tau_ms"
  = Some (AVal (VNum (PInt 450))).
Proof.
  apply (proj1 (shared_default_is_sticky unit unit unit
                  (fun xy coords _ => Ok (xy, coords)) (fun _ => Ok tt)
                  (fun _ _ _ _ => Ok tt)
                  (fst (toy_debug ∅ (AVal (VNum (PInt 450))))) tt None (AVal (VNum (PInt 300)))
                  (AVal (VNum (PInt 0))) (AVal VNone) (AVal (VNum (PInt 1))) (VNum (PInt 100)) None
                  (VNum (PInt 100)) eq_refl)
           (AVal (VNum (PInt 450)))).
  - reflexivity.
  - reflexivity.
Defined.

(** ** The panels of [plot_trial_summary] *)

Lemma py_range_unit (h : Z) : py_range 0 h 1 = Ok (seqZ 0 h).
Proof.
  rewrite py_range_pos by lia.
  replace ((h - 0 + 1 - 1) `div` 1) with h by (rewrite Z.div_1_r; lia).
  f_equal. rewrite <- (list_fmap_id (seqZ 0 h)) at 2.
  apply list_fmap_ext. intros i x _. cbn. lia.
Qed.

Lemma panel_row_seq (n hi : Z) (len : nat) : forall a ti,
  panel_row n hi (seqZ a (Z.of_nat len)) ti
  = ((fun j => (ti + j, hi, a + j)) <$> seqZ 0 (Z.min (Z.of_nat len) (Z.max 0 (n - ti))),
     ti + Z.min (Z.of_nat len) (Z.max 0 (n - ti))).
Proof.
  induction len as [|len IH]; intros a ti.
  - replace (Z.min (Z.of_nat 0) (Z.max 0 (n - ti))) with 0 by lia.
    rewrite Z.add_0_r. reflexivity.
  - rewrite seqZ_cons by lia. cbn [panel_row].
    destruct (n <=? ti) eqn:Hn.
    + apply Z.leb_le in Hn.
      replace (Z.min (Z.of_nat (S len)) (Z.max 0 (n - ti))) with 0 by lia.
      rewrite Z.add_0_r. reflexivity.
    + apply Z.leb_gt in Hn.
      replace (Z.pred (Z.of_nat (S len))) with (Z.of_nat len) by lia.
      rewrite IH.
      set (m' := Z.min (Z.of_nat len) (Z.max 0 (n - (ti + 1)))).
      replace (Z.min (Z.of_nat (S len)) (Z.max 0 (n - ti))) with (m' + 1) by lia.
      assert (Hm' : 0 <= m') by lia.
      f_equal; [|lia].
      rewrite (seqZ_cons 0 (m' + 1)) by lia. rewrite fmap_cons.
      replace (Z.pred (m' + 1)) with m' by lia.
      f_equal; [f_equal; [f_equal|]; lia|].
      change (Z.succ 0) with (1 + 0). rewrite <- (fmap_add_seqZ 1 0 m').
      rewrite <- list_fmap_compose.
      apply list_fmap_ext. intros i j _. cbn. f_equal; [f_equal|]; lia.
Qed.

Lemma panel_rows_seq (n w : Z) (m : nat) : forall r,
  0 <= n -> 0 < w -> 0 <= r ->
  panel_rows n (seqZ r (Z.of_nat m)) (seqZ 0 w) (Z.min n (r * w))
  = (fun ti => (ti, ti `div` w, ti `mod` w))
      <$> seqZ (Z.min n (r * w)) (Z.min n ((r + Z.of_nat m) * w) - Z.min n (r * w)).
Proof.
  induction m as [|m IH]; intros r Hn Hw Hr.
  - replace (r + Z.of_nat 0) with r by lia. rewrite Z.sub_diag. reflexivity.
  - rewrite (seqZ_cons r) by lia. cbn [panel_rows].
    replace (Z.pred (Z.of_nat (S m))) with (Z.of_nat m) by lia.
    replace w with (Z.of_nat (Z.to_nat w)) at 1 by lia.
    rewrite panel_row_seq. rewrite Z2Nat.id by lia.
    set (ti := Z.min n (r * w)).
    set (k := Z.min w (Z.max 0 (n - ti))).
    assert (Hti' : ti + k = Z.min n (Z.succ r * w)) by (subst ti k; lia).
    assert (Hk : 0 <= k) by (subst k; lia).
    rewrite Hti', IH by lia. fold ti.
    replace (Z.min n ((r + Z.of_nat (S m)) * w) - ti)
      with (k + (Z.min n ((Z.succ r + Z.of_nat m) * w) - Z.min n (Z.succ r * w))).
    2:{ replace (Z.succ r + Z.of_nat m) with (r + Z.of_nat (S m)) by lia. lia. }
    rewrite seqZ_app by lia. rewrite fmap_app, Hti'. f_equal.
    replace (seqZ ti k) with (Z.add ti <$> seqZ 0 k)
      by (rewrite fmap_add_seqZ; f_equal; lia).
    rewrite <- list_fmap_compose.
    apply list_fmap_ext. intros i j Hj. cbn.
    apply lookup_seqZ in Hj as [-> Hi].
    assert (Hlt : r * w < n) by (subst ti k; lia).
    assert (Hti : ti = r * w) by (subst ti; lia).
    assert (Hiw : Z.of_nat i < w) by (subst k; lia).
    rewrite Hti. replace (r * w + (0 + Z.of_nat i)) with (Z.of_nat i + r * w) by lia.
    rewrite Z.div_add, Z.mod_add by lia.
    rewrite Z.div_small, Z.mod_small by lia.
    repeat f_equal; lia.
Qed.

(** X19.  The panel grid of [plot_trial_summary] (the arithmetic of line 570
    taken as exact).  For a positive number of trials the grid has at least
    one column, exactly as many rows as are needed, and the two nested loops
    draw exactly one panel per trial, in trial order: trial [ti] in row
    [ti div w] and column [ti mod w], the [break] of the inner loop skipping
    the unused cells of the last row. *)
Theorem trial_panels_spec (nTrl : Z) :
  0 < nTrl ->
  let w := grid_cols nTrl in
  0 < w /\
  grid_rows nTrl w = Ok ((nTrl - 1) `div` w + 1) /\
  trial_panels nTrl
  = Ok ((fun ti => (ti, ti `div` w, ti `mod` w)) <$> seqZ 0 nTrl).
Proof.
  intros Hn w.
  assert (Hw : 0 < w).
  { subst w. unfold grid_cols.
    assert (0 < Z.sqrt_up (81 * nTrl)) by (apply Z.sqrt_up_pos; lia).
    apply Z.div_str_pos. lia. }
  assert (Hrows : grid_rows nTrl w = Ok ((nTrl - 1) `div` w + 1)).
  { unfold grid_rows. destruct (w =? 0) eqn:H0; [apply Z.eqb_eq in H0; lia|].
    f_equal. replace (nTrl + w - 1) with (nTrl - 1 + 1 * w) by lia.
    apply Z.div_add. lia. }
  split; [exact Hw|]. split; [exact Hrows|].
  unfold trial_panels. fold w. rewrite Hrows. cbn [rbind].
  rewrite !py_range_unit. cbn [rbind]. f_equal.
  set (h := (nTrl - 1) `div` w + 1).
  assert (Hh : 0 < h).
  { subst h. assert (0 <= (nTrl - 1) `div` w) by (apply Z.div_pos; lia). lia. }
  assert (Hcover : nTrl <= h * w).
  { subst h. pose proof (Z.mul_succ_div_gt (nTrl - 1) w Hw). lia. }
  pose proof (panel_rows_seq nTrl w (Z.to_nat h) 0) as H.
  rewrite Z2Nat.id in H by lia.
  replace (Z.min nTrl (0 * w)) with 0 in H by lia.
  replace (Z.min nTrl ((0 + h) * w) - 0) with nTrl in H by lia.
  apply H; lia.
Qed.

Lemma trial_panels_spec_witness :
  0 < grid_cols 7 /\
  grid_rows 7 (grid_cols 7) = Ok ((7 - 1) `div` grid_cols 7 + 1) /\
  trial_panels 7
  = Ok ((fun ti => (ti, ti `div` grid_cols 7, ti `mod` grid_cols 7)) <$> seqZ 0 7).
Proof. apply (trial_panels_spec 7). lia. Defined.

(** ** [debug_test_single_dataset] *)

Section DebugTestSingleDatasetProperties.
Context (XY PArgs R LArgs : Type).
Context (l : string -> LArgs -> result (XY * option (list (gmap string pyval))))
        (re_search : string -> string -> result bool)
        (preprocess_xy : XY -> option (list (gmap string pyval)) -> PArgs ->
                         result (XY * option (list (gmap string pyval))))
        (channel_info : option (list (gmap string pyval)) -> result unit)
        (rest : XY -> option (list (gmap string pyval)) -> resolved -> Z * Z -> result R).

Local Abbreviation single :=
  (debug_test_single_dataset XY PArgs R LArgs l re_search preprocess_xy channel_info rest).

Lemma matching_none pattern fs :
  Forall (fun f => re_search pattern f = Ok false) fs ->
  matching re_search pattern fs = Ok [].
Proof.
  induction 1 as [|f fs Hf _ IH]; [reflexivity|].
  cbn [matching]. rewrite Hf, IH. reflexivity.
Qed.

(** X20.  [debug_test_single_dataset] never returns normally either: it
    loads at most the first file (of those whose name the pattern matches)
    and then raises, since [debug_test_dataset] does.  With a pattern that
    matches no file name, or without files, it raises IndexError (from
    [fs[0]]) before anything is loaded. *)
Theorem debug_test_single_dataset_never_returns shared fs filename loader_args
    tau_ms offset_ms evtlabs rank fs_arg pa ca :
  let r := single shared fs filename loader_args tau_ms offset_ms evtlabs rank fs_arg pa ca in
  is_ok (snd r) = false /\
  (length (fst (fst r)) <= 1)%nat /\
  (forall pattern,
     filename = Some pattern ->
     Forall (fun f => re_search pattern f = Ok false) fs ->
     r = ([], shared, Raise IndexError)) /\
  (fs = [] -> r = ([], shared, Raise IndexError)).
Proof.
  intros r.
  assert (Hempty : single shared [] filename loader_args tau_ms offset_ms evtlabs rank
                     fs_arg pa ca = ([], shared, Raise IndexError)).
  { unfold debug_test_single_dataset. destruct filename; reflexivity. }
  split; [|split; [|split]].
  - subst r. unfold debug_test_single_dataset.
    destruct (match filename with Some p => _ | None => _ end) as [fs1|e]; [|reflexivity].
    destruct (py_item fs1 0) as [f|e]; [|reflexivity].
    destruct (l f loader_args) as [[xy coords]|e]; [|reflexivity].
    pose proof (debug_test_dataset_raises XY PArgs R preprocess_xy
                  channel_info rest shared xy coords tau_ms offset_ms evtlabs rank
                  fs_arg pa ca) as Hd.
    destruct (debug_test_dataset _ _ _ _ _ _ _ _ _ _ _ _ _ _ _ _) as [shared' res].
    exact Hd.
  - subst r. unfold debug_test_single_dataset.
    destruct (match filename with Some p => _ | None => _ end) as [fs1|e]; [|cbn; lia].
    destruct (py_item fs1 0) as [f|e]; [|cbn; lia].
    destruct (l f loader_args) as [[xy coords]|e]; [|cbn; lia].
    destruct (debug_test_dataset _ _ _ _ _ _ _ _ _ _ _ _ _ _ _ _) as [shared' res].
    cbn. lia.
  - intros pattern -> Hnone. subst r. unfold debug_test_single_dataset.
    rewrite (matching_none pattern fs Hnone). reflexivity.
  - intros ->. subst r. exact Hempty.
Qed.
End DebugTestSingleDatasetProperties.

Lemma debug_test_single_dataset_never_returns_witness :
  debug_test_single_dataset unit unit unit unit
    (fun _ _ => Ok (tt, None)) (fun pattern f => Ok (String.eqb pattern f))
    (fun xy coords _ => Ok (xy, coords)) (fun _ => Ok tt) (fun _ _ _ _ => Ok tt)
    ∅ ["s1.mat"; "s2.mat"] (Some "s3.mat") tt
    (AVal (VNum (PInt 300))) (AVal (VNum (PInt 0))) (AVal VNone) (AVal (VNum (PInt 1))) (VNum (PInt 100))
    None DictDefault
  = ([], ∅, Raise IndexError).
Proof.
  apply (proj1 (proj2 (proj2 (debug_test_single_dataset_never_returns unit unit unit unit
           (fun _ _ => Ok (tt, None)) (fun pattern f => Ok (String.eqb pattern f))
           (fun xy coords _ => Ok (xy, coords)) (fun _ => Ok tt) (fun _ _ _ _ => Ok tt)
           ∅ ["s1.mat"; "s2.mat"] (Some "s3.mat") tt
           (AVal (VNum (PInt 300))) (AVal (VNum (PInt 0))) (AVal VNone) (AVal (VNum (PInt 1)))
           (VNum (PInt 100)) None DictDefault))) "s3.mat").
  - reflexivity.
  - repeat constructor.
Defined.
